(** * continact: the orchestration layer of [run.py]

    A shallow embedding of the job runner ([do_run], [run_trials],
    [run_experiments]), the artifact scanner ([expand_paths]), the metric
    aggregation ([collect_metrics], [aggregate_results]), the configuration
    backfill ([patch_old_configs]) and the table summarizer
    ([expl-results/discrete_action/run.py]).

    Python objects are modelled by their observable content: an
    [argparse.Namespace] is a finite map from attribute names to values, the
    file system is a tree of directories, exceptions are carried by their
    class name, and the external libraries (stable-baselines3, torch, joblib,
    pandas, importlib, uuid) appear as a record of capabilities. *)

From Stdlib Require Import Ascii.
From stdpp Require Import base strings gmap list pretty.

#[local] Set Warnings "-register-all,-clear-no-such-hyp".
#[local] Open Scope string_scope.
#[local] Open Scope list_scope.

(** ** Python values, strings and namespaces *)

Module Py.

(** The values that configurations hold.  A float is carried by its [repr]
    (the shortest decimal string that reads back to it): the code only stores,
    prints and compares the floats of a configuration. *)
Inductive value :=
  | VBool (b : bool)
  | VInt (z : Z)
  | VFloat (repr : string)
  | VStr (s : string)
  | VList (l : list Z)
  | VClass (qualname : string).

#[global] Instance value_eq_dec : EqDecision value.
Proof. solve_decision. Defined.

(** Exceptions, by class name. *)
Definition exn := string.

(** [str.join] *)
Definition join (sep : string) (l : list string) : string := String.concat sep l.

(** [str(v)] *)
Definition str (v : value) : string :=
  match v with
  | VBool true => "True"
  | VBool false => "False"
  | VInt z => pretty z
  | VFloat r => r
  | VStr s => s
  | VList l => "[" +:+ join ", " (pretty <$> l) +:+ "]"
  | VClass q => "<class '" +:+ q +:+ "'>"
  end.

(** [repr(v)]: as [str], with strings quoted (escapes are not modelled). *)
Definition repr (v : value) : string :=
  match v with
  | VStr s => "'" +:+ s +:+ "'"
  | _ => str v
  end.

(** Truth value of an object, floats by their [repr]. *)
Definition truthy (v : value) : bool :=
  match v with
  | VBool b => b
  | VInt z => negb (z =? 0)%Z
  | VFloat r => negb (bool_decide (r = "0.0" ∨ r = "-0.0"))
  | VStr s => negb (bool_decide (s = ""))
  | VList l => negb (bool_decide (l = []))
  | VClass _ => true
  end.

(** The value of a decimal digit. *)
Definition digit (a : ascii) : option Z :=
  let n := (Z.of_N (N_of_ascii a) - 48)%Z in
  if bool_decide (0 ≤ n ≤ 9)%Z then Some n else None.

(** The leading digits of [s], read after the numeral [acc]: the number, how
    many digits were read, and the rest of [s]. *)
Fixpoint digits (s : string) (acc count : Z) : Z * Z * string :=
  match s with
  | String a s' =>
      match digit a with
      | Some d => digits s' (10 * acc + d)%Z (count + 1)%Z
      | None => (acc, count, s)
      end
  | EmptyString => (acc, count, s)
  end.

(** [x > 1] for the float [x] of [repr] [r].  The [repr] is [nan], [inf],
    or a decimal numeral with an optional point and an optional exponent,
    after an optional sign; the float is above 1 exactly when the numeral
    is, 1 being a float itself. *)
Definition float_gt_one (r : string) : bool :=
  match r with
  | String "-" _ => false
  | _ =>
      if bool_decide (r = "nan") then false
      else if bool_decide (r = "inf") then true
      else
        let '(whole, _, rest) := digits r 0 0 in
        let '(mantissa, places, rest) :=
          match rest with
          | String "." s => digits s whole 0
          | _ => (whole, 0%Z, rest)
          end in
        let exponent :=
          match rest with
          | String "e" (String "-" s) => (- (digits s 0 0).1.1)%Z
          | String "e" (String "+" s) => (digits s 0 0).1.1
          | String "e" s => (digits s 0 0).1.1
          | _ => 0%Z
          end in
        let k := (exponent - places)%Z in
        if bool_decide (0 ≤ k)%Z then bool_decide (1 < mantissa * 10 ^ k)%Z
        else bool_decide (10 ^ (- k) < mantissa)%Z
  end.

(** [s.split(c)] for a one-character separator: never the empty list. *)
Fixpoint split_on (c : ascii) (s : string) : list string :=
  match s with
  | EmptyString => [""]
  | String a s' =>
      if decide (a = c) then "" :: split_on c s'
      else match split_on c s' with
           | [] => [String a ""]
           | t :: ts => String a t :: ts
           end
  end.

(** [s.rstrip(c)] *)
Fixpoint rstrip (c : ascii) (s : string) : string :=
  match s with
  | EmptyString => ""
  | String a s' =>
      match rstrip c s' with
      | EmptyString => if decide (a = c) then "" else String a ""
      | r => String a r
      end
  end.

(** [s.replace(a, b)] for one-character [a] and [b]. *)
Fixpoint replace (a b : ascii) (s : string) : string :=
  match s with
  | EmptyString => ""
  | String x s' => String (if decide (x = a) then b else x) (replace a b s')
  end.

(** [s[:-n]] for [n > 0] *)
Definition drop_last (n : nat) (s : string) : string :=
  String.substring 0 (String.length s - n)%nat s.

(** [range(n)] *)
Definition range (n : Z) : list Z := Z.of_nat <$> seq 0 (Z.to_nat n).

(** [argparse.Namespace]: attribute name to value. *)
Abbreviation Namespace := (gmap string value).

Definition hasattr (ns : Namespace) (name : string) : bool :=
  bool_decide (is_Some (ns !! name)).

(** [str(ns)], attributes in the order of the map. *)
Definition namespace_str (ns : Namespace) : string :=
  "Namespace(" +:+
  join ", " ((λ kv : string * value, kv.1 +:+ "=" +:+ repr kv.2) <$> map_to_list ns)
  +:+ ")".

(** A [dict] literal with insertion order: keys are pairwise distinct. *)
Definition dict := list (string * value).

Definition keys (d : dict) : list string := fst <$> d.

(** [{**vars(base), **d}] as the attributes of the resulting namespace. *)
Definition merge (base : Namespace) (d : dict) : Namespace :=
  foldl (λ acc kv, <[kv.1 := kv.2]> acc) base d.

End Py.

(** ** Paths

    A [pathlib.Path] is modelled resolved against the working directory,
    which is the root of the file tree: the list of its components. *)

Module Paths.
Import Py.

Definition Path := list string.

(** [p / name] for a single component that is neither empty nor dotted, as in
    [log_dir / "completed"]. *)
Definition child (p : Path) (name : string) : Path := p ++ [name].

(** The components of a string: empty and [.] components collapse. *)
Definition parts (s : string) : list string :=
  filter (λ c, c ≠ "" ∧ c ≠ ".") (split_on "/"%char s).

Definition is_absolute (s : string) : bool :=
  match s with String "/"%char _ => true | _ => false end.

(** [p / s] for an arbitrary string: an absolute [s] replaces [p]. *)
Definition joinpath (p : Path) (s : string) : Path :=
  if is_absolute s then parts s else p ++ parts s.

(** [Path(s)] *)
Definition of_string (s : string) : Path := joinpath [] s.

End Paths.

Notation "p // name" := (Paths.child p name) (at level 40, left associativity).

(** ** The file tree *)

Module FS.
Import Py Paths.

(** What a file holds.  [pickle] and csv serialisation are taken to read back
    what was written, so a file carries the object itself. *)
Inductive data :=
  | Text (s : string)
  | Pickle (ns : Namespace)
  | Table (rows : list Namespace)
  | Blob (tag : string).

Inductive node :=
  | File (d : data)
  | Dir (entries : gmap string node).

#[global] Instance data_eq_dec : EqDecision data.
Proof. solve_decision. Defined.

Fixpoint node_at (n : node) (p : Path) : option node :=
  match p with
  | [] => Some n
  | name :: rest =>
      match n with
      | Dir es => es !! name ≫= λ c, node_at c rest
      | File _ => None
      end
  end.

(** [p.exists()] *)
Definition path_exists (n : node) (p : Path) : bool :=
  bool_decide (is_Some (node_at n p)).

(** [p.is_dir()] *)
Definition is_dir (n : node) (p : Path) : bool :=
  match node_at n p with Some (Dir _) => true | _ => false end.

(** The tree without the subtree at [p]. *)
Fixpoint remove (n : node) (p : Path) : node :=
  match n, p with
  | Dir es, [name] => Dir (delete name es)
  | Dir es, name :: rest => Dir (alter (λ c, remove c rest) name es)
  | _, _ => n
  end.

(** [os.makedirs(p, exist_ok=True)]: [None] when a file is in the way. *)
Fixpoint mkdirs (n : node) (p : Path) : option node :=
  match n with
  | File _ => None
  | Dir es =>
      match p with
      | [] => Some n
      | name :: rest =>
          c ← mkdirs (default (Dir ∅) (es !! name)) rest;
          Some (Dir (<[name := c]> es))
      end
  end.

(** Creating or truncating the file at [p] with content [d]. *)
Fixpoint write (n : node) (p : Path) (d : data) : exn + node :=
  match n, p with
  | _, [] => inl "IsADirectoryError"
  | File _, _ :: _ => inl "NotADirectoryError"
  | Dir es, [name] =>
      match es !! name with
      | Some (Dir _) => inl "IsADirectoryError"
      | _ => inr (Dir (<[name := File d]> es))
      end
  | Dir es, name :: rest =>
      match es !! name with
      | Some c =>
          match write c rest d with
          | inr c' => inr (Dir (<[name := c']> es))
          | inl e => inl e
          end
      | None => inl "FileNotFoundError"
      end
  end.

(** The number of nodes of a tree. *)
Fixpoint node_size (n : node) : nat :=
  match n with
  | File _ => 1
  | Dir es => S (map_fold (λ _ c acc, node_size c + acc) 0 es)
  end.

End FS.

(** ** Effects: durable side effects are logged with the tree they leave *)

Module Eff.
Import Py Paths FS.

Inductive event :=
  | EvRmtree (p : Path)
  | EvMkdirs (p : Path)
  | EvWrite (p : Path) (d : data)
  | EvTrain (cfg : Namespace) (log_dir : Path) (raised : option exn)
  | EvExtract (p : Path) (discretize : bool)
  | EvPrint (s : string).

#[global] Instance event_eq_dec : EqDecision event.
Proof. solve_decision. Defined.

(** The state of a run: the file tree, the log of side effects, each with the
    tree right after it, and the number of identifiers drawn so far. *)
Record world := World {
  fs : node;
  history : list (event * node);
  drawn : nat;
}.

Inductive outcome (A : Type) :=
  | Done (a : A)
  | Raised (e : exn).
Arguments Done {A} a.
Arguments Raised {A} e.

Definition M (A : Type) : Type := world → outcome A * world.

#[global] Instance M_ret : MRet M := λ A a w, (Done a, w).
#[global] Instance M_bind : MBind M := λ A B k m w,
  match m w with
  | (Done a, w') => k a w'
  | (Raised e, w') => (Raised e, w')
  end.

Definition raise {A} (e : exn) : M A := λ w, (Raised e, w).

Definition lift {A} (o : outcome A) : M A := λ w, (o, w).

(** The world after a durable side effect: the tree becomes [n], and the log
    grows. *)
Definition after (w : world) (e : event) (n : node) : world :=
  {| fs := n; history := history w ++ [(e, n)]; drawn := drawn w |}.

Definition effect (e : event) (n : node) : M unit := λ w, (Done (), after w e n).

(** An event that leaves the tree as it is. *)
Definition emit (e : event) : M unit := λ w, effect e (fs w) w.

Definition getattr (ns : Namespace) (name : string) : M value := λ w,
  match ns !! name with
  | Some v => (Done v, w)
  | None => (Raised "AttributeError", w)
  end.

Definition exists_ (p : Path) : M bool := λ w, (Done (path_exists (fs w) p), w).

(** [shutil.rmtree(p)] *)
Definition rmtree (p : Path) : M unit := λ w,
  match node_at (fs w) p with
  | Some (Dir _) => effect (EvRmtree p) (remove (fs w) p) w
  | Some (File _) => (Raised "NotADirectoryError", w)
  | None => (Raised "FileNotFoundError", w)
  end.

(** [SummaryWriter(log_dir=p)]: the directory is created with its parents. *)
Definition SummaryWriter (p : Path) : M unit := λ w,
  match mkdirs (fs w) p with
  | Some n => effect (EvMkdirs p) n w
  | None => (Raised "FileExistsError", w)
  end.

(** [with p.open("w") as fo: fo.write(d)] *)
Definition open_write (p : Path) (d : data) : M unit := λ w,
  match write (fs w) p d with
  | inr n => effect (EvWrite p d) n w
  | inl e => (Raised e, w)
  end.

(** [p.open("rb")] and reading the content. *)
Definition open_read (p : Path) : M data := λ w,
  match node_at (fs w) p with
  | Some (File d) => (Done d, w)
  | Some (Dir _) => (Raised "IsADirectoryError", w)
  | None => (Raised "FileNotFoundError", w)
  end.

(** [for x in l: f(x)] *)
Fixpoint for_each {A} (f : A → M unit) (l : list A) : M unit :=
  match l with
  | [] => mret ()
  | x :: l' => f x ;; for_each f l'
  end.

(** [[f(x) for x in l]] *)
Fixpoint map_m {A B} (f : A → M B) (l : list A) : M (list B) :=
  match l with
  | [] => mret []
  | x :: l' => y ← f x; ys ← map_m f l'; mret (y :: ys)
  end.

End Eff.

(** ** [run.py] *)

Module Run.
Import Py Paths FS Eff.

(** What [collect_metrics] gets from the evaluation episodes and
    [util.get_metrics]. *)
Record metrics := Metrics {
  steps : value;
  success_rate : value;
  entropies : Namespace;
  usages : value;
  vectors : value;
}.

(** The libraries the orchestration calls into. *)
Record External := {
  (** [E.Scalable] on the keyword arguments, and its vectorised wrappers:
      may raise. *)
  env_init : Namespace → option exn;
  (** [cfg.alg("MlpPolicy", env, ...)]: may raise. *)
  alg_init : Namespace → option exn;
  (** [model.learn(...)] with the logging callback writing into [log_dir]:
      the tree it leaves, and the exception it raised, if any. *)
  learn : Namespace → Path → node → node * option exn;
  (** [importlib.import_module(name).generate_configs()] *)
  generate_configs : string → outcome (list dict);
  (** Loading the state in [best.pt] into the policy, the evaluation
      episodes and [util.get_metrics]. *)
  evaluate : Namespace → data → bool → outcome metrics;
  (** [str(uuid.uuid4())] at the n-th draw. *)
  uuid4 : nat → string;
  (** The exception of [pickle.load] on a file that is neither a pickle nor
      empty. *)
  unpickle_error : data → exn;
}.

(** [v > 1]: numbers compare with an integer, other values do not. *)
Definition gt_one (v : value) : outcome bool :=
  match v with
  | VBool _ => Done false
  | VInt z => Done (bool_decide (1 < z)%Z)
  | VFloat r => Done (float_gt_one r)
  | VStr _ | VList _ | VClass _ => Raised "TypeError"
  end.

(** [range(v)]: for an integer only. *)
Definition range_of (v : value) : outcome (list Z) :=
  match v with
  | VBool b => Done (range (if b then 1 else 0))
  | VInt z => Done (range z)
  | _ => Raised "TypeError"
  end.

Definition _cfg : Namespace :=
  list_to_map [
    ("env_lsize", VInt 7);
    ("action_scale", VInt (2 ^ 3));
    ("discrete_action", VBool false);
    ("bottleneck", VStr "gsm");
    ("bottleneck_temperature", VFloat "1.0");
    ("reward_structure", VStr "proximity");
    ("policy_net_arch", VList []);
    ("pre_arch", VList [16; 16]%Z);
    ("post_arch", VList [16]%Z);
    ("policy_activation", VStr "tanh");
    ("action_noise", VFloat "0.0");
    ("obs_type", VStr "direction");
    ("entropy_samples", VInt 400);
    ("eval_freq", VInt 20000);
    ("total_timesteps", VInt 5000000);
    ("reward_threshold", VFloat "0.95");
    ("max_step_scale", VFloat "4.5");
    ("eval_episodes", VInt 500);
    ("fe_out_size", VInt 16);
    ("fe_out_ratio", VInt 4);
    ("pixel_space", VBool false);
    ("device", VStr "cpu");
    ("n_proc_alg", VInt 1);
    ("alg", VClass "stable_baselines3.ppo.ppo.PPO");
    ("n_steps", VInt 1024);
    ("batch_size", VInt 256);
    ("learning_rate", VFloat "0.0003");
    ("single_step", VBool false)
  ].

Definition cfg_test : Namespace := {[ "n_test_episodes" := VInt 1000 ]}.

Definition make_env_kwargs (cfg : Namespace) : M Namespace :=
  obs_type ← getattr cfg "obs_type";
  action_noise ← getattr cfg "action_noise";
  reward_structure ← getattr cfg "reward_structure";
  discrete_action ← getattr cfg "discrete_action";
  pixel_space ← getattr cfg "pixel_space";
  lsize ← getattr cfg "env_lsize";
  single_step ← getattr cfg "single_step";
  action_scale ← getattr cfg "action_scale";
  max_step_scale ← getattr cfg "max_step_scale";
  mret (list_to_map [
    ("obs_type", obs_type);
    ("action_noise", action_noise);
    ("reward_structure", reward_structure);
    ("discrete_action", discrete_action);
    ("pixel_space", pixel_space);
    ("lsize", lsize);
    ("single_step", single_step);
    ("action_scale", action_scale);
    ("max_step_scale", max_step_scale)
  ]).

Record policy_kwargs := PolicyKwargs {
  features_extractor_class : string;
  features_extractor_kwargs : Namespace;
  net_arch : value;
}.

Definition make_policy_kwargs (cfg : Namespace) : M policy_kwargs :=
  pixel_space ← getattr cfg "pixel_space";
  out_size ← getattr cfg "fe_out_size";
  ratio ← getattr cfg "fe_out_ratio";
  bottleneck ← getattr cfg "bottleneck";
  pre_arch ← getattr cfg "pre_arch";
  post_arch ← getattr cfg "post_arch";
  temp ← getattr cfg "bottleneck_temperature";
  act ← getattr cfg "policy_activation";
  net_arch ← getattr cfg "policy_net_arch";
  mret {|
    features_extractor_class :=
      if truthy pixel_space then "nn.ScalableCnn" else "nn.BottleneckPolicy";
    features_extractor_kwargs := list_to_map [
      ("out_size", out_size);
      ("ratio", ratio);
      ("bottleneck", bottleneck);
      ("pre_arch", pre_arch);
      ("post_arch", post_arch);
      ("temp", temp);
      ("act", act)
    ];
    net_arch := net_arch;
  |}.

(** A job as [delayed(do_run)(log_dir, cfg, i)] holds it: the arguments. *)
Definition job : Type := Path * Namespace * Z.

(** A built model: the configuration and keyword arguments it was built from. *)
Record model := Model {
  model_cfg : Namespace;
  model_env_kwargs : Namespace;
  model_policy_kwargs : policy_kwargs;
}.

Definition patch_old_configs (cfg : Namespace) : Namespace :=
  let cfg := if hasattr cfg "obs_type" then cfg
             else <["obs_type" := VStr "vector"]> cfg in
  let cfg := if hasattr cfg "policy_activation" then cfg
             else <["policy_activation" := VStr "tanh"]> cfg in
  let cfg := if hasattr cfg "bottleneck_temperature" then cfg
             else <["action_noise" := VFloat "0.0"]> cfg in
  let cfg := if hasattr cfg "bottleneck_temperature" then cfg
             else <["bottleneck_temperature" := VFloat "1.0"]> cfg in
  let cfg := if hasattr cfg "reward_structure" then cfg
             else <["reward_structure" := VStr "proximity"]> cfg in
  let cfg := if hasattr cfg "n_proc_alg" then cfg
             else <["n_proc_alg" := VInt 1]> cfg in
  let cfg := if hasattr cfg "discrete_action" then cfg
             else <["discrete_action" := VBool false]> cfg in
  cfg.

Section WithExternal.
Context (ext : External).

(** Calling a constructor of the libraries. *)
Definition construct (r : option exn) : M unit :=
  match r with
  | Some e => raise e
  | None => mret ()
  end.

Definition make_model (cfg : Namespace) : M model :=
  env_kwargs ← make_env_kwargs cfg;
  _ ← getattr cfg "pixel_space";
  n_proc_alg ← getattr cfg "n_proc_alg";
  many ← lift (gt_one n_proc_alg);
  (if many : bool
   then (_ ← lift (range_of n_proc_alg); construct (env_init ext env_kwargs))
   else construct (env_init ext env_kwargs));;
  policy_kwargs ← make_policy_kwargs cfg;
  _ ← getattr cfg "alg";
  _ ← getattr cfg "pixel_space";
  _ ← getattr cfg "n_steps";
  _ ← getattr cfg "batch_size";
  _ ← getattr cfg "learning_rate";
  _ ← getattr cfg "device";
  construct (alg_init ext cfg);;
  mret (Model cfg env_kwargs policy_kwargs).

(** [model.learn(total_timesteps=..., callback=[logging_callback])] *)
Definition model_learn (m : model) (log_dir : Path) : M unit := λ w,
  let '(n, raised) := learn ext (model_cfg m) log_dir (fs w) in
  match effect (EvTrain (model_cfg m) log_dir raised) n w with
  | (_, w') =>
      match raised with
      | Some e => (Raised e, w')
      | None => (Done (), w')
      end
  end.

Definition do_run (base_dir : Path) (cfg : Namespace) (idx : Z) : M unit :=
  let log_dir := base_dir // ("run-" +:+ pretty idx) in
  completed ← exists_ (log_dir // "completed");
  if completed : bool then mret ()
  else
    present ← exists_ log_dir;
    (if present : bool then rmtree log_dir else mret ());;
    SummaryWriter log_dir;;
    open_write (log_dir // "config.txt") (Text (namespace_str cfg));;
    open_write (log_dir // "config.pkl") (Pickle cfg);;
    env_kwargs ← make_env_kwargs cfg;
    _ ← getattr cfg "pixel_space";
    construct (env_init ext env_kwargs);;
    _ ← getattr cfg "eval_episodes";
    _ ← getattr cfg "eval_freq";
    _ ← getattr cfg "entropy_samples";
    model ← make_model cfg;
    _ ← getattr cfg "total_timesteps";
    model_learn model log_dir;;
    open_write (log_dir // "completed") (Text "").

Definition run_trials (base_dir : Path) (cfg : Namespace)
    (name_props : list string) (num_trials : Z) : M (list job) :=
  tokens ← map_m (λ prop, v ← getattr cfg prop; mret (str v)) name_props;
  let name := join "_" tokens in
  let log_dir := joinpath base_dir name in
  mret ((λ i, (log_dir, cfg, i)) <$> range num_trials).

(** Calling a job: [do_run] on the arguments it holds. *)
Definition call (j : job) : M unit := do_run j.1.1 j.1.2 j.2.

(** [Parallel(n_jobs=n_jobs)(tasks)], by the schedule that runs the tasks one
    after the other in the order of submission; joblib rejects a width of
    zero. *)
Definition Parallel {A} (n_jobs : Z) (tasks : list (M A)) : M (list A) :=
  if bool_decide (n_jobs = 0%Z) then raise "ValueError"
  else map_m id tasks.

(** The loop of [run_experiments] that builds the jobs. *)
Fixpoint build_jobs (config_paths : list string) (num_trials : Z)
    (out_dir : Path) (jobs : list job) : M (list job) :=
  match config_paths with
  | [] => mret jobs
  | config_path :: rest =>
      let config_name := drop_last 3 (List.last (split_on "/" config_path) "") in
      let out_path := joinpath out_dir config_name in
      let module_name := drop_last 3 (replace "/" "." (rstrip "/" config_path)) in
      configs ← lift (generate_configs ext module_name);
      jobs ← foldl (λ acc config,
                jobs ← acc;
                let cfg := merge _cfg config in
                more ← run_trials out_path cfg (keys config) num_trials;
                mret (jobs ++ more))
              (mret jobs) configs;
      build_jobs rest num_trials out_dir jobs
  end.

(** The dispatch at the end of [run_experiments]. *)
Definition execute (jobs : list job) (n_jobs : Z) : M unit :=
  if bool_decide (length jobs = 1%nat) || bool_decide (n_jobs = 1%Z)
  then for_each call jobs
  else (Parallel n_jobs (call <$> jobs);; mret ()).

Definition run_experiments (config_paths : list string) (num_trials n_jobs : Z)
    (out_dir : Path) : M unit :=
  jobs ← build_jobs config_paths num_trials out_dir [];
  execute jobs n_jobs.

(** The row [collect_metrics] builds: in a [dict] display a later key takes
    the place of an earlier one. *)
Definition contents (sample_id : string) (m : metrics) (discretize : bool)
    (cfg : Namespace) : Namespace :=
  cfg ∪
  <["vectors" := vectors m]> (
  <["usages" := usages m]> (
  <["discretize" := VBool discretize]> (
  entropies m ∪
  <["success_rate" := success_rate m]> (
  <["steps" := steps m]> (
  <["uuid" := VStr sample_id]> ∅))))).

Definition draw_uuid : M string := λ w,
  (Done (uuid4 ext (drawn w)),
   {| fs := fs w; history := history w; drawn := S (drawn w) |}).

(** [pkl.load(fo)]: a pickle reads back, an empty file is an [EOFError],
    any other content fails as the library decides. *)
Definition pkl_load (d : data) : M Namespace :=
  match d with
  | Pickle ns => mret ns
  | _ => raise (if bool_decide (d = Text "") then "EOFError"
                else unpickle_error ext d)
  end.

Definition collect_metrics (path out_path : Path) (discretize : bool)
    : M Namespace :=
  d ← open_read (path // "config.pkl");
  cfg ← pkl_load d;
  let cfg := patch_old_configs cfg in
  env_kwargs ← make_env_kwargs cfg;
  construct (env_init ext env_kwargs);;
  model ← make_model cfg;
  state ← open_read (path // "best.pt");
  emit (EvExtract path discretize);;
  m ← lift (evaluate ext cfg state discretize);
  sample_id ← draw_uuid;
  mret (contents sample_id m discretize cfg).

(** [expand_paths] below a directory whose entries are known. *)
Fixpoint expand_node (root : Path) (n : node) : list Path :=
  match n with
  | File _ => []
  | Dir contents =>
      let names := dom contents in
      (if bool_decide (size (({["best.pt"; "config.pkl"]} : gset string) ∩ names) = 2%nat)
       then [root] else [])
      ++ map_fold (λ name c acc, expand_node (root // name) c ++ acc) [] contents
  end.

Definition expand_paths (tree : node) (path_like : string) : list Path :=
  let root := of_string path_like in
  match node_at tree root with
  | Some n => expand_node root n
  | None => []
  end.

(** [pd.concat(results, ignore_index=True)] of one-row frames. *)
Definition pd_concat (results : list Namespace) : M (list Namespace) :=
  match results with
  | [] => raise "ValueError"
  | _ => mret results
  end.

(** [df.to_csv(p, index=False)] *)
Definition to_csv (df : list Namespace) (p parent : Path) : M unit := λ w,
  if is_dir (fs w) parent then open_write p (Table df) w
  else (Raised "OSError", w).

Definition aggregate_results (path_strs : list string) (out_dir : Path)
    (n_jobs : Z) : M unit := λ w,
  let paths := p ← path_strs; expand_paths (fs w) p in
  let jobs := d ← [true; false]; p ← paths; [collect_metrics p out_dir d] in
  (results ← Parallel n_jobs jobs;
   df ← pd_concat results;
   to_csv df (out_dir // "data.csv") out_dir) w.


End WithExternal.

End Run.

(** ** [expl-results/discrete_action/run.py] *)

Module DiscreteAction.
Import Py Paths FS Eff.

(** The pandas operations of the summarizer, and [analyze.to_latex]. *)
Record Pandas := {
  (** [df.groupby(keys)]: the groups, or the exception of a missing key. *)
  groupby : list Namespace → list string → outcome (list (list Namespace));
  (** [getattr(groups, op)()[fields].round(2)] *)
  reduce : string → list (list Namespace) → list string → outcome (list Namespace);
  (** [str(table)] *)
  frame_str : list Namespace → string;
  to_latex : list Namespace → string;
}.

Section WithPandas.
Context (pd : Pandas).

(** [pd.read_csv(p)] *)
Definition read_csv (p : Path) : M (list Namespace) :=
  d ← open_read p;
  match d with
  | Table rows => mret rows
  | _ => raise "ParserError"
  end.

Definition main (args : Namespace) (path : Path) : M unit :=
  df ← read_csv (path // "data.csv");
  groups ← lift (groupby pd df ["discretize"; "action_scale"]);
  let fields := ["steps"; "fractional"; "linf"] in
  stddev ← getattr args "stddev";
  op ← (if truthy stddev then mret "std"
        else
          stderr ← getattr args "stderr";
          if truthy stderr then raise "NotImplementedError"
          else mret "median");
  table ← lift (reduce pd op groups fields);
  latex ← getattr args "latex";
  if truthy latex then emit (EvPrint (to_latex pd table))
  else emit (EvPrint (frame_str pd table)).

End WithPandas.

End DiscreteAction.

(** ** Vocabulary of the statements *)

Module Props.
Import Py Paths FS Eff Run.

(** The directory of trial [idx] below [base_dir], and its completion marker. *)
Definition log_dir (base_dir : Path) (idx : Z) : Path :=
  base_dir // ("run-" +:+ pretty idx).
Definition marker (base_dir : Path) (idx : Z) : Path :=
  log_dir base_dir idx // "completed".
Definition job_marker (j : job) : Path := marker j.1.1 j.2.

(** The trainer does not create the completion marker of the run it trains. *)
Definition never_marks (ext : External) : Prop :=
  ∀ cfg dir n, node_at n (dir // "completed") = None →
               node_at (learn ext cfg dir n).1 (dir // "completed") = None.

(** The trainer leaves in place whatever exists at [q]. *)
Definition learn_keeps (ext : External) (q : Path) : Prop :=
  ∀ cfg dir n, is_Some (node_at n q) → is_Some (node_at (learn ext cfg dir n).1 q).

(** No job directory lies inside the directory of another job. *)
Definition independent (jobs : list job) : Prop :=
  ∀ j k, j ∈ jobs → k ∈ jobs →
    log_dir k.1.1 k.2 `prefix_of` log_dir j.1.1 j.2 →
    log_dir k.1.1 k.2 = log_dir j.1.1 j.2.

(** Every training of the log is that of [cfg] in [dir], and comes after both
    forms of the configuration were written into [dir]. *)
Definition config_before_training (dir : Path) (cfg : Namespace)
    (evs : list event) : Prop :=
  ∀ i cfg' dir' o, evs !! i = Some (EvTrain cfg' dir' o) →
    cfg' = cfg ∧ dir' = dir ∧
    ∃ j k, (j < k < i)%nat ∧
      evs !! j = Some (EvWrite (dir // "config.txt") (Text (namespace_str cfg))) ∧
      evs !! k = Some (EvWrite (dir // "config.pkl") (Pickle cfg)).

(** The marker is written empty, as the last event of the log, after a
    training that returned. *)
Definition marker_after_training (dir : Path) (cfg : Namespace)
    (evs : list event) : Prop :=
  ∀ i d, evs !! i = Some (EvWrite (dir // "completed") d) →
    d = Text "" ∧ S i = length evs ∧
    ∃ j, (j < i)%nat ∧ evs !! j = Some (EvTrain cfg dir None).

(** A directory that holds both required files. *)
Definition is_artifact (n : node) : Prop :=
  ∃ es, n = Dir es ∧ is_Some (es !! "best.pt") ∧ is_Some (es !! "config.pkl").

(** The row that the extraction of artifact [p] under variant [d] yields when
    it draws the [k]-th identifier. *)
Definition extracted (ext : External) (tree : node) (p : Path) (d : bool)
    (k : nat) (row : Namespace) : Prop :=
  ∃ cfg state m,
    node_at tree (p // "config.pkl") = Some (File (Pickle cfg)) ∧
    node_at tree (p // "best.pt") = Some (File state) ∧
    evaluate ext (patch_old_configs cfg) state d = Done m ∧
    row = contents (uuid4 ext k) m d (patch_old_configs cfg).

(** The (artifact, variant) pairs in the order of dispatch. *)
Definition pairs (paths : list Path) : list (Path * bool) :=
  d ← [true; false]; p ← paths; [(p, d)].


(** The exception a command ended with, if any. *)
Definition status {A} (r : outcome A) : option exn :=
  match r with Done _ => None | Raised e => Some e end.

(** One rule of [patch_old_configs]: when [test] is missing, [field] is set. *)
Definition backfill (test field : string) (v : value) (cfg : Namespace) : Namespace :=
  if hasattr cfg test then cfg else <[field := v]> cfg.

Definition patched_fields : list string :=
  ["obs_type"; "policy_activation"; "action_noise"; "bottleneck_temperature";
   "reward_structure"; "n_proc_alg"; "discrete_action"].

(** [c in s] for a character. *)
Fixpoint has_char (c : ascii) (s : string) : bool :=
  match s with
  | EmptyString => false
  | String a s' => bool_decide (a = c) || has_char c s'
  end.

(** A rendered value that names one path component and cannot be confused
    with the separator of the name. *)
Definition valid_token (t : string) : Prop :=
  t ≠ "" ∧ t ≠ "." ∧ has_char "_" t = false ∧ has_char "/" t = false.

(** The [str] of the values of an override-set, in the order of its keys. *)
Definition renderings (d : dict) : list string := str <$> d.*2.

(** The jobs of [num_trials] trials in [dir]. *)
Definition trials (dir : Path) (cfg : Namespace) (num_trials : Z) : list job :=
  (λ i, (dir, cfg, i)) <$> range num_trials.

(** What an event does, and where. *)
Definition describe (e : event) : string * Path :=
  match e with
  | EvRmtree p => ("rmtree", p)
  | EvMkdirs p => ("mkdirs", p)
  | EvWrite p _ => ("write", p)
  | EvTrain _ dir None => ("train", dir)
  | EvTrain _ dir (Some _) => ("train raised", dir)
  | EvExtract p true => ("extract discretized", p)
  | EvExtract p false => ("extract continuous", p)
  | EvPrint _ => ("print", [])
  end.

Definition trace (w : world) : list (string * Path) := describe <$> (history w).*1.



(** The directories of the jobs a builder returned. *)
Definition job_dirs (r : outcome (list job)) : list Path :=
  match r with
  | Done jobs => (λ j : job, j.1.1) <$> jobs
  | Raised _ => []
  end.

End Props.

(** ** Concrete libraries, trees and arguments *)

Module Examples.
Import Py Paths FS Eff Run.
(** A trainer that saves a checkpoint and returns. *)
Definition ext0 : External := {|
  env_init := λ _, None;
  alg_init := λ _, None;
  learn := λ cfg dir n,
    (match write n (dir // "best.pt") (Blob "state") with
     | inr n' => n'
     | inl _ => n
     end, None);
  generate_configs := λ name,
    if bool_decide (name = "configs.empty") then Done [[]]
    else Done [[("learning_rate", VFloat "0.001")]; [("learning_rate", VFloat "0.01")]];
  evaluate := λ cfg state d,
    Done (Metrics (VFloat "3.5") (VFloat "1.0") ∅ (VList []) (VList []));
  uuid4 := λ n, "uuid-" +:+ pretty n;
  unpickle_error := λ _, "UnpicklingError";
|}.

(** The same libraries, with an evaluation that raises. *)
Definition ext_failing : External := {|
  env_init := env_init ext0;
  alg_init := alg_init ext0;
  learn := learn ext0;
  generate_configs := generate_configs ext0;
  evaluate := λ cfg state d, Raised "RuntimeError";
  uuid4 := uuid4 ext0;
  unpickle_error := unpickle_error ext0;
|}.

(** The libraries of [ext0], with a module whose two override-sets are
    [{foo: "run-0"}] and [{}]. *)
Definition ext_nested : External := {|
  env_init := env_init ext0;
  alg_init := alg_init ext0;
  learn := learn ext0;
  generate_configs := λ name, Done [[("foo", VStr "run-0")]; []];
  evaluate := evaluate ext0;
  uuid4 := uuid4 ext0;
  unpickle_error := unpickle_error ext0;
|}.

Definition start (tree : node) : world := World tree [] 0.

Definition empty_tree : node := Dir ∅.

(** [log/run-0] holds a finished run. *)
Definition finished_tree : node :=
  Dir {[ "log" := Dir {[ "run-0" := Dir {[
    "config.txt" := File (Text (namespace_str _cfg));
    "config.pkl" := File (Pickle _cfg);
    "best.pt" := File (Blob "state");
    "completed" := File (Text "") ]} ]} ]}.

(** [log/run-0] holds what an interrupted run left. *)
Definition stale_tree : node :=
  Dir {[ "log" := Dir {[ "run-0" := Dir {[
    "config.txt" := File (Text "partial") ]} ]} ]}.

(** [log/a] is an artifact, [log/b] lacks the model state. *)
Definition artifact_tree : node :=
  Dir {[ "log" := Dir {[
    "a" := Dir {[ "config.pkl" := File (Pickle _cfg); "best.pt" := File (Blob "state") ]};
    "b" := Dir {[ "config.pkl" := File (Pickle _cfg) ]} ]} ]}.


(** The configuration of an artifact written before [action_noise] existed. *)
Definition old_cfg : Namespace := delete "action_noise" _cfg.

Definition old_artifact_tree : node :=
  Dir {[ "log" := Dir {[
    "a" := Dir {[ "config.pkl" := File (Pickle old_cfg); "best.pt" := File (Blob "state") ]} ]} ]}.

Definition pd0 : DiscreteAction.Pandas := {|
  DiscreteAction.groupby := λ df keys, Done [df];
  DiscreteAction.reduce := λ op groups fields,
    Done [ {[ "op" := VStr op ]} ];
  DiscreteAction.frame_str := λ table,
    join "," ((λ row : Namespace, default "" (str <$> row !! "op")) <$> table);
  DiscreteAction.to_latex := λ table, "latex";
|}.

Definition table_tree : node :=
  Dir {[ "data.csv" := File (Table [ {[ "steps" := VFloat "3.5" ]} ]) ]}.

Definition args_stderr : Namespace :=
  {[ "stddev" := VBool false; "stderr" := VBool true; "latex" := VBool false ]}.
Definition args_both : Namespace :=
  {[ "stddev" := VBool true; "stderr" := VBool true; "latex" := VBool false ]}.
End Examples.

(** ** The lexicon map of [run.py] *)

Module Lexicon.
Import Py Eff.

(** A two-dimensional [numpy] array of integers: its shape and its items. *)
Record ndarray := NdArray {
  shape0 : nat;
  shape1 : nat;
  item : nat → nat → Z;
}.

(** An integer index along an axis of length [n]: a negative index counts from
    the end, an index outside [-n, n) is refused. *)
Definition axis (n : nat) (i : Z) : option nat :=
  if bool_decide (0 ≤ i < Z.of_nat n)%Z then Some (Z.to_nat i)
  else if bool_decide (- Z.of_nat n ≤ i < 0)%Z then Some (Z.to_nat (i + Z.of_nat n))
  else None.

(** [m[i, j]] *)
Definition getitem (m : ndarray) (i j : Z) : outcome Z :=
  match axis (shape0 m) i, axis (shape1 m) j with
  | Some r, Some c => Done (item m r c)
  | _, _ => Raised "IndexError"
  end.

(** [x != y], the left operand evaluated first. *)
Definition ne (x y : outcome Z) : outcome bool :=
  match x, y with
  | Done a, Done b => Done (negb (a =? b)%Z)
  | Raised e, _ => Raised e
  | _, Raised e => Raised e
  end.

(** [c and x]: [x] is evaluated only when the integer [c] is not zero. *)
Definition and_then (c : Z) (x : outcome bool) : outcome bool :=
  if (c =? 0)%Z then Done false else x.

Definition is_border (m : ndarray) (i j : Z) : outcome bool :=
  match and_then (i `mod` 2)
          (ne (getitem m ((i - 1) `div` 2) (j `div` 2))
              (getitem m ((i + 1) `div` 2) (j `div` 2))) with
  | Raised e => Raised e
  | Done true => Done true
  | Done false =>
      match and_then (j `mod` 2)
              (ne (getitem m (i `div` 2) ((j - 1) `div` 2))
                  (getitem m (i `div` 2) ((j + 1) `div` 2))) with
      | Raised e => Raised e
      | Done true => Done true
      | Done false => Done false
      end
  end.

End Lexicon.

(** ** The entry point of [run.py] *)

Module Cli.
Import Py Paths FS Eff Run.

(** What [get_args] returns. *)
Record Args := {
  command : string;
  targets : list string;
  num_trials : Z;
  out_dir : string;
  j : Z;
}.

Section WithExternal.
Context (ext : External).
(** [optimality_test], which plays random episodes and prints their lengths. *)
Context (optimality_test : M unit).

(** [main], on the arguments parsed. *)
Definition main (args : Args) : M unit :=
  let out_dir := of_string (out_dir args) in
  if bool_decide (command args = "test") then
    aggregate_results ext (targets args) out_dir (j args)
  else if bool_decide (command args = "run") then
    run_experiments ext (targets args) (num_trials args) (j args) (of_string "log")
  else if bool_decide (command args = "optimal") then
    optimality_test
  else raise "ValueError".

End WithExternal.

End Cli.

(** ** Further vocabulary *)

Module Notions.
Import Py Paths FS Eff Run Props.

(** The attributes [make_env_kwargs] reads, in the order it reads them. *)
Definition env_fields : list string :=
  ["obs_type"; "action_noise"; "reward_structure"; "discrete_action";
   "pixel_space"; "env_lsize"; "single_step"; "action_scale"; "max_step_scale"].

(** The attributes [patch_old_configs] tests. *)
Definition tested_fields : list string :=
  ["obs_type"; "policy_activation"; "bottleneck_temperature";
   "reward_structure"; "n_proc_alg"; "discrete_action"].

(** The values of [n_proc_alg] that [make_model] accepts: a number that
    compares with 1 and, when above it, is an integer to count from. *)
Definition usable_count (v : value) : bool :=
  match v with
  | VBool _ | VInt _ => true
  | VFloat r => negb (float_gt_one r)
  | VStr _ | VList _ | VClass _ => false
  end.

(** Neither path lies at or below the other. *)
Definition apart (p q : Path) : Prop := ¬ p `prefix_of` q ∧ ¬ q `prefix_of` p.

(** The trainer changes nothing apart from the directory it logs into. *)
Definition learn_local (ext : External) : Prop :=
  ∀ cfg dir n q, apart dir q → node_at (learn ext cfg dir n).1 q = node_at n q.

(** The trainer leaves a regular file at [q] as it is. *)
Definition learn_leaves (ext : External) (q : Path) : Prop :=
  ∀ cfg dir n x, node_at n q = Some (File x) →
                 node_at (learn ext cfg dir n).1 q = Some (File x).

(** The names [run_experiments] derives from the path of a configuration
    module. *)
Definition config_name (config_path : string) : string :=
  drop_last 3 (List.last (split_on "/" config_path) "").
Definition module_name (config_path : string) : string :=
  drop_last 3 (replace "/" "." (rstrip "/" config_path)).

(** The jobs of the override-sets of one module, in order. *)
Definition jobs_of (out_dir : Path) (num_trials : Z) (config_path : string)
    (configs : list dict) : list job :=
  config ← configs;
  trials (joinpath (joinpath out_dir (config_name config_path))
                   (join "_" (renderings config)))
         (merge _cfg config) num_trials.

(** The [str] of the attributes [props] of [cfg], in order. *)
Definition rendered (cfg : Namespace) (props : list string) : list string :=
  (λ p, default "" (str <$> cfg !! p)) <$> props.

(** A configuration module whose override-sets are [configs]. *)
Definition yields (ext : External) (config_path : string) (configs : list dict) : Prop :=
  generate_configs ext (module_name config_path) = Done configs ∧
  Forall (λ config, NoDup (keys config)) configs.

(** [x] stands before [y] in [l]. *)
Definition before {A} (x y : A) (l : list A) : Prop :=
  ∃ l1 l2 l3, l = l1 ++ x :: l2 ++ y :: l3.

(** The columns [collect_metrics] computes. *)
Definition metric_columns : list string :=
  ["uuid"; "steps"; "success_rate"; "discretize"; "usages"; "vectors"].

(** Commands that leave whatever is, or is not, at [q] as it is. *)
Class Leaves (q : Path) {A} (m : M A) : Prop :=
  leaves : ∀ w, node_at (fs (m w).2) q = node_at (fs w) q.

End Notions.

(** ** Further trees and libraries *)

Module Samples.
Import Py Paths FS Eff Run Examples.

(** A regular file stands where the directory of [log/run-0] should be. *)
Definition blocked_tree : node :=
  Dir {[ "log" := Dir {[ "run-0" := File (Text "") ]} ]}.

(** The artifact [a], with the artifact [a/sub] nested in it. *)
Definition nested_tree : node :=
  Dir {[ "a" := Dir {[
    "config.pkl" := File (Pickle _cfg);
    "best.pt" := File (Blob "state");
    "sub" := Dir {[ "config.pkl" := File (Pickle _cfg);
                    "best.pt" := File (Blob "state") ]} ]} ]}.

(** The libraries of [ext0], with a configuration module that cannot be
    imported. *)
Definition ext_broken : External := {|
  env_init := env_init ext0;
  alg_init := alg_init ext0;
  learn := learn ext0;
  generate_configs := λ name,
    if bool_decide (name = "configs.broken") then Raised "ModuleNotFoundError"
    else generate_configs ext0 name;
  evaluate := evaluate ext0;
  uuid4 := uuid4 ext0;
  unpickle_error := unpickle_error ext0;
|}.

(** The override-sets that [ext0] generates for a module. *)
Definition rates : list dict :=
  [[("learning_rate", VFloat "0.001")]; [("learning_rate", VFloat "0.01")]].

End Samples.

(** ** Classes of commands *)

Import Py Paths FS Eff Run Props Examples.

(** Commands that leave the world as it is. *)
Class Pure {A} (m : M A) : Prop := pure_world : ∀ w, (m w).2 = w.

(** Commands whose result and final tree depend on the tree alone. *)
Class TreeOnly {A} (m : M A) : Prop :=
  tree_only : ∀ w1 w2, fs w1 = fs w2 →
    (m w1).1 = (m w2).1 ∧ fs (m w1).2 = fs (m w2).2.

(** Commands whose exception and final tree depend on the tree alone. *)
Class StatusOnly {A} (m : M A) : Prop :=
  status_only : ∀ w1 w2, fs w1 = fs w2 →
    status (m w1).1 = status (m w2).1 ∧ fs (m w1).2 = fs (m w2).2.

(** Commands that leave in place whatever exists at [q]. *)
Class Keeps (q : Path) {A} (m : M A) : Prop :=
  keeps : ∀ w, is_Some (node_at (fs w) q) → is_Some (node_at (fs (m w).2) q).

#[local] Arguments patch_old_configs : simpl never.
#[local] Arguments contents : simpl never.
#[local] Arguments make_env_kwargs : simpl never.
#[local] Arguments make_model : simpl never.
#[local] Arguments construct : simpl never.
#[local] Arguments collect_metrics : simpl never.

(** * Proofs *)

(** ** The file tree *)

Section FSLemmas.
Implicit Types (n c : node) (p q : Path) (d : data).

Lemma node_at_file d p : p ≠ [] → node_at (File d) p = None.
Proof. by destruct p. Qed.

Lemma node_at_empty_dir p : p ≠ [] → node_at (Dir ∅) p = None.
Proof. destruct p; [done|]. intros _. simpl. by rewrite lookup_empty. Qed.

Lemma node_at_app n p q : node_at n (p ++ q) = node_at n p ≫= λ c, node_at c q.
Proof.
  revert n. induction p as [|name rest IH]; intros n; [done|].
  destruct n as [?|es]; [done|]. simpl.
  destruct (es !! name) as [c|]; [apply IH | done].
Qed.

Lemma node_at_remove_below n p q : p ≠ [] → node_at (remove n p) (p ++ q) = None.
Proof.
  revert n. induction p as [|name rest IH]; intros n Hp; [done|].
  destruct n as [d|es]; [by destruct rest|].
  destruct rest as [|name' rest'].
  - simpl. by rewrite lookup_delete_eq.
  - change (node_at (Dir (alter (λ c, remove c (name' :: rest')) name es))
             (name :: ((name' :: rest') ++ q)) = None).
    simpl node_at at 1. rewrite lookup_alter_eq.
    destruct (es !! name) as [c|]; [|done].
    simpl. by apply IH.
Qed.

Lemma node_at_mkdirs_absent n n' p q :
  mkdirs n p = Some n' → q ≠ [] →
  node_at n (p ++ q) = None → node_at n' (p ++ q) = None.
Proof.
  revert n n'. induction p as [|name rest IH]; intros n n' Hmk Hq Hn.
  - destruct n; simplify_eq/=. done.
  - destruct n as [?|es]; [done|]. simpl in Hmk.
    destruct (mkdirs (default (Dir ∅) (es !! name)) rest) as [c'|] eqn:Hc; simplify_eq/=.
    rewrite lookup_insert_eq. simpl.
    eapply IH; [done..|].
    destruct (es !! name) as [c|]; simpl in *; [done|].
    apply node_at_empty_dir. by destruct rest, q.
Qed.

Lemma is_dir_mkdirs n n' p : mkdirs n p = Some n' → is_dir n' p = true.
Proof.
  unfold is_dir. revert n n'. induction p as [|name rest IH]; intros n n' Hmk.
  - by destruct n; simplify_eq/=.
  - destruct n as [?|es]; [done|]. simpl in Hmk.
    destruct (mkdirs (default (Dir ∅) (es !! name)) rest) as [c'|] eqn:Hc; simplify_eq/=.
    rewrite lookup_insert_eq. simpl. by eapply IH.
Qed.

Lemma write_snoc_inv n n' p a d :
  write n (p ++ [a]) d = inr n' →
  ∀ b q, a ≠ b → node_at n' (p ++ b :: q) = node_at n (p ++ b :: q).
Proof.
  revert n n'. induction p as [|name rest IH]; intros n n' Hw b q Hab.
  - destruct n as [?|es]; [done|]. simpl in Hw.
    destruct (es !! a) as [[]|]; simplify_eq/=; by rewrite lookup_insert_ne.
  - destruct n as [?|es]; [done|].
    assert (write (Dir es) (name :: rest ++ [a]) d =
            match es !! name with
            | Some c => match write c (rest ++ [a]) d with
                        | inr c' => inr (Dir (<[name := c']> es))
                        | inl e => inl e end
            | None => inl "FileNotFoundError" end) as Heq by (by destruct rest).
    simpl app in Hw. rewrite Heq in Hw.
    destruct (es !! name) as [c|] eqn:Hc; [|done].
    destruct (write c (rest ++ [a]) d) as [|c'] eqn:Hw'; simplify_eq/=.
    rewrite lookup_insert_eq, Hc. simpl. by eapply IH.
Qed.

Lemma node_at_write n n' p d : write n p d = inr n' → node_at n' p = Some (File d).
Proof.
  revert n n'. induction p as [|name rest IH]; intros n n' Hw.
  - by destruct n.
  - destruct n as [?|es]; [done|]. destruct rest as [|name' rest'].
    + simpl in Hw. destruct (es !! name) as [[]|]; simplify_eq/=;
        by rewrite lookup_insert_eq.
    + simpl in Hw. destruct (es !! name) as [c|] eqn:Hc; [|done].
      destruct c as [?|es']; [done|].
      change (match write (Dir es') (name' :: rest') d with
              | inr c' => inr (Dir (<[name := c']> es))
              | inl e => inl e end = inr n') in Hw.
      destruct (write (Dir es') (name' :: rest') d) as [|c'] eqn:Hw'; simplify_eq.
      change (<[name := c']> es !! name ≫= (λ c, node_at c (name' :: rest')) = Some (File d)).
      rewrite lookup_insert_eq. simpl. by eapply IH.
Qed.
End FSLemmas.

Section Frame.
Implicit Types (n c : node) (p q : Path).

Lemma remove_keeps n p q :
  ¬ p `prefix_of` q → is_Some (node_at n q) → is_Some (node_at (remove n p) q).
Proof.
  revert n q. induction p as [|a p IH]; intros n q Hpre Hq.
  - destruct Hpre. apply prefix_nil.
  - destruct n as [d|es]; [by destruct p|].
    destruct q as [|b q]; [by destruct p|].
    destruct (decide (a = b)) as [->|Hne].
    + destruct p as [|a' p].
      * destruct Hpre. by apply prefix_cons, prefix_nil.
      * change (is_Some (alter (λ c, remove c (a' :: p)) b es !! b ≫= λ c, node_at c q)).
        simpl in Hq. rewrite lookup_alter_eq.
        destruct (es !! b) as [c|]; [|by apply is_Some_None in Hq]. simpl. apply IH; [|done].
        intros H. apply Hpre. by apply prefix_cons.
    + destruct p as [|a' p].
      * simpl in *. by rewrite lookup_delete_ne.
      * change (is_Some (alter (λ c, remove c (a' :: p)) a es !! b ≫= λ c, node_at c q)).
        simpl in Hq. by rewrite lookup_alter_ne.
Qed.

Lemma mkdirs_keeps n n' p q :
  mkdirs n p = Some n' → is_Some (node_at n q) → is_Some (node_at n' q).
Proof.
  revert n n' q. induction p as [|a p IH]; intros n n' q Hmk Hq.
  - destruct n; simpl in Hmk; by simplify_eq.
  - destruct n as [d|es]; [done|]. simpl in Hmk.
    destruct (mkdirs (default (Dir ∅) (es !! a)) p) as [c'|] eqn:Hc; simplify_eq/=.
    destruct q as [|b q]; [done|]. simpl in *.
    destruct (decide (a = b)) as [->|Hne].
    + rewrite lookup_insert_eq. simpl.
      destruct (es !! b) as [c|]; [|by apply is_Some_None in Hq]. by eapply IH.
    + by rewrite lookup_insert_ne.
Qed.

Lemma write_keeps n n' p d q :
  write n p d = inr n' → is_Some (node_at n q) → is_Some (node_at n' q).
Proof.
  revert n n' q. induction p as [|a p IH]; intros n n' q Hw Hq.
  - by destruct n.
  - destruct n as [?|es]; [done|].
    destruct q as [|b q].
    { destruct p; simpl in Hw; repeat case_match; by simplify_eq. }
    destruct p as [|a' p].
    + simpl in Hw, Hq. destruct (decide (a = b)) as [->|Hne].
      * destruct (es !! b) as [[x|es']|] eqn:Hb; simpl in Hw, Hq; simplify_eq.
        -- simpl. rewrite lookup_insert_eq. simpl. by destruct q.
        -- by apply is_Some_None in Hq.
      * assert (n' = Dir (<[a := File d]> es)) as ->
          by (by destruct (es !! a) as [[]|]; simplify_eq).
        simpl. by rewrite lookup_insert_ne.
    + simpl in Hw. destruct (es !! a) as [c|] eqn:Ha; [|done].
      destruct c as [|es']; [done|].
      change (match write (Dir es') (a' :: p) d with
              | inr c' => inr (Dir (<[a := c']> es))
              | inl e => inl e end = inr n') in Hw.
      destruct (write (Dir es') (a' :: p) d) as [|c'] eqn:Hw'; simplify_eq.
      simpl in Hq. simpl. destruct (decide (a = b)) as [->|Hne].
      * rewrite lookup_insert_eq. rewrite Ha in Hq. cbn [mbind option_bind] in *. by eapply IH.
      * by rewrite lookup_insert_ne.
Qed.
End Frame.

Section FSMore.
Implicit Types (n c : node) (p q dir : Path) (d : data) (es : gmap string node).

Lemma mkdirs_creates n n' p :
  mkdirs n p = Some n' → node_at n p = None → node_at n' p = Some (Dir ∅).
Proof.
  revert n n'. induction p as [|a p IH]; intros n n' Hmk Hn; [done|].
  destruct n as [?|es]; [done|]. simpl in Hmk, Hn.
  destruct (mkdirs (default (Dir ∅) (es !! a)) p) as [c'|] eqn:Hc; simplify_eq/=.
  rewrite lookup_insert_eq. simpl.
  destruct (es !! a) as [c|] eqn:Ha; simpl in *.
  - by eapply IH.
  - destruct p as [|b p]; [by simplify_eq/=|].
    eapply IH; [done|]. by apply node_at_empty_dir.
Qed.

Lemma write_in_dir n dir es a d :
  node_at n dir = Some (Dir es) →
  (∀ es', es !! a ≠ Some (Dir es')) →
  ∃ n', write n (dir // a) d = inr n' ∧
        node_at n' dir = Some (Dir (<[a := File d]> es)).
Proof.
  unfold child. revert n. induction dir as [|b dir IH]; intros n Hn Ha.
  - simpl in Hn. simplify_eq. simpl.
    destruct (es !! a) as [[|es']|] eqn:He; [| by destruct (Ha es') |]; eauto.
  - destruct n as [?|es0]; [done|]. simpl in Hn.
    destruct (es0 !! b) as [c|] eqn:Hb; [|done]. simpl in Hn.
    destruct (IH c Hn Ha) as (c' & Hw & Hc').
    exists (Dir (<[b := c']> es0)). split.
    + change ((b :: dir) ++ [a]) with (b :: (dir ++ [a])).
      assert (write (Dir es0) (b :: (dir ++ [a])) d =
              match es0 !! b with
              | Some c => match write c (dir ++ [a]) d with
                          | inr c' => inr (Dir (<[b := c']> es0))
                          | inl e => inl e end
              | None => inl "FileNotFoundError" end) as -> by (by destruct dir).
      by rewrite Hb, Hw.
    + simpl. by rewrite lookup_insert_eq.
Qed.

Lemma dir_entry n dir a :
  node_at n (dir // a) = (node_at n dir ≫= λ c, node_at c [a]).
Proof. apply node_at_app. Qed.

Lemma entry_absent n dir es a :
  node_at n dir = Some (Dir es) → node_at n (dir // a) = None → es !! a = None.
Proof.
  intros Hd Ha. rewrite dir_entry, Hd in Ha. simpl in Ha.
  by destruct (es !! a).
Qed.

Lemma entry_absent_2 n dir es a :
  node_at n dir = Some (Dir es) → es !! a = None → node_at n (dir // a) = None.
Proof. intros Hd Ha. rewrite dir_entry, Hd. simpl. by rewrite Ha. Qed.

Lemma mkdirs_after_remove n p :
  p ≠ [] → is_dir n p = true → is_Some (mkdirs (remove n p) p).
Proof.
  unfold is_dir. revert n. induction p as [|a p IH]; intros n Hp Hdir; [done|].
  destruct n as [?|es]; [by destruct p|].
  simpl in Hdir. destruct (es !! a) as [c|] eqn:Ha; [|done]. simpl in Hdir.
  destruct p as [|b p].
  - simpl. rewrite lookup_delete_eq. simpl. by eexists.
  - destruct (IH c ltac:(done) Hdir) as [c' Hc'].
    change (is_Some (c0 ← mkdirs (default (Dir ∅)
                       (alter (λ c, remove c (b :: p)) a es !! a)) (b :: p);
                     Some (Dir (<[a:=c0]> (alter (λ c, remove c (b :: p)) a es))))).
    rewrite lookup_alter_eq, Ha.
    change (default (Dir ∅) ((λ c, remove c (b :: p)) <$> Some c))
      with (remove c (b :: p)).
    rewrite Hc'. by eexists.
Qed.
End FSMore.

(** ** The effect monad *)

Section Monad.
Context {A B : Type}.
Implicit Types (m : M A) (k : A → M B) (w : world).

Lemma bind_done m k w a w1 : m w = (Done a, w1) → (m ≫= k) w = k a w1.
Proof. unfold mbind, M_bind. by intros ->. Qed.

Lemma bind_raised m k w e w1 : m w = (Raised e, w1) → (m ≫= k) w = (Raised e, w1).
Proof. unfold mbind, M_bind. by intros ->. Qed.

Lemma bind_inv m k w r w' :
  (m ≫= k) w = (r, w') →
  (∃ a w1, m w = (Done a, w1) ∧ k a w1 = (r, w')) ∨
  (∃ e, m w = (Raised e, w') ∧ r = Raised e).
Proof.
  unfold mbind, M_bind. destruct (m w) as [[a|e] w1]; intros H; [left | right].
  - by exists a, w1.
  - simplify_eq. by exists e.
Qed.
End Monad.

Lemma pure_inv {A} (m : M A) `{!Pure m} w r w' : m w = (r, w') → w' = w.
Proof. intros H. pose proof (pure_world (m:=m) w) as Hp. by rewrite H in Hp. Qed.

#[global] Instance pure_ret {A} (a : A) : Pure (mret a).
Proof. done. Qed.
#[global] Instance pure_raise {A} e : Pure (@raise A e).
Proof. done. Qed.
#[global] Instance pure_lift {A} (o : outcome A) : Pure (lift o).
Proof. done. Qed.
#[global] Instance pure_getattr ns name : Pure (getattr ns name).
Proof. intros w. unfold getattr. by destruct (ns !! name). Qed.
#[global] Instance pure_exists p : Pure (exists_ p).
Proof. done. Qed.
#[global] Instance pure_open_read p : Pure (open_read p).
Proof. intros w. unfold open_read. by destruct (node_at (fs w) p) as [[]|]. Qed.
#[global] Instance pure_construct r : Pure (construct r).
Proof. by destruct r. Qed.
#[global] Instance pure_bind {A B} (m : M A) (k : A → M B) :
  Pure m → (∀ a, Pure (k a)) → Pure (m ≫= k).
Proof.
  intros Hm Hk w. unfold mbind, M_bind.
  pose proof (Hm w) as H1. destruct (m w) as [[a|e] w1]; simpl in *; subst; [apply Hk | done].
Qed.
#[global] Instance pure_if {A} (b : bool) (m1 m2 : M A) :
  Pure m1 → Pure m2 → Pure (if b then m1 else m2).
Proof. by destruct b. Qed.
#[global] Instance pure_make_env_kwargs cfg : Pure (make_env_kwargs cfg).
Proof. unfold make_env_kwargs. apply _. Qed.
#[global] Instance pure_make_policy_kwargs cfg : Pure (make_policy_kwargs cfg).
Proof. unfold make_policy_kwargs. apply _. Qed.
#[global] Instance pure_make_model ext cfg : Pure (make_model ext cfg).
Proof. unfold make_model. apply _. Qed.
#[global] Instance pure_map_m {A B} (f : A → M B) l : (∀ a, Pure (f a)) → Pure (map_m f l).
Proof. intros Hf. induction l; simpl; apply _. Qed.
#[global] Instance pure_run_trials base cfg props T : Pure (run_trials base cfg props T).
Proof. unfold run_trials. apply _. Qed.

Lemma make_model_cfg ext cfg w m w' :
  make_model ext cfg w = (Done m, w') → model_cfg m = cfg.
Proof.
  unfold make_model. intros H.
  repeat (apply bind_inv in H as [(? & ? & _ & H)|(? & _ & ?)]; [|done]).
  by inversion H.
Qed.

Lemma child_inj p a b : p // a = p // b → a = b.
Proof. unfold child. intros H. by apply app_inv_head in H; simplify_eq. Qed.

Lemma child_ne_nil p a : p // a ≠ [].
Proof. unfold child. by destruct p. Qed.

Lemma path_exists_false n p : path_exists n p = false ↔ node_at n p = None.
Proof.
  unfold path_exists. rewrite bool_decide_eq_false, <- eq_None_not_Some. done.
Qed.

Lemma path_exists_true n p : path_exists n p = true ↔ is_Some (node_at n p).
Proof. unfold path_exists. by rewrite bool_decide_eq_true. Qed.

Lemma rmtree_inv p w r w' :
  rmtree p w = (r, w') →
  (r = Done () ∧ w' = after w (EvRmtree p) (remove (fs w) p)) ∨
  (w' = w ∧ ∃ e, r = Raised e).
Proof.
  unfold rmtree, effect, after. destruct (node_at (fs w) p) as [[]|]; intros; simplify_eq/=; eauto.
Qed.

Lemma SummaryWriter_inv p w r w' :
  SummaryWriter p w = (r, w') →
  (∃ n, mkdirs (fs w) p = Some n ∧ r = Done () ∧ w' = after w (EvMkdirs p) n) ∨
  (w' = w ∧ ∃ e, r = Raised e).
Proof.
  unfold SummaryWriter, effect, after. destruct (mkdirs (fs w) p) eqn:?; intros; simplify_eq/=; eauto.
Qed.

Lemma open_write_inv p d w r w' :
  open_write p d w = (r, w') →
  (∃ n, write (fs w) p d = inr n ∧ r = Done () ∧ w' = after w (EvWrite p d) n) ∨
  (w' = w ∧ ∃ e, r = Raised e).
Proof.
  unfold open_write, effect, after. destruct (write (fs w) p d) eqn:?; intros; simplify_eq/=; eauto.
Qed.

Lemma model_learn_inv ext m dir w r w' :
  model_learn ext m dir w = (r, w') →
  w' = after w (EvTrain (model_cfg m) dir (learn ext (model_cfg m) dir (fs w)).2)
               (learn ext (model_cfg m) dir (fs w)).1 ∧
  r = match (learn ext (model_cfg m) dir (fs w)).2 with
      | Some e => Raised e
      | None => Done ()
      end.
Proof.
  unfold model_learn, effect, after. destruct (learn ext (model_cfg m) dir (fs w)) as [n [e|]];
    intros; by simplify_eq/=.
Qed.

(** One step of a sequence whose first command leaves the world as it is. *)
Ltac pure_step H :=
  let Hm := fresh "Hm" in
  apply bind_inv in H as [(? & ? & Hm & H)|(? & Hm & ->)];
  (apply pure_inv in Hm; [|apply _..]); subst.


Lemma marker_absent_mkdirs n n' dir :
  mkdirs n dir = Some n' → node_at n (dir // "completed") = None →
  node_at n' (dir // "completed") = None.
Proof. intros. by eapply node_at_mkdirs_absent. Qed.

Lemma marker_absent_write n n' dir a d :
  write n (dir // a) d = inr n' → a ≠ "completed" →
  node_at n (dir // "completed") = None → node_at n' (dir // "completed") = None.
Proof.
  intros Hw Ha Hn. unfold child in *.
  by rewrite (write_snoc_inv _ _ _ _ _ Hw "completed" []).
Qed.

Lemma marker_absent_rmtree n dir a : node_at (remove n (dir // a)) (dir // a // "completed") = None.
Proof. apply node_at_remove_below, child_ne_nil. Qed.

Section TreeOnly.
Context (ext : External).

#[global] Instance tree_only_ret {A} (a : A) : TreeOnly (mret a).
Proof. by intros w1 w2 H. Qed.
#[global] Instance tree_only_raise {A} e : TreeOnly (@raise A e).
Proof. by intros w1 w2 H. Qed.
#[global] Instance tree_only_getattr ns name : TreeOnly (getattr ns name).
Proof. intros w1 w2 H. unfold getattr. by destruct (ns !! name). Qed.
#[global] Instance tree_only_lift {A} (o : outcome A) : TreeOnly (lift o).
Proof. by intros w1 w2 H. Qed.
#[global] Instance tree_only_exists p : TreeOnly (exists_ p).
Proof. intros w1 w2 H. unfold exists_. simpl. by rewrite H. Qed.
#[global] Instance tree_only_construct r : TreeOnly (construct r).
Proof. destruct r; apply _. Qed.
#[global] Instance tree_only_rmtree p : TreeOnly (rmtree p).
Proof.
  intros w1 w2 H. unfold rmtree, effect, after. rewrite H.
  by destruct (node_at (fs w2) p) as [[]|].
Qed.
#[global] Instance tree_only_SummaryWriter p : TreeOnly (SummaryWriter p).
Proof.
  intros w1 w2 H. unfold SummaryWriter, effect, after. rewrite H.
  by destruct (mkdirs (fs w2) p).
Qed.
#[global] Instance tree_only_open_write p d : TreeOnly (open_write p d).
Proof.
  intros w1 w2 H. unfold open_write, effect, after. rewrite H.
  by destruct (write (fs w2) p d).
Qed.
#[global] Instance tree_only_model_learn m dir : TreeOnly (model_learn ext m dir).
Proof.
  intros w1 w2 H. unfold model_learn, effect, after. rewrite H.
  by destruct (learn ext (model_cfg m) dir (fs w2)) as [? []].
Qed.
#[global] Instance tree_only_bind {A B} (m : M A) (k : A → M B) :
  TreeOnly m → (∀ a, TreeOnly (k a)) → TreeOnly (m ≫= k).
Proof.
  intros Hm Hk w1 w2 H. unfold mbind, M_bind.
  destruct (Hm w1 w2 H) as [Hr Hfs].
  destruct (m w1) as [[a1|e1] w1'], (m w2) as [[a2|e2] w2']; simplify_eq/=; [|done].
  by apply Hk.
Qed.
#[global] Instance tree_only_if {A} (b : bool) (m1 m2 : M A) :
  TreeOnly m1 → TreeOnly m2 → TreeOnly (if b then m1 else m2).
Proof. by destruct b. Qed.
#[global] Instance tree_only_make_env_kwargs cfg : TreeOnly (make_env_kwargs cfg).
Proof. unfold make_env_kwargs. apply _. Qed.
#[global] Instance tree_only_make_policy_kwargs cfg : TreeOnly (make_policy_kwargs cfg).
Proof. unfold make_policy_kwargs. apply _. Qed.
#[global] Instance tree_only_make_model cfg : TreeOnly (make_model ext cfg).
Proof. unfold make_model. apply _. Qed.
#[global] Instance tree_only_do_run base cfg idx : TreeOnly (do_run ext base cfg idx).
Proof. unfold do_run. apply _. Qed.

End TreeOnly.

Section Keeps.
Context (ext : External) (q : Path).

#[global] Instance keeps_pure {A} (m : M A) : Pure m → Keeps q m | 10.
Proof. intros Hm w Hq. by rewrite (Hm w). Qed.
#[global] Instance keeps_bind {A B} (m : M A) (k : A → M B) :
  Keeps q m → (∀ a, Keeps q (k a)) → Keeps q (m ≫= k) | 5.
Proof.
  intros Hm Hk w Hq. unfold mbind, M_bind. specialize (Hm w Hq).
  destruct (m w) as [[a|e] w1]; [by apply Hk | done].
Qed.
#[global] Instance keeps_if {A} (b : bool) (m1 m2 : M A) :
  Keeps q m1 → Keeps q m2 → Keeps q (if b then m1 else m2) | 5.
Proof. by destruct b. Qed.
#[global] Instance keeps_SummaryWriter p : Keeps q (SummaryWriter p).
Proof.
  intros w Hq. unfold SummaryWriter, effect, after.
  destruct (mkdirs (fs w) p) eqn:Hmk; [|done]. by eapply mkdirs_keeps.
Qed.
#[global] Instance keeps_open_write p d : Keeps q (open_write p d).
Proof.
  intros w Hq. unfold open_write, effect, after.
  destruct (write (fs w) p d) eqn:Hw; [done|]. by eapply write_keeps.
Qed.

Lemma keeps_rmtree p : ¬ p `prefix_of` q → Keeps q (rmtree p).
Proof.
  intros Hp w Hq. unfold rmtree, effect, after.
  destruct (node_at (fs w) p) as [[]|]; [done| |done]. by apply remove_keeps.
Qed.

Lemma keeps_model_learn m dir : learn_keeps ext q → Keeps q (model_learn ext m dir).
Proof.
  intros Hl w Hq. unfold model_learn, effect, after.
  specialize (Hl (model_cfg m) dir (fs w) Hq).
  by destruct (learn ext (model_cfg m) dir (fs w)) as [n [e|]].
Qed.

Lemma keeps_do_run base cfg idx :
  learn_keeps ext q → ¬ log_dir base idx `prefix_of` q →
  Keeps q (do_run ext base cfg idx).
Proof.
  intros Hl Hp. unfold do_run. fold (log_dir base idx).
  pose proof (keeps_rmtree _ Hp). pose proof (keeps_model_learn) as Hm.
  repeat first [ apply keeps_bind; [|intros ?] | apply keeps_if | by apply Hm | apply _ ].
Qed.
End Keeps.

Section StatusOnly.
Context (ext : External).

#[global] Instance tree_only_open_read p : TreeOnly (open_read p).
Proof. intros w1 w2 H. unfold open_read. rewrite H. by destruct (node_at (fs w2) p) as [[]|]. Qed.
#[global] Instance tree_only_pkl_load d : TreeOnly (pkl_load ext d).
Proof. destruct d; apply _. Qed.
#[global] Instance tree_only_emit e : TreeOnly (emit e).
Proof. intros w1 w2 H. unfold emit, effect, after. simpl. by rewrite H. Qed.

#[global] Instance status_only_tree_only {A} (m : M A) : TreeOnly m → StatusOnly m | 10.
Proof. intros Hm w1 w2 H. destruct (Hm w1 w2 H) as [-> ->]. done. Qed.
#[global] Instance status_only_bind {A B} (m : M A) (k : A → M B) :
  TreeOnly m → (∀ a, StatusOnly (k a)) → StatusOnly (m ≫= k) | 5.
Proof.
  intros Hm Hk w1 w2 H. unfold mbind, M_bind.
  destruct (Hm w1 w2 H) as [Hr Hfs].
  destruct (m w1) as [[a1|e1] w1'], (m w2) as [[a2|e2] w2']; simplify_eq/=; [|done].
  by apply Hk.
Qed.
#[global] Instance status_only_draw {B} (f : string → B) :
  StatusOnly (draw_uuid ext ≫= λ s, mret (f s)) | 1.
Proof. by intros w1 w2 H. Qed.
#[global] Instance status_only_collect_metrics p out d :
  StatusOnly (collect_metrics ext p out d).
Proof. unfold collect_metrics. apply _. Qed.
End StatusOnly.

(** ** [do_run] *)

Section DoRun.
Context (ext : External).

Ltac paths_differ :=
  repeat match goal with
         | H : _ // _ = _ // _ |- _ => apply child_inj in H; simplify_eq
         end.

Ltac by_index i :=
  repeat (destruct i as [|i]; simplify_eq/=; paths_differ).

Ltac leaf :=
  eexists; split;
  [ unfold after; cbn [history fs]; rewrite <- ?app_assoc; cbn [app];
    first [ reflexivity | symmetry; apply app_nil_r ]
  | split_and!;
    [ let i := fresh "i" in
      intros i ???; intros; by_index i;
      (split_and!; [done..|];
       first [ exists 1%nat, 2%nat; by split; [lia|]
             | exists 2%nat, 3%nat; by split; [lia|] ])
    | let i := fresh "i" in
      intros i ?; intros; by_index i;
      (split_and!; [done..|];
       first [ exists 3%nat; by split; [lia|] | exists 4%nat; by split; [lia|] ])
    | simpl; split; intros; simplify_eq/=; paths_differ; done
    | let Hin := fresh "Hin" in
      intros ?? Hin ?; simpl in Hin;
      repeat (apply elem_of_cons in Hin as [?|Hin]; simplify_eq/=; try done);
      by apply elem_of_nil in Hin
    | intros; simplify_eq/=; try done; by eapply node_at_write
    | intros; simplify_eq/=; done ] ].

(** The part of [do_run] after the stale directory is cleared. *)
Ltac fresh_part Hrun Hw :=
  let dirname := constr:("completed") in
  apply bind_inv in Hrun as [(? & ? & Hm & Hrun)|(? & Hm & ->)];
  apply SummaryWriter_inv in Hm as [(? & Hmk & ? & ->)|(-> & ? & ?)];
    simplify_eq; [|leaf];
  pose proof (marker_absent_mkdirs _ _ _ Hmk Hw);
  apply bind_inv in Hrun as [(? & ? & Hm & Hrun)|(? & Hm & ->)];
  apply open_write_inv in Hm as [(? & Htxt & ? & ->)|(-> & ? & ?)];
    simplify_eq; [|leaf];
  pose proof (marker_absent_write _ _ _ _ _ Htxt ltac:(done) ltac:(done));
  apply bind_inv in Hrun as [(? & ? & Hm & Hrun)|(? & Hm & ->)];
  apply open_write_inv in Hm as [(? & Hpkl & ? & ->)|(-> & ? & ?)];
    simplify_eq; [|leaf];
  pose proof (marker_absent_write _ _ _ _ _ Hpkl ltac:(done) ltac:(done));
  do 6 (pure_step Hrun; [|leaf]);
  apply bind_inv in Hrun as [(? & ? & Hm & Hrun)|(? & Hm & ->)];
  [ pose proof (make_model_cfg _ _ _ _ _ Hm) | ];
  (apply pure_inv in Hm; [|apply _..]); subst; [|leaf];
  pure_step Hrun; [|leaf];
  apply bind_inv in Hrun as [(? & ? & Hm & Hrun)|(? & Hm & ->)];
  apply model_learn_inv in Hm as [-> Hr];
  unfold after in *; cbn [fs] in *;
  match goal with
  | Hext : never_marks _, Hp : node_at ?n (?d // "completed") = None,
    Hl : context [learn ?e ?c ?d ?n] |- _ =>
      pose proof (Hext c d n Hp);
      destruct (learn e c d n) as [? [?|]]
  end; simplify_eq/=; [|leaf];
  apply open_write_inv in Hrun as [(? & Hdone & -> & ->)|(-> & ? & ->)]; leaf.

(** Claim C1.  For a job that is not skipped (no marker in its directory),
    given a trainer that does not itself create the marker: in the log of side
    effects of [do_run], any training comes after the writes of [config.txt]
    and [config.pkl] into the job directory; the marker is written empty, as
    the last event, after a training that returned, and exactly when [do_run]
    returns; the marker is absent from the tree left by every earlier side
    effect, and from the final tree whenever [do_run] raised. *)
Theorem do_run_effects_in_order base cfg idx w r w' :
  never_marks ext →
  path_exists (fs w) (marker base idx) = false →
  do_run ext base cfg idx w = (r, w') →
  ∃ evs, history w' = history w ++ evs ∧
    config_before_training (log_dir base idx) cfg evs.*1 ∧
    marker_after_training (log_dir base idx) cfg evs.*1 ∧
    (r = Done () ↔ last evs.*1 = Some (EvWrite (marker base idx) (Text ""))) ∧
    (∀ e n, (e, n) ∈ evs → e ≠ EvWrite (marker base idx) (Text "") →
            node_at n (marker base idx) = None) ∧
    (r = Done () → node_at (fs w') (marker base idx) = Some (File (Text ""))) ∧
    (r ≠ Done () → node_at (fs w') (marker base idx) = None).
Proof.
  intros Hext Hfresh Hrun. unfold do_run in Hrun.
  fold (log_dir base idx) in Hrun. unfold marker in *.
  set (dir := log_dir base idx) in *.
  assert (exists_ (dir // "completed") w = (Done false, w)) as H0
    by (unfold exists_; by rewrite Hfresh).
  rewrite (bind_done _ _ _ _ _ H0) in Hrun. clear H0.
  apply path_exists_false in Hfresh.
  pure_step Hrun; [|leaf].
  apply bind_inv in Hrun as [(? & ? & Hm & Hrun)|(? & Hm & ->)].
  - match type of Hm with (if ?b then _ else _) _ = _ => destruct b end.
    + apply rmtree_inv in Hm as [[_ ->]|[-> [? ?]]]; [|done].
      pose proof (marker_absent_rmtree (fs w) base ("run-" +:+ pretty idx)) as Hrm.
      fold (log_dir base idx) in Hrm. fold dir in Hrm.
      fresh_part Hrun Hrm.
    + unfold mret, M_ret in Hm. simplify_eq/=. fresh_part Hrun Hfresh.
  - match type of Hm with (if ?b then _ else _) _ = _ => destruct b end; [|done].
    apply rmtree_inv in Hm as [[? _]|[-> _]]; [done|]. leaf.
Qed.
End DoRun.

Section Resume.
Context (ext : External).

Lemma exists_absent p w : node_at (fs w) p = None → exists_ p w = (Done false, w).
Proof. intros H. unfold exists_. by rewrite (proj2 (path_exists_false _ _) H). Qed.

Lemma exists_present p w : is_Some (node_at (fs w) p) → exists_ p w = (Done true, w).
Proof. intros H. unfold exists_. by rewrite (proj2 (path_exists_true _ _) H). Qed.

Lemma do_run_skip base cfg idx w :
  path_exists (fs w) (marker base idx) = true →
  do_run ext base cfg idx w = (Done (), w).
Proof.
  intros H. unfold do_run. fold (log_dir base idx). fold (marker base idx).
  by rewrite (bind_done _ _ w true w) by (unfold exists_; by rewrite H).
Qed.

Lemma node_at_below_absent n p q : node_at n p = None → node_at n (p ++ q) = None.
Proof. intros H. by rewrite node_at_app, H. Qed.


Lemma for_each_skip (jobs : list job) w :
  Forall (λ j, path_exists (fs w) (job_marker j) = true) jobs →
  for_each (call ext) jobs w = (Done (), w).
Proof.
  induction 1 as [|j jobs Hj _ IH]; [done|]. simpl.
  rewrite (bind_done _ _ w () w); [done|]. by apply do_run_skip.
Qed.

Lemma map_m_skip (jobs : list job) w :
  Forall (λ j, path_exists (fs w) (job_marker j) = true) jobs →
  map_m id (call ext <$> jobs) w = (Done (replicate (length jobs) ()), w).
Proof.
  induction 1 as [|j jobs Hj _ IH]; [done|]. simpl.
  rewrite (bind_done _ _ w () w) by (by apply do_run_skip).
  by rewrite (bind_done _ _ w _ w IH).
Qed.

(** Over jobs that all carry their marker the executor does nothing. *)
Lemma execute_completed (jobs : list job) n_jobs w :
  Forall (λ j, path_exists (fs w) (job_marker j) = true) jobs →
  Forall (λ j, call ext j w = (Done (), w)) jobs ∧
  (execute ext jobs n_jobs w).2 = w ∧
  (n_jobs ≠ 0%Z ∨ length jobs = 1%nat → execute ext jobs n_jobs w = (Done (), w)).
Proof.
  intros Hjobs. split_and!.
  - eapply Forall_impl; [done|]. intros [[base cfg] idx] H. by apply do_run_skip.
  - unfold execute.
    destruct (bool_decide (length jobs = 1%nat) || bool_decide (n_jobs = 1%Z)).
    + by rewrite for_each_skip.
    + unfold Parallel. case_bool_decide; [done|].
      by rewrite (bind_done _ _ w _ w (map_m_skip _ _ Hjobs)).
  - intros Hn. unfold execute.
    destruct (bool_decide (length jobs = 1%nat) || bool_decide (n_jobs = 1%Z)) eqn:Hb.
    + by rewrite for_each_skip.
    + apply orb_false_iff in Hb as [H1%bool_decide_eq_false H2%bool_decide_eq_false].
      destruct Hn as [Hn|Hn]; [|done].
      unfold Parallel. rewrite bool_decide_eq_false_2 by done.
      by rewrite (bind_done _ _ w _ w (map_m_skip _ _ Hjobs)).
Qed.

End Resume.

Section TwoRuns.
Context (ext : External).

Lemma do_run_done_marker base cfg idx w w' :
  do_run ext base cfg idx w = (Done (), w') →
  is_Some (node_at (fs w') (marker base idx)).
Proof.
  intros Hrun. destruct (path_exists (fs w) (marker base idx)) eqn:Hm.
  - rewrite do_run_skip in Hrun by done. simplify_eq. by apply path_exists_true.
  - unfold do_run in Hrun. fold (log_dir base idx) in Hrun. fold (marker base idx) in Hrun.
    rewrite (bind_done _ _ w false w) in Hrun by (unfold exists_; by rewrite Hm).
    repeat (apply bind_inv in Hrun as [(? & ? & _ & Hrun)|(? & _ & ?)]; [|done]).
    apply open_write_inv in Hrun as [(n & Hw & _ & ->)|(_ & ? & ?)]; [|done].
    unfold after. cbn [fs]. by rewrite (node_at_write _ _ _ _ Hw).
Qed.

Lemma prefix_snoc_inv {A} (l1 l2 : list A) x :
  l1 `prefix_of` l2 ++ [x] → l1 = l2 ++ [x] ∨ l1 `prefix_of` l2.
Proof.
  intros [k Hk]. destruct k as [|y k _] using rev_ind.
  - left. by rewrite app_nil_r in Hk.
  - right. rewrite app_assoc in Hk. apply app_inj_tail in Hk as [-> _]. by exists k.
Qed.

Lemma log_dir_not_marker base idx base' idx' : log_dir base idx ≠ marker base' idx'.
Proof.
  unfold marker, log_dir, child. intros [_ H]%app_inj_tail. discriminate.
Qed.

Lemma call_keeps_marker (j k : job) w :
  learn_keeps ext (job_marker j) →
  (log_dir k.1.1 k.2 `prefix_of` log_dir j.1.1 j.2 → log_dir k.1.1 k.2 = log_dir j.1.1 j.2) →
  is_Some (node_at (fs w) (job_marker j)) →
  is_Some (node_at (fs (call ext k w).2) (job_marker j)).
Proof.
  destruct j as [[bj cj] ij], k as [[bk ck] ik]. unfold call, job_marker. cbn [fst snd].
  intros Hl Hind Hj.
  destruct (decide (log_dir bk ik = log_dir bj ij)) as [Heq|Hne].
  - rewrite do_run_skip; [done|]. apply path_exists_true. unfold marker. by rewrite Heq.
  - apply keeps_do_run; [done| |done].
    unfold marker at 1. unfold child at 1.
    intros [H|H]%prefix_snoc_inv; [|by apply Hne, Hind].
    by apply (log_dir_not_marker bk ik bj ij).
Qed.

Lemma for_each_marks (jobs finished : list job) w w1 :
  for_each (call ext) jobs w = (Done (), w1) →
  (∀ j, j ∈ finished ++ jobs → learn_keeps ext (job_marker j)) →
  independent (finished ++ jobs) →
  (∀ j, j ∈ finished → is_Some (node_at (fs w) (job_marker j))) →
  ∀ j, j ∈ finished ++ jobs → is_Some (node_at (fs w1) (job_marker j)).
Proof.
  revert finished w. induction jobs as [|k jobs IH]; intros finished w Hrun Hl Hind Hdone j Hj.
  - simpl in Hrun. unfold mret, M_ret in Hrun. simplify_eq. rewrite app_nil_r in Hj. auto.
  - simpl in Hrun.
    apply bind_inv in Hrun as [([] & w2 & Hk & Hrun)|(? & _ & ?)]; [|done].
    rewrite (assoc_L _ finished [k] jobs : finished ++ k :: jobs = (finished ++ [k]) ++ jobs) in *.
    eapply (IH (finished ++ [k]) w2); [done..| |done].
    intros j' [Hj'|Hj']%elem_of_app.
    + replace w2 with (call ext k w).2 by (by rewrite Hk).
      apply call_keeps_marker; [| |by auto].
      * apply Hl. apply elem_of_app. left. apply elem_of_app. by left.
      * apply Hind; rewrite !elem_of_app, ?list_elem_of_singleton; auto.
    + apply list_elem_of_singleton in Hj' as ->.
      destruct k as [[bk ck] ik]. by eapply do_run_done_marker.
Qed.

Lemma map_m_call (jobs : list job) w :
  (map_m id (call ext <$> jobs) w).2 = (for_each (call ext) jobs w).2 ∧
  status (map_m id (call ext <$> jobs) w).1 = status (for_each (call ext) jobs w).1.
Proof.
  revert w. induction jobs as [|k jobs IH]; intros w; [done|].
  cbn [fmap list_fmap map_m for_each].
  destruct (call ext k w) as [[[]|e] w2] eqn:Hk.
  - rewrite (bind_done (id (call ext k)) _ w () w2 Hk), (bind_done (call ext k) _ w () w2 Hk).
    destruct (IH w2) as [H1 H2].
    destruct (map_m id (call ext <$> jobs) w2) as [[l|e] w3] eqn:Hmap.
    + by rewrite (bind_done _ _ w2 l w3 Hmap).
    + by rewrite (bind_raised _ _ _ _ _ Hmap).
  - by rewrite (bind_raised (id (call ext k)) _ w e w2 Hk),
               (bind_raised (call ext k) _ w e w2 Hk).
Qed.

(** After a run of the executor that returned, every job carries its marker,
    and a second run does nothing. *)
Lemma second_run_is_idle (jobs : list job) n_jobs w w1 :
  independent jobs →
  (∀ j, j ∈ jobs → learn_keeps ext (job_marker j)) →
  execute ext jobs n_jobs w = (Done (), w1) →
  Forall (λ j, path_exists (fs w1) (job_marker j) = true) jobs ∧
  execute ext jobs n_jobs w1 = (Done (), w1).
Proof.
  intros Hind Hl Hrun.
  assert (Hseq : ∃ r, for_each (call ext) jobs w = (Done r, w1) ∧
                      (bool_decide (length jobs = 1%nat) || bool_decide (n_jobs = 1%Z) = false →
                       n_jobs ≠ 0%Z)).
  { unfold execute in Hrun.
    destruct (bool_decide (length jobs = 1%nat) || bool_decide (n_jobs = 1%Z)).
    - exists (). by split.
    - unfold Parallel in Hrun. case_bool_decide as Hn; [done|].
      destruct (map_m_call jobs w) as [H1 H2].
      apply bind_inv in Hrun as [(l & w2 & Hmap & Hrun)|(? & _ & ?)]; [|done].
      unfold mret, M_ret in Hrun. simplify_eq. rewrite Hmap in H1, H2. simpl in *.
      destruct (for_each (call ext) jobs w) as [[[]|e] w3]; simplify_eq/=.
      exists (). by split. }
  destruct Hseq as ([] & Hseq & Hn).
  assert (Hmarks : Forall (λ j, path_exists (fs w1) (job_marker j) = true) jobs).
  { apply Forall_forall. intros j Hj. apply path_exists_true.
    by eapply (for_each_marks jobs [] w w1); [| | |intros ? ?%elem_of_nil|]. }
  split; [done|]. unfold execute.
  destruct (bool_decide (length jobs = 1%nat) || bool_decide (n_jobs = 1%Z)) eqn:Hb.
  - by apply for_each_skip.
  - unfold Parallel. rewrite bool_decide_eq_false_2 by auto.
    by rewrite (bind_done _ _ w1 _ w1 (map_m_skip _ _ _ Hmarks)).
Qed.
(** Claim C2, amended.  A job whose directory holds the [completed] marker
    is skipped: [do_run] returns at once and leaves the world (tree, log of
    side effects) as it is.  So an executor run over jobs that all carry their marker leaves
    the world as it is -- no training, no write, no deletion -- and, whenever
    a first run of the executor over jobs returned without a failure (the job
    directories not lying inside one another, the trainer not deleting
    markers), a second run over the same jobs does nothing. *)
Theorem completed_jobs_are_skipped (jobs : list job) n_jobs w :
  (Forall (λ j, path_exists (fs w) (job_marker j) = true) jobs →
     Forall (λ j, call ext j w = (Done (), w)) jobs ∧
     (execute ext jobs n_jobs w).2 = w ∧
     (n_jobs ≠ 0%Z ∨ length jobs = 1%nat →
      execute ext jobs n_jobs w = (Done (), w))) ∧
  (independent jobs →
   (∀ j, j ∈ jobs → learn_keeps ext (job_marker j)) →
   ∀ w0, execute ext jobs n_jobs w0 = (Done (), w) →
     Forall (λ j, path_exists (fs w) (job_marker j) = true) jobs ∧
     execute ext jobs n_jobs w = (Done (), w)).
Proof.
  split.
  - apply execute_completed.
  - intros Hind Hkeeps w0 Hrun. by eapply second_run_is_idle.
Qed.
End TwoRuns.

(** ** [expand_paths] *)

Section Scanner.
Implicit Types (n c : node) (p q root : Path) (es : gmap string node).

Lemma node_size_child es name c :
  es !! name = Some c → node_size c < node_size (Dir es).
Proof.
  intros H. simpl.
  rewrite (map_fold_delete_L _ _ name c es); [lia| |done].
  intros. lia.
Qed.

Lemma node_ind' (P : node → Prop) :
  (∀ d, P (File d)) →
  (∀ es, (∀ name c, es !! name = Some c → P c) → P (Dir es)) →
  ∀ n, P n.
Proof.
  intros Hfile Hdir n.
  remember (node_size n) as k eqn:Hk. revert n Hk.
  induction k as [k IH] using lt_wf_ind. intros [d|es] ->; [done|].
  apply Hdir. intros name c Hc. eapply IH; [|done]. by eapply node_size_child.
Qed.

Lemma elem_of_map_fold_app {A} (g : string → node → list A) es x :
  x ∈ map_fold (λ name c acc, g name c ++ acc) [] es ↔
  ∃ name c, es !! name = Some c ∧ x ∈ g name c.
Proof.
  apply (map_fold_weak_ind (λ r m, x ∈ r ↔ ∃ name c, m !! name = Some c ∧ x ∈ g name c)).
  - rewrite elem_of_nil. split; [done|]. intros (? & ? & H & _). by rewrite lookup_empty in H.
  - intros i c m r Hi IH. rewrite elem_of_app, IH. split.
    + intros [H|(name & c' & Hc & H)].
      * exists i, c. by rewrite lookup_insert_eq.
      * exists name, c'. rewrite lookup_insert_ne; [done|]. by intros ->; simplify_eq.
    + intros (name & c' & Hc & H). destruct (decide (i = name)) as [->|Hne].
      * rewrite lookup_insert_eq in Hc. simplify_eq. by left.
      * rewrite lookup_insert_ne in Hc by done. right. eauto.
Qed.

Lemma size_pair_inter (a b : string) (names : gset string) :
  a ≠ b →
  size (({[a; b]} : gset string) ∩ names) = 2%nat ↔ a ∈ names ∧ b ∈ names.
Proof.
  intros Hab.
  assert (Hsz : size ({[a; b]} : gset string) = 2%nat).
  { rewrite size_union by set_solver. by rewrite !size_singleton. }
  split.
  - intros H.
    assert (({[a; b]} : gset string) ∩ names = {[a; b]}) as Heq.
    { apply set_subseteq_size_eq; [set_solver|]. rewrite H, Hsz. done. }
    set_solver.
  - intros [H1 H2].
    replace (({[a; b]} : gset string) ∩ names)
      with ({[a; b]} : gset string) by set_solver.
    done.
Qed.

Lemma both_files_present (names : gset string) :
  size (({["best.pt"; "config.pkl"]} : gset string) ∩ names) = 2%nat ↔
  "best.pt" ∈ names ∧ "config.pkl" ∈ names.
Proof. apply size_pair_inter. discriminate. Qed.

(** The paths [expand_node] returns are those of the artifacts below. *)
Lemma expand_node_spec n root p :
  p ∈ expand_node root n ↔
  ∃ q c, p = root ++ q ∧ node_at n q = Some c ∧ is_artifact c.
Proof.
  revert root p. induction n as [d|es IH] using node_ind'; intros root p.
  - simpl. rewrite elem_of_nil. split; [done|].
    intros (q & c & -> & Hq & (es & -> & _)). by destruct q.
  - simpl. rewrite elem_of_app, elem_of_map_fold_app. split.
    + intros [H|(name & c & Hc & H)].
      * case_bool_decide as Hb; [|by apply elem_of_nil in H].
        apply list_elem_of_singleton in H as ->.
        apply both_files_present in Hb as [H1 H2].
        exists [], (Dir es). rewrite app_nil_r. split_and!; [done..|].
        exists es. by rewrite <- !elem_of_dom.
      * apply (IH _ _ Hc) in H as (q & c' & -> & Hq & Hart).
        exists (name :: q), c'. unfold child. rewrite <- app_assoc. simpl.
        by rewrite Hc.
    + intros (q & c & -> & Hq & Hart). destruct q as [|name q].
      * left. simpl in Hq. simplify_eq. destruct Hart as (es' & ? & H1 & H2); simplify_eq.
        rewrite bool_decide_eq_true_2; [rewrite app_nil_r; by apply list_elem_of_singleton|].
        apply both_files_present. by rewrite !elem_of_dom.
      * right. simpl in Hq. destruct (es !! name) as [c'|] eqn:Hc; [|done].
        exists name, c'. split; [done|]. apply (IH _ _ Hc).
        exists q, c. unfold child. rewrite <- app_assoc. done.
Qed.

Lemma expand_node_below n root p : p ∈ expand_node root n → ∃ q, p = root ++ q.
Proof. intros (q & _ & -> & _)%expand_node_spec. eauto. Qed.

Lemma NoDup_children root es :
  (∀ name c, es !! name = Some c → NoDup (expand_node (root // name) c)) →
  NoDup (map_fold (λ name c acc, expand_node (root // name) c ++ acc) [] es).
Proof.
  intros Hes.
  cut (NoDup (map_fold (λ name c acc, expand_node (root // name) c ++ acc) [] es) ∧
       ∀ x, x ∈ map_fold (λ name c acc, expand_node (root // name) c ++ acc) [] es →
            ∃ name q, is_Some (es !! name) ∧ x = root ++ name :: q); [by intros []|].
  revert Hes.
  apply (map_fold_weak_ind (λ r m,
    (∀ name c, m !! name = Some c → NoDup (expand_node (root // name) c)) →
    NoDup r ∧ ∀ x, x ∈ r → ∃ name q, is_Some (m !! name) ∧ x = root ++ name :: q)).
  - intros _. split; [constructor|]. by intros x ?%elem_of_nil.
  - intros i c m r Hi IH Hm.
    destruct IH as [IH1 IH2].
    { intros name c' Hc. apply Hm. rewrite lookup_insert_ne; [done|]. by intros ->; simplify_eq. }
    split.
    + apply NoDup_app. split_and!; [|  |done].
      * apply (Hm i c). by rewrite lookup_insert_eq.
      * intros x (q & ->)%expand_node_below (name & q' & [c' Hc] & Heq)%IH2.
        unfold child in Heq. rewrite <- app_assoc in Heq.
        apply app_inv_head in Heq. simplify_eq/=.
    + intros x [(q & ->)%expand_node_below|(name & q & [c' Hc] & ->)%IH2]%elem_of_app.
      * exists i, q. rewrite lookup_insert_eq. unfold child. by rewrite <- app_assoc.
      * exists name, q. rewrite lookup_insert_ne; [eauto|]. by intros ->; simplify_eq.
Qed.

Lemma NoDup_expand_node n root : NoDup (expand_node root n).
Proof.
  revert root. induction n as [d|es IH] using node_ind'; intros root; [constructor|].
  simpl. apply NoDup_app. split_and!.
  - case_bool_decide; [apply NoDup_singleton | constructor].
  - intros x Hx. case_bool_decide; [|by apply elem_of_nil in Hx].
    apply list_elem_of_singleton in Hx as ->.
    intros (name & c & Hc & (q & Hq)%expand_node_below)%elem_of_map_fold_app.
    unfold child in Hq. rewrite <- app_assoc in Hq.
    apply (f_equal length) in Hq. rewrite !length_app in Hq. simpl in Hq. lia.
  - apply NoDup_children. intros name c Hc. by eapply IH.
Qed.

(** Claim C4.  [expand_paths] returns, each once, exactly the paths at or
    below its root at which there is a directory with entries [best.pt] and
    [config.pkl] -- also below a directory that is itself returned -- and the
    empty list when the root is not a directory. *)
Theorem expand_paths_exact tree path_like :
  let root := of_string path_like in
  (∀ p, p ∈ expand_paths tree path_like ↔
        ∃ q es, p = root ++ q ∧ node_at tree p = Some (Dir es) ∧
                is_Some (es !! "best.pt") ∧ is_Some (es !! "config.pkl")) ∧
  NoDup (expand_paths tree path_like) ∧
  (is_dir tree root = false → expand_paths tree path_like = []).
Proof.
  intros root. unfold expand_paths. fold root. split_and!.
  - intros p. destruct (node_at tree root) as [n|] eqn:Hroot.
    + rewrite expand_node_spec. split.
      * intros (q & c & -> & Hq & es & -> & H1 & H2). exists q, es.
        by rewrite node_at_app, Hroot.
      * intros (q & es & -> & Hq & H1 & H2). exists q, (Dir es).
        rewrite node_at_app, Hroot in Hq. split_and!; [done..|]. by exists es.
    + rewrite elem_of_nil. split; [done|].
      intros (q & es & -> & Hq & _). by rewrite node_at_app, Hroot in Hq.
  - destruct (node_at tree root); [apply NoDup_expand_node | constructor].
  - unfold is_dir. by destruct (node_at tree root) as [[]|].
Qed.
End Scanner.

(** ** [patch_old_configs] *)

Section Patch.
Implicit Types (cfg : Namespace).

Lemma patch_old_configs_rules cfg :
  patch_old_configs cfg =
  backfill "discrete_action" "discrete_action" (VBool false) (
  backfill "n_proc_alg" "n_proc_alg" (VInt 1) (
  backfill "reward_structure" "reward_structure" (VStr "proximity") (
  backfill "bottleneck_temperature" "bottleneck_temperature" (VFloat "1.0") (
  backfill "bottleneck_temperature" "action_noise" (VFloat "0.0") (
  backfill "policy_activation" "policy_activation" (VStr "tanh") (
  backfill "obs_type" "obs_type" (VStr "vector") cfg)))))).
Proof. reflexivity. Qed.

Lemma hasattr_true cfg name : hasattr cfg name = true ↔ is_Some (cfg !! name).
Proof. unfold hasattr. by rewrite bool_decide_eq_true. Qed.

Lemma hasattr_false cfg name : hasattr cfg name = false ↔ cfg !! name = None.
Proof. unfold hasattr. by rewrite bool_decide_eq_false, <- eq_None_not_Some. Qed.

Lemma backfill_lookup_ne test field v cfg name :
  field ≠ name → backfill test field v cfg !! name = cfg !! name.
Proof. intros H. unfold backfill. destruct (hasattr cfg test); [done|]. by rewrite lookup_insert_ne. Qed.

Lemma backfill_lookup_same field v cfg :
  backfill field field v cfg !! field = Some (default v (cfg !! field)).
Proof.
  unfold backfill. destruct (hasattr cfg field) eqn:H.
  - apply hasattr_true in H as [x Hx]. by rewrite Hx.
  - apply hasattr_false in H. by rewrite lookup_insert_eq, H.
Qed.

Lemma backfill_keeps test field v cfg name x :
  cfg !! name = Some x → test = field ∨ field ≠ name →
  backfill test field v cfg !! name = Some x.
Proof.
  intros Hx Hor. unfold backfill. destruct (hasattr cfg test) eqn:H; [done|].
  apply hasattr_false in H. destruct (decide (field = name)) as [->|Hne].
  - destruct Hor as [->|?]; [|done]. congruence.
  - by rewrite lookup_insert_ne.
Qed.

Lemma patch_old_configs_other cfg name :
  name ∉ patched_fields → patch_old_configs cfg !! name = cfg !! name.
Proof.
  intros H. rewrite patch_old_configs_rules.
  rewrite !backfill_lookup_ne; [done|..]; intros <-; apply H; unfold patched_fields;
    repeat first [ apply list_elem_of_here | apply list_elem_of_further ].
Qed.
End Patch.

Section Backfill.

(** What [patch_old_configs] does to each of the seven fields: six are set to
    their default when missing; [action_noise] is set to [0.0] when
    [bottleneck_temperature] is missing, and left as it is otherwise. *)
Lemma patch_old_configs_backfills (cfg : Namespace) :
  patch_old_configs cfg !! "obs_type" = Some (default (VStr "vector") (cfg !! "obs_type")) ∧
  patch_old_configs cfg !! "policy_activation" = Some (default (VStr "tanh") (cfg !! "policy_activation")) ∧
  patch_old_configs cfg !! "bottleneck_temperature" = Some (default (VFloat "1.0") (cfg !! "bottleneck_temperature")) ∧
  patch_old_configs cfg !! "reward_structure" = Some (default (VStr "proximity") (cfg !! "reward_structure")) ∧
  patch_old_configs cfg !! "n_proc_alg" = Some (default (VInt 1) (cfg !! "n_proc_alg")) ∧
  patch_old_configs cfg !! "discrete_action" = Some (default (VBool false) (cfg !! "discrete_action")) ∧
  patch_old_configs cfg !! "action_noise" =
    (if hasattr cfg "bottleneck_temperature" then cfg !! "action_noise"
     else Some (VFloat "0.0")).
Proof.
  rewrite patch_old_configs_rules. split_and!.
  - rewrite !backfill_lookup_ne by discriminate. apply backfill_lookup_same.
  - rewrite !backfill_lookup_ne by discriminate. rewrite backfill_lookup_same.
    by rewrite backfill_lookup_ne by discriminate.
  - rewrite !backfill_lookup_ne by discriminate. rewrite backfill_lookup_same.
    by rewrite !backfill_lookup_ne by discriminate.
  - rewrite !backfill_lookup_ne by discriminate. rewrite backfill_lookup_same.
    by rewrite !backfill_lookup_ne by discriminate.
  - rewrite !backfill_lookup_ne by discriminate. rewrite backfill_lookup_same.
    by rewrite !backfill_lookup_ne by discriminate.
  - rewrite backfill_lookup_same. by rewrite !backfill_lookup_ne by discriminate.
  - rewrite !backfill_lookup_ne by discriminate.
    unfold backfill at 1.
    assert (hasattr (backfill "policy_activation" "policy_activation" (VStr "tanh")
              (backfill "obs_type" "obs_type" (VStr "vector") cfg)) "bottleneck_temperature"
            = hasattr cfg "bottleneck_temperature") as ->.
    { unfold hasattr. by rewrite !backfill_lookup_ne by discriminate. }
    destruct (hasattr cfg "bottleneck_temperature").
    + by rewrite !backfill_lookup_ne by discriminate.
    + by rewrite lookup_insert_eq.
Qed.
End Backfill.

(** ** [collect_metrics] and [aggregate_results] *)

Section Table.
Context (ext : External).


Lemma contents_discretize sid m d cfg :
  cfg !! "discretize" = None →
  contents sid m d cfg !! "discretize" = Some (VBool d).
Proof.
  intros H1. unfold contents.
  rewrite lookup_union_r by done.
  rewrite !lookup_insert_ne by discriminate.
  by rewrite lookup_insert_eq.
Qed.

Lemma contents_cfg sid m d cfg name v :
  cfg !! name = Some v → contents sid m d cfg !! name = Some v.
Proof. intros H. unfold contents. by apply lookup_union_Some_l. Qed.
End Table.

Section Aggregation.
Context (ext : External).

(** An extraction leaves the tree as it is; when it returns, it has invoked
    one evaluation and drawn one identifier. *)
Lemma collect_metrics_inv p out d w r w' :
  collect_metrics ext p out d w = (r, w') →
  fs w' = fs w ∧
  match r with
  | Done row =>
      extracted ext (fs w) p d (drawn w) row ∧
      history w' = history w ++ [(EvExtract p d, fs w)] ∧
      drawn w' = S (drawn w)
  | Raised e => True
  end.
Proof.
  unfold collect_metrics. intros Hrun.
  apply bind_inv in Hrun as [(data & ? & Hcfg & Hrun)|(? & Hm & ->)];
    [|(apply pure_inv in Hm; [|apply _..]); by subst].
  pose proof (pure_inv _ _ _ _ Hcfg); subst.
  apply bind_inv in Hrun as [(cfg & ? & Hpkl & Hrun)|(? & Hm & ->)];
    [|by destruct data; unfold pkl_load, mret, M_ret, raise in Hm; simplify_eq/=].
  destruct data; unfold pkl_load, mret, M_ret, raise in Hpkl; simplify_eq.
  do 3 (pure_step Hrun; [|done]).
  apply bind_inv in Hrun as [(state & ? & Hpt & Hrun)|(? & Hm & ->)];
    [|(apply pure_inv in Hm; [|apply _..]); by subst].
  pose proof (pure_inv _ _ _ _ Hpt); subst.
  apply bind_inv in Hrun as [([] & ? & Hem & Hrun)|(? & Hm & ->)]; [|done].
  unfold emit, effect in Hem. simplify_eq.
  apply bind_inv in Hrun as [(m & ? & Hev & Hrun)|(? & Hm & ->)];
    [|by unfold lift in Hm; simplify_eq].
  unfold lift in Hev. simplify_eq.
  unfold mbind, M_bind, draw_uuid, mret, M_ret in Hrun. simplify_eq/=.
  split_and!; [done| |done..].
  exists cfg, state, m. split_and!; [|  |done..].
  - unfold open_read in Hcfg.
    by destruct (node_at (fs _) (p // "config.pkl")) as [[]|]; simplify_eq.
  - unfold open_read in Hpt.
    by destruct (node_at (fs _) (p // "best.pt")) as [[]|]; simplify_eq.
Qed.

(** The tasks of [aggregate_results], one per pair. *)
Lemma tasks_pairs paths out :
  (d ← [true; false]; p ← paths; [collect_metrics ext p out d]) =
  (λ pd, collect_metrics ext pd.1 out pd.2) <$> pairs paths.
Proof.
  unfold pairs. simpl. rewrite !app_nil_r, fmap_app.
  f_equal; induction paths; simpl; by f_equal.
Qed.



Lemma map_m_collect_tree out (l : list (Path * bool)) w r w' :
  map_m id ((λ pd, collect_metrics ext pd.1 out pd.2) <$> l) w = (r, w') →
  fs w' = fs w.
Proof.
  revert w r w'. induction l as [|[p d] l IH]; intros w r w' Hrun.
  - cbn [fmap list_fmap map_m] in Hrun. unfold mret, M_ret in Hrun. by simplify_eq.
  - cbn [fmap list_fmap map_m] in Hrun.
    apply bind_inv in Hrun as [(row & w1 & Hrow & Hrun)|(? & Hrow & ?)];
      apply (collect_metrics_inv p out d) in Hrow as [Hfs _]; [|done].
    apply bind_inv in Hrun as [(rows' & w2 & Hrows & Hrun)|(? & Hrows & ?)];
      apply IH in Hrows.
    + unfold mret, M_ret in Hrun. simplify_eq. congruence.
    + congruence.
Qed.
End Aggregation.

Section Aggregate.
Context (ext : External).


Lemma to_csv_inv df p parent w r w' :
  to_csv df p parent w = (r, w') →
  (r = Done () ∧ ∃ n, write (fs w) p (Table df) = inr n ∧ w' = after w (EvWrite p (Table df)) n) ∨
  (w' = w ∧ ∃ e, r = Raised e).
Proof.
  unfold to_csv. destruct (is_dir (fs w) parent).
  - intros [(n & ? & ? & ?)|[? ?]]%open_write_inv; eauto.
  - intros; simplify_eq; eauto.
Qed.




Lemma map_m_first_failure out (l : list (Path * bool)) w w1 i pd e :
  fs w1 = fs w →
  l !! i = Some pd →
  (∀ j pd', (j < i)%nat → l !! j = Some pd' →
     status (collect_metrics ext pd'.1 out pd'.2 w).1 = None) →
  status (collect_metrics ext pd.1 out pd.2 w).1 = Some e →
  (map_m id ((λ pd, collect_metrics ext pd.1 out pd.2) <$> l) w1).1 = Raised e.
Proof.
  revert w1 i. induction l as [|[p d] l IH]; intros w1 i Hfs Hi Hbefore Hfail; [done|].
  cbn [fmap list_fmap map_m]. unfold id at 1. cbn [fst snd].
  pose proof (status_only (m:=collect_metrics ext p out d) w1 w Hfs) as [Hst _].
  destruct (collect_metrics ext p out d w1) as [[row|e'] w2] eqn:Hrow.
  - destruct i as [|i].
    { injection Hi as <-. cbn [fst snd] in Hfail. rewrite Hfail in Hst. done. }
    cbn [lookup list_lookup] in Hi.
    rewrite (bind_done _ _ _ _ _ Hrow).
    apply (collect_metrics_inv ext p out d) in Hrow as [Hfs2 _].
    assert ((map_m id ((λ pd, collect_metrics ext pd.1 out pd.2) <$> l) w2).1 = Raised e)
      as Hrec.
    { apply (IH w2 i); [congruence|done| |done].
      intros j pd' Hj Hpd'. apply (Hbefore (S j)); [lia|done]. }
    destruct (map_m id _ w2) as [[rows|e'] w3] eqn:Hrest; cbn [fst] in Hrec; [done|].
    by rewrite (bind_raised _ _ _ _ _ Hrest).
  - rewrite (bind_raised _ _ _ _ _ Hrow). cbn [fst]. destruct i as [|i].
    { injection Hi as <-. cbn [fst snd] in Hfail. rewrite Hfail in Hst.
      cbn in Hst. congruence. }
    pose proof (Hbefore 0%nat (p, d) ltac:(lia) eq_refl) as H0.
    cbn [fst snd] in H0. rewrite H0 in Hst. done.
Qed.

(** Claim C6, amended.  Whenever [aggregate_results] raises, the tree is
    left as it was: no table is written, not even a partial one.  The
    exception raised is the one of the first failing extraction, as it is:
    nothing wraps it into an [AggregationError]. *)
Theorem aggregate_results_failure path_strs out_dir n_jobs w r w' :
  let paths := p ← path_strs; expand_paths (fs w) p in
  aggregate_results ext path_strs out_dir n_jobs w = (r, w') →
  (r ≠ Done () → fs w' = fs w) ∧
  (∀ i pd e, n_jobs ≠ 0%Z → pairs paths !! i = Some pd →
     (∀ j pd', (j < i)%nat → pairs paths !! j = Some pd' →
        status (collect_metrics ext pd'.1 out_dir pd'.2 w).1 = None) →
     status (collect_metrics ext pd.1 out_dir pd.2 w).1 = Some e →
     r = Raised e).
Proof.
  intros paths Hrun. unfold aggregate_results in Hrun. fold paths in Hrun.
  rewrite tasks_pairs in Hrun. unfold Parallel in Hrun. split.
  - intros Hr. case_bool_decide.
    { unfold mbind, M_bind, raise in Hrun. by simplify_eq. }
    apply bind_inv in Hrun as [(rows & w1 & Hrows & Hrun)|(? & Hrows & ?)];
      apply map_m_collect_tree in Hrows; [|done].
    apply bind_inv in Hrun as [(df & w2 & Hdf & Hrun)|(? & Hdf & ?)].
    + assert (w2 = w1) as ->.
      { unfold pd_concat in Hdf. destruct rows; [done|]. unfold mret, M_ret in Hdf. by simplify_eq. }
      apply to_csv_inv in Hrun as [(? & _)|(-> & _)]; [done|done].
    + unfold pd_concat in Hdf. destruct rows; [|done]. unfold raise in Hdf. by simplify_eq.
  - intros i pd e Hn Hpd Hbefore Hfail.
    rewrite bool_decide_eq_false_2 in Hrun by done.
    pose proof (map_m_first_failure out_dir (pairs paths) w w i pd e eq_refl Hpd Hbefore Hfail) as H.
    unfold mbind, M_bind at 1 in Hrun.
    destruct (map_m id _ w) as [[rows|e'] w1]; cbn [fst] in H; by simplify_eq.
Qed.
End Aggregate.

(** ** [run_trials] *)

Section Strings.
Implicit Types (c : ascii) (s t : string) (l : list string).

Lemma split_on_nonempty c s : split_on c s ≠ [].
Proof. destruct s as [|a s]; [done|]. simpl. case_decide; [done|]. by destruct (split_on c s). Qed.

Lemma split_on_no_char c t : has_char c t = false → split_on c t = [t].
Proof.
  induction t as [|a t IH]; [done|]. simpl.
  intros [Ha Ht]%orb_false_iff. apply bool_decide_eq_false in Ha.
  rewrite decide_False by done. by rewrite IH.
Qed.

Lemma split_on_app_sep c t s :
  has_char c t = false → split_on c (t +:+ String c s) = t :: split_on c s.
Proof.
  induction t as [|a t IH]; simpl.
  - intros _. by rewrite decide_True.
  - intros [Ha Ht]%orb_false_iff. apply bool_decide_eq_false in Ha.
    rewrite decide_False by done. by rewrite IH.
Qed.

Lemma join_cons sep t l :
  l ≠ [] → join sep (t :: l) = t +:+ sep +:+ join sep l.
Proof. by destruct l. Qed.

Lemma sep_app c s : String c "" +:+ s = String c s.
Proof. done. Qed.

Lemma split_on_join c l :
  l ≠ [] → Forall (λ t, has_char c t = false) l →
  split_on c (join (String c "") l) = l.
Proof.
  induction l as [|t l IH]; [done|]. intros _ [Ht Hl]%Forall_cons.
  destruct (decide (l = [])) as [->|Hne].
  - simpl. by apply split_on_no_char.
  - rewrite join_cons, sep_app, split_on_app_sep by done. by rewrite IH.
Qed.

Lemma has_char_app c s t : has_char c (s +:+ t) = has_char c s || has_char c t.
Proof. induction s as [|a s IH]; [done|]. simpl. by rewrite IH, orb_assoc. Qed.

Lemma has_char_join c sep l :
  has_char c sep = false → Forall (λ t, has_char c t = false) l →
  has_char c (join sep l) = false.
Proof.
  intros Hsep. induction 1 as [|t l Ht Hl IH]; [done|].
  destruct (decide (l = [])) as [->|Hne]; [done|].
  rewrite join_cons by done. by rewrite !has_char_app, Ht, Hsep, IH.
Qed.

Lemma app_empty_inv s t : s +:+ t = "" → s = "".
Proof. by destruct s. Qed.

Lemma join_empty_inv sep t l : t ≠ "" → join sep (t :: l) ≠ "".
Proof.
  intros Ht. destruct (decide (l = [])) as [->|Hne]; [done|].
  rewrite join_cons by done. by intros ?%app_empty_inv.
Qed.

(** Joining with [_] is injective on tokens without [_]. *)
Lemma join_inj l1 l2 :
  Forall valid_token l1 → Forall valid_token l2 →
  join "_" l1 = join "_" l2 → l1 = l2.
Proof.
  intros H1 H2 Heq.
  assert (∀ l, Forall valid_token l → Forall (λ t, has_char "_" t = false) l) as Hno.
  { intros l Hl. eapply Forall_impl; [done|]. by intros t (_ & _ & ? & _). }
  destruct l1 as [|t1 l1], l2 as [|t2 l2]; [done|..].
  - apply Forall_cons in H2 as [(? & _) _]. symmetry in Heq. by apply join_empty_inv in Heq.
  - apply Forall_cons in H1 as [(? & _) _]. by apply join_empty_inv in Heq.
  - rewrite <- (split_on_join "_" (t1 :: l1)), <- (split_on_join "_" (t2 :: l2)) by auto.
    by rewrite Heq.
Qed.

Lemma joinpath_name base l :
  Forall valid_token l →
  joinpath base (join "_" l) = match l with [] => base | _ => base // join "_" l end.
Proof.
  intros Hl.
  assert (has_char "/" (join "_" l) = false) as Hslash.
  { apply has_char_join; [done|]. eapply Forall_impl; [done|]. by intros t (_ & _ & _ & ?). }
  assert (is_absolute (join "_" l) = false) as Habs.
  { destruct (join "_" l) as [|a s]; [done|]. simpl in *.
    apply orb_false_iff in Hslash as [Ha%bool_decide_eq_false _].
    destruct a as [[] [] [] [] [] [] [] []]; done. }
  unfold joinpath, parts. rewrite Habs, split_on_no_char by done.
  destruct l as [|t l]; [by rewrite app_nil_r|].
  rewrite filter_cons_True; [done|]. split.
  - apply join_empty_inv. by apply Forall_cons in Hl as [(? & _) _].
  - intros Hdot.
    assert (t :: l = ["."]) as Heq.
    { rewrite <- (split_on_join "_" (t :: l)); [by rewrite Hdot|done|].
      eapply Forall_impl; [done|]. by intros ? (_ & _ & ? & _). }
    simplify_eq. by apply Forall_cons in Hl as [(_ & ? & _) _].
Qed.
End Strings.

Section Naming.
Implicit Types (d o : dict) (cfg base_cfg : Namespace).

Lemma merge_lookup_notin base_cfg d k :
  k ∉ keys d → merge base_cfg d !! k = base_cfg !! k.
Proof.
  revert base_cfg. induction d as [|[k0 v0] d IH]; intros base_cfg Hk; [done|].
  unfold merge in *. simpl. unfold keys in Hk. simpl in Hk.
  apply not_elem_of_cons in Hk as [Hne Hk].
  rewrite IH by done. by rewrite lookup_insert_ne.
Qed.

Lemma merge_lookup base_cfg d k v :
  NoDup (keys d) → (k, v) ∈ d → merge base_cfg d !! k = Some v.
Proof.
  revert base_cfg. induction d as [|[k0 v0] d IH]; intros base_cfg Hnd Hin.
  - by apply elem_of_nil in Hin.
  - unfold keys in Hnd. simpl in Hnd. apply NoDup_cons in Hnd as [Hk0 Hnd].
    apply elem_of_cons in Hin as [?|Hin]; simplify_eq.
    + change (merge (<[k0:=v0]> base_cfg) d !! k0 = Some v0).
      rewrite merge_lookup_notin by done. by rewrite lookup_insert_eq.
    + change (merge (<[k0:=v0]> base_cfg) d !! k = Some v). by apply IH.
Qed.

Lemma tokens_of cfg (l : dict) w :
  (∀ k v, (k, v) ∈ l → cfg !! k = Some v) →
  map_m (λ prop, v ← getattr cfg prop; mret (str v)) (keys l) w =
  (Done (renderings l), w).
Proof.
  induction l as [|[k v] l IH]; intros Hl; [done|].
  unfold keys, renderings. cbn [fmap list_fmap map_m fst snd].
  assert (getattr cfg k w = (Done v, w)) as Hk.
  { unfold getattr. by rewrite (Hl k v) by left. }
  rewrite (bind_done _ _ w (str v) w) by (by rewrite (bind_done _ _ _ _ _ Hk)).
  rewrite (bind_done _ _ w (renderings l) w); [done|].
  apply IH. intros k' v' Hin. apply Hl. by right.
Qed.

Lemma run_trials_merged base (o : dict) base_cfg num_trials w :
  NoDup (keys o) →
  run_trials base (merge base_cfg o) (keys o) num_trials w =
  (Done (trials (joinpath base (join "_" (renderings o))) (merge base_cfg o) num_trials), w).
Proof.
  intros Hnd. unfold run_trials.
  rewrite (bind_done _ _ w (renderings o) w); [done|].
  apply tokens_of. intros k v Hin. by apply merge_lookup.
Qed.

(** Claim C8, amended.  The directory [run_trials] derives for an
    override-set is determined by the [str] of the overridden values, in the
    order of the keys; the key names do not enter it.  Override-sets with the
    same rendered values get the same directory; when the rendered values are
    non-empty, are not [.], and contain neither [_] nor [/], override-sets
    with different sequences of rendered values get different directories. *)
Theorem run_trials_paths base (o1 o2 : dict) num_trials w :
  NoDup (keys o1) → NoDup (keys o2) →
  ∃ dir1 dir2,
    run_trials base (merge _cfg o1) (keys o1) num_trials w =
      (Done (trials dir1 (merge _cfg o1) num_trials), w) ∧
    run_trials base (merge _cfg o2) (keys o2) num_trials w =
      (Done (trials dir2 (merge _cfg o2) num_trials), w) ∧
    (renderings o1 = renderings o2 → dir1 = dir2) ∧
    (Forall valid_token (renderings o1) → Forall valid_token (renderings o2) →
     renderings o1 ≠ renderings o2 → dir1 ≠ dir2).
Proof.
  intros H1 H2.
  exists (joinpath base (join "_" (renderings o1))), (joinpath base (join "_" (renderings o2))).
  split_and!; [by apply run_trials_merged..| by intros ->|].
  intros Hv1 Hv2 Hne. rewrite !joinpath_name by done.
  destruct (renderings o1) as [|t1 l1] eqn:E1, (renderings o2) as [|t2 l2] eqn:E2; [done|..].
  - intros Heq%(f_equal length). unfold child in Heq. rewrite length_app in Heq. simpl in Heq. lia.
  - intros Heq%(f_equal length). unfold child in Heq. rewrite length_app in Heq. simpl in Heq. lia.
  - intros Heq%child_inj. by apply join_inj in Heq.
Qed.

(** Claim C9, amended.  For an override-set without keys nothing is raised:
    the resolved configuration is the default one, the name is empty, and the
    trials are built in the base directory itself, at [base/run-i]. *)
Theorem run_trials_empty_override base num_trials w :
  merge _cfg [] = _cfg ∧
  run_trials base (merge _cfg []) (keys []) num_trials w =
    (Done (trials base _cfg num_trials), w) ∧
  ∀ base_dir cfg idx, (base_dir, cfg, idx) ∈ trials base _cfg num_trials →
    base_dir = base ∧ cfg = _cfg ∧ log_dir base_dir idx = base // ("run-" +:+ pretty idx).
Proof.
  split_and!; [done| |].
  - rewrite run_trials_merged by constructor. unfold renderings. simpl.
    unfold joinpath, parts. simpl. by rewrite app_nil_r.
  - unfold trials. intros ??? (i & ? & _)%list_elem_of_fmap. by simplify_eq.
Qed.
End Naming.

(** ** The summarizer *)

Section Summarizer.
Import DiscreteAction.
Context (pd : Pandas).

(** Claim C10, amended.  Once the table is read and grouped: when the
    standard deviation is not requested and the standard error is, [main]
    raises [NotImplementedError] and prints nothing; when the standard
    deviation is requested -- with the standard error or without -- the
    reduction is [std]; when neither is, it is [median]. *)
Theorem main_reduction args path w rows groups stddev :
  node_at (fs w) (path // "data.csv") = Some (File (Table rows)) →
  groupby pd rows ["discretize"; "action_scale"] = Done groups →
  args !! "stddev" = Some stddev →
  (truthy stddev = false →
   ∀ stderr, args !! "stderr" = Some stderr → truthy stderr = true →
     main pd args path w = (Raised "NotImplementedError", w)) ∧
  (∀ op table latex,
     (truthy stddev = true ∧ op = "std") ∨
     (truthy stddev = false ∧ op = "median" ∧
      ∃ stderr, args !! "stderr" = Some stderr ∧ truthy stderr = false) →
     reduce pd op groups ["steps"; "fractional"; "linf"] = Done table →
     args !! "latex" = Some latex →
     main pd args path w =
       (Done (), after w (EvPrint (if truthy latex then to_latex pd table
                                   else frame_str pd table)) (fs w))).
Proof.
  intros Hcsv Hgroups Hstddev.
  assert (Hread : read_csv (path // "data.csv") w = (Done rows, w)).
  { unfold read_csv. rewrite (bind_done _ _ w (Table rows) w); [done|].
    unfold open_read. by rewrite Hcsv. }
  assert (Hgrp : lift (groupby pd rows ["discretize"; "action_scale"]) w = (Done groups, w)).
  { unfold lift. by rewrite Hgroups. }
  assert (Hsd : getattr args "stddev" w = (Done stddev, w)).
  { unfold getattr. by rewrite Hstddev. }
  split.
  - intros Hfalse stderr Hstderr Htrue. unfold main.
    rewrite (bind_done _ _ _ _ _ Hread), (bind_done _ _ _ _ _ Hgrp), (bind_done _ _ _ _ _ Hsd).
    rewrite Hfalse. apply bind_raised.
    rewrite (bind_done _ _ w stderr w) by (unfold getattr; by rewrite Hstderr).
    by rewrite Htrue.
  - intros op table latex Hop Hred Hlatex. unfold main.
    rewrite (bind_done _ _ _ _ _ Hread), (bind_done _ _ _ _ _ Hgrp), (bind_done _ _ _ _ _ Hsd).
    rewrite (bind_done _ _ w op w).
    2:{ destruct Hop as [[-> ->]|(-> & -> & stderr & Hstderr & Hf)]; [done|].
        rewrite (bind_done _ _ w stderr w) by (unfold getattr; by rewrite Hstderr).
        by rewrite Hf. }
    rewrite (bind_done _ _ w table w) by (unfold lift; by rewrite Hred).
    rewrite (bind_done _ _ w latex w) by (unfold getattr; by rewrite Hlatex).
    by destruct (truthy latex).
Qed.
End Summarizer.

(** ** Examples *)

Lemma never_marks_ext0 : never_marks ext0.
Proof.
  intros cfg dir n Hn. cbn [learn ext0 fst].
  destruct (write n (dir // "best.pt") (Blob "state")) as [|n'] eqn:Hw; [done|].
  eapply marker_absent_write; [exact Hw|discriminate|done].
Qed.

Lemma learn_keeps_ext0 q : learn_keeps ext0 q.
Proof.
  intros cfg dir n Hn. cbn [learn ext0 fst].
  destruct (write n (dir // "best.pt") (Blob "state")) as [|n'] eqn:Hw; [done|].
  by eapply write_keeps.
Qed.

(** The order of the side effects of a fresh run. *)
Lemma ordered_run_example :
  never_marks ext0 ∧
  path_exists (fs (start empty_tree)) (marker ["log"] 0) = false ∧
  ∃ evs,
    history (do_run ext0 ["log"] _cfg 0 (start empty_tree)).2 =
      history (start empty_tree) ++ evs ∧
    config_before_training (log_dir ["log"] 0) _cfg evs.*1 ∧
    marker_after_training (log_dir ["log"] 0) _cfg evs.*1.
Proof.
  split; [exact never_marks_ext0|]. split; [by vm_compute|].
  destruct (do_run_effects_in_order ext0 ["log"] _cfg 0 (start empty_tree)
              (do_run ext0 ["log"] _cfg 0 (start empty_tree)).1
              (do_run ext0 ["log"] _cfg 0 (start empty_tree)).2
              never_marks_ext0 ltac:(by vm_compute) (surjective_pairing _))
    as (evs & H1 & H2 & H3 & _).
  exists evs. by split_and!.
Defined.

Example do_run_fresh_trace :
  (do_run ext0 ["log"] _cfg 0 (start empty_tree)).1 = Done () ∧
  trace (do_run ext0 ["log"] _cfg 0 (start empty_tree)).2 =
    [ ("mkdirs", ["log"; "run-0"]);
      ("write", ["log"; "run-0"; "config.txt"]);
      ("write", ["log"; "run-0"; "config.pkl"]);
      ("train", ["log"; "run-0"]);
      ("write", ["log"; "run-0"; "completed"]) ].
Proof. by vm_compute. Qed.

Example do_run_stale_trace :
  trace (do_run ext0 ["log"] _cfg 0 (start stale_tree)).2 =
    [ ("rmtree", ["log"; "run-0"]);
      ("mkdirs", ["log"; "run-0"]);
      ("write", ["log"; "run-0"; "config.txt"]);
      ("write", ["log"; "run-0"; "config.pkl"]);
      ("train", ["log"; "run-0"]);
      ("write", ["log"; "run-0"; "completed"]) ] ∧
  node_at (fs (do_run ext0 ["log"] _cfg 0 (start stale_tree)).2)
          ["log"; "run-0"; "config.txt"] ≠ Some (File (Text "partial")).
Proof. split; [by vm_compute|]. vm_compute. discriminate. Qed.

Example expand_paths_nested :
  expand_paths artifact_tree "log" = [["log"; "a"]] ∧
  expand_paths artifact_tree "log/a/best.pt" = [] ∧
  expand_paths artifact_tree "missing" = [].
Proof. by vm_compute. Qed.



(** A finished job is skipped; and after a first run over two jobs in
    directories of their own, a second run does nothing. *)
Lemma skipped_jobs_example :
  let finished := [(["log"], _cfg, 0%Z)] in
  let jobs := [(["log"], _cfg, 0%Z); (["log"], _cfg, 1%Z)] in
  let w1 := (execute ext0 jobs 1 (start empty_tree)).2 in
  Forall (λ j, path_exists (fs (start finished_tree)) (job_marker j) = true) finished ∧
  execute ext0 finished 1 (start finished_tree) = (Done (), start finished_tree) ∧
  independent jobs ∧
  (∀ j, j ∈ jobs → learn_keeps ext0 (job_marker j)) ∧
  execute ext0 jobs 1 (start empty_tree) = (Done (), w1) ∧
  Forall (λ j, path_exists (fs w1) (job_marker j) = true) jobs ∧
  execute ext0 jobs 1 w1 = (Done (), w1).
Proof.
  intros finished jobs w1.
  assert (Forall (λ j, path_exists (fs (start finished_tree)) (job_marker j) = true)
                 finished) as H.
  { repeat constructor. }
  assert (independent jobs) as Hind.
  { intros j k Hj Hk Hpre. unfold jobs in Hj, Hk.
    apply elem_of_cons in Hj as [->|Hj]; [|apply list_elem_of_singleton in Hj as ->];
      (apply elem_of_cons in Hk as [->|Hk]; [|apply list_elem_of_singleton in Hk as ->]);
      try reflexivity; destruct Hpre as [x Hx]; vm_compute in Hx; discriminate. }
  assert (∀ j, j ∈ jobs → learn_keeps ext0 (job_marker j)) as Hkeeps
    by (intros j _; apply learn_keeps_ext0).
  assert (execute ext0 jobs 1 (start empty_tree) = (Done (), w1)) as Hfirst.
  { assert ((execute ext0 jobs 1 (start empty_tree)).1 = Done ()) as Hr
      by (by vm_compute).
    rewrite <- Hr. apply surjective_pairing. }
  destruct (completed_jobs_are_skipped ext0 finished 1 (start finished_tree))
    as [Hskip _].
  destruct (Hskip H) as (_ & _ & Hrun).
  destruct (completed_jobs_are_skipped ext0 jobs 1 w1) as [_ Hagain].
  destruct (Hagain Hind Hkeeps (start empty_tree) Hfirst) as [Hmarks Hidle].
  split; [exact H|]. split; [apply Hrun; by left|].
  split; [exact Hind|]. split; [exact Hkeeps|]. split; [exact Hfirst|].
  split; [exact Hmarks|exact Hidle].
Defined.

(** Claim C2 as stated fails: a module with the override-sets
    [{foo: "run-0"}] and [{}] has its jobs under [log/x/run-0] and [log/x],
    so that the two run directories are [log/x/run-0/run-0] and
    [log/x/run-0], one inside the other.  The first run returns, and its
    second job deletes what the first one wrote; so the second run over the
    same jobs trains the first job again. *)
Lemma nested_jobs_train_again :
  let first := run_experiments ext_nested ["configs/x.py"] 1 1 ["log"] (start empty_tree) in
  let second := run_experiments ext_nested ["configs/x.py"] 1 1 ["log"] first.2 in
  job_dirs (build_jobs ext_nested ["configs/x.py"] 1 ["log"] [] (start empty_tree)).1 =
    [["log"; "x"; "run-0"]; ["log"; "x"]] ∧
  first.1 = Done () ∧
  trace first.2 =
    [ ("mkdirs", ["log"; "x"; "run-0"; "run-0"]);
      ("write", ["log"; "x"; "run-0"; "run-0"; "config.txt"]);
      ("write", ["log"; "x"; "run-0"; "run-0"; "config.pkl"]);
      ("train", ["log"; "x"; "run-0"; "run-0"]);
      ("write", ["log"; "x"; "run-0"; "run-0"; "completed"]);
      ("rmtree", ["log"; "x"; "run-0"]);
      ("mkdirs", ["log"; "x"; "run-0"]);
      ("write", ["log"; "x"; "run-0"; "config.txt"]);
      ("write", ["log"; "x"; "run-0"; "config.pkl"]);
      ("train", ["log"; "x"; "run-0"]);
      ("write", ["log"; "x"; "run-0"; "completed"]) ] ∧
  path_exists (fs first.2) (marker ["log"; "x"; "run-0"] 0) = false ∧
  second.1 = Done () ∧
  trace second.2 =
    trace first.2 ++
    [ ("mkdirs", ["log"; "x"; "run-0"; "run-0"]);
      ("write", ["log"; "x"; "run-0"; "run-0"; "config.txt"]);
      ("write", ["log"; "x"; "run-0"; "run-0"; "config.pkl"]);
      ("train", ["log"; "x"; "run-0"; "run-0"]);
      ("write", ["log"; "x"; "run-0"; "run-0"; "completed"]) ].
Proof. by vm_compute. Qed.


(** Claim C6 as stated fails: an evaluation that raises [RuntimeError] makes
    [aggregate_results] raise that [RuntimeError], not an [AggregationError]. *)
Lemma aggregation_error_is_not_raised :
  (aggregate_results ext_failing ["log"] [] 1 (start artifact_tree)).1 = Raised "RuntimeError" ∧
  (aggregate_results ext_failing ["log"] [] 1 (start artifact_tree)).1 ≠ Raised "AggregationError".
Proof. split; [by vm_compute|]. vm_compute. discriminate. Qed.

(** Claim C8 as stated fails: two override-sets on different keys, resolved
    to different configurations, are given the same directory. *)
Lemma different_overrides_collide :
  let o1 : dict := [("n_steps", VInt 256)] in
  let o2 : dict := [("batch_size", VInt 256)] in
  o1 ≠ o2 ∧ keys o1 ≠ keys o2 ∧ merge _cfg o1 ≠ merge _cfg o2 ∧
  job_dirs (run_trials ["log"; "c"] (merge _cfg o1) (keys o1) 1 (start empty_tree)).1 =
    [["log"; "c"; "256"]] ∧
  job_dirs (run_trials ["log"; "c"] (merge _cfg o2) (keys o2) 1 (start empty_tree)).1 =
    [["log"; "c"; "256"]].
Proof.
  intros o1 o2. split_and!; [discriminate|discriminate| |by vm_compute..].
  intros H. apply (f_equal (.!! "n_steps")) in H. vm_compute in H. discriminate.
Qed.

(** Claim C9 as stated fails: a configuration module that yields one empty
    override-set is expanded without an error, and its job is trained. *)
Lemma empty_override_runs_a_job :
  generate_configs ext0 "configs.empty" = Done [[]] ∧
  (run_experiments ext0 ["configs/empty.py"] 1 1 ["log"] (start empty_tree)).1 = Done () ∧
  trace (run_experiments ext0 ["configs/empty.py"] 1 1 ["log"] (start empty_tree)).2 =
    [ ("mkdirs", ["log"; "empty"; "run-0"]);
      ("write", ["log"; "empty"; "run-0"; "config.txt"]);
      ("write", ["log"; "empty"; "run-0"; "config.pkl"]);
      ("train", ["log"; "empty"; "run-0"]);
      ("write", ["log"; "empty"; "run-0"; "completed"]) ].
Proof. by vm_compute. Qed.

(** Claim C10 as stated fails: with both flags set the standard deviation is
    computed and printed; with the standard error alone the exception is
    [NotImplementedError], raised after the table was read and grouped, so
    that without a table the failure is that of the read. *)
Lemma stderr_request_diverges :
  truthy (default (VBool false) (args_both !! "stderr")) = true ∧
  DiscreteAction.main pd0 args_both [] (start table_tree) =
    (Done (), after (start table_tree) (EvPrint "std") table_tree) ∧
  (DiscreteAction.main pd0 args_stderr [] (start table_tree)).1 ≠
    Raised "NotSupportedError" ∧
  DiscreteAction.main pd0 args_stderr [] (start empty_tree) =
    (Raised "FileNotFoundError", start empty_tree).
Proof.
  split_and!; [by vm_compute..| |by vm_compute].
  vm_compute. discriminate.
Qed.

(** Claim C7.  A configuration that lacks [action_noise] and has
    [bottleneck_temperature] comes out of [patch_old_configs] without
    [action_noise]: the third rule tests the wrong attribute.  Building the
    environment arguments from it raises, and so does the extraction of an
    artifact that stores it. *)
Theorem patch_old_configs_misses_action_noise :
  old_cfg !! "action_noise" = None ∧
  is_Some (old_cfg !! "bottleneck_temperature") ∧
  patch_old_configs old_cfg !! "action_noise" = None ∧
  (∀ w, make_env_kwargs (patch_old_configs old_cfg) w = (Raised "AttributeError", w)) ∧
  (collect_metrics ext0 ["log"; "a"] [] true (start old_artifact_tree)).1 =
    Raised "AttributeError".
Proof.
  split_and!; [by vm_compute| |by vm_compute| |by vm_compute].
  - apply (bool_decide_unpack _). by vm_compute.
  - intros w. unfold make_env_kwargs.
    rewrite (bind_done _ _ w (VStr "direction") w) by (by vm_compute).
    apply bind_raised. by vm_compute.
Qed.



(** A failing evaluation leaves the tree without a table. *)
Lemma failing_aggregation_example :
  let run := aggregate_results ext_failing ["log"] [] 1 (start artifact_tree) in
  run = (run.1, run.2) ∧ (run.1 ≠ Done () → fs run.2 = artifact_tree).
Proof.
  intros run. split; [apply surjective_pairing|].
  apply (aggregate_results_failure ext_failing ["log"] [] 1 (start artifact_tree) run.1 run.2).
  apply surjective_pairing.
Defined.

(** Two learning rates get two directories. *)
Lemma distinct_rates_example :
  let o1 : dict := [("learning_rate", VFloat "0.001")] in
  let o2 : dict := [("learning_rate", VFloat "0.01")] in
  NoDup (keys o1) ∧ NoDup (keys o2) ∧
  ∃ dir1 dir2,
    run_trials ["log"; "lr"] (merge _cfg o1) (keys o1) 2 (start empty_tree) =
      (Done (trials dir1 (merge _cfg o1) 2), start empty_tree) ∧
    run_trials ["log"; "lr"] (merge _cfg o2) (keys o2) 2 (start empty_tree) =
      (Done (trials dir2 (merge _cfg o2) 2), start empty_tree) ∧
    dir1 ≠ dir2.
Proof.
  intros o1 o2.
  assert (NoDup (keys o1)) as H1 by apply NoDup_singleton.
  assert (NoDup (keys o2)) as H2 by apply NoDup_singleton.
  split; [exact H1|]. split; [exact H2|].
  destruct (run_trials_paths ["log"; "lr"] o1 o2 2 (start empty_tree) H1 H2)
    as (dir1 & dir2 & Hr1 & Hr2 & _ & Hne).
  exists dir1, dir2. split_and!; [exact Hr1|exact Hr2|].
  apply Hne; [| |discriminate]; repeat constructor; discriminate.
Defined.

(** The standard error alone is refused. *)
Lemma stderr_request_example :
  node_at (fs (start table_tree)) ([] // "data.csv") =
    Some (File (Table [ {[ "steps" := VFloat "3.5" ]} ])) ∧
  DiscreteAction.groupby pd0 [ {[ "steps" := VFloat "3.5" ]} ] ["discretize"; "action_scale"] =
    Done [[ {[ "steps" := VFloat "3.5" ]} ]] ∧
  args_stderr !! "stddev" = Some (VBool false) ∧
  DiscreteAction.main pd0 args_stderr [] (start table_tree) =
    (Raised "NotImplementedError", start table_tree).
Proof.
  assert (node_at (fs (start table_tree)) ([] // "data.csv") =
    Some (File (Table [ {[ "steps" := VFloat "3.5" ]} ]))) as H1 by (by vm_compute).
  assert (args_stderr !! "stddev" = Some (VBool false)) as H3 by (by vm_compute).
  split; [exact H1|]. split; [reflexivity|]. split; [exact H3|].
  destruct (main_reduction pd0 args_stderr [] (start table_tree) _ _ _ H1 eq_refl H3)
    as [Hraise _].
  apply (Hraise eq_refl (VBool true)); [by vm_compute|reflexivity].
Defined.

(** * Further properties *)

Import Lexicon Cli Notions Samples.

(** ** More on [patch_old_configs] *)

Section PatchMore.
Implicit Types (cfg : Namespace).

Lemma backfill_present test field v cfg :
  hasattr cfg test = true → backfill test field v cfg = cfg.
Proof. unfold backfill. by intros ->. Qed.

Lemma patch_old_configs_complete cfg :
  Forall (λ f, hasattr cfg f = true) tested_fields → patch_old_configs cfg = cfg.
Proof.
  unfold tested_fields. intros H.
  repeat (apply Forall_cons in H as [? H]).
  rewrite patch_old_configs_rules.
  rewrite (backfill_present "obs_type" _ _ cfg) by done.
  rewrite (backfill_present "policy_activation" _ _ cfg) by done.
  rewrite (backfill_present "bottleneck_temperature" "action_noise" _ cfg) by done.
  rewrite (backfill_present "bottleneck_temperature" _ _ cfg) by done.
  rewrite (backfill_present "reward_structure" _ _ cfg) by done.
  rewrite (backfill_present "n_proc_alg" _ _ cfg) by done.
  by rewrite (backfill_present "discrete_action" _ _ cfg) by done.
Qed.

Lemma patch_old_configs_tested cfg :
  Forall (λ f, hasattr (patch_old_configs cfg) f = true) tested_fields.
Proof.
  destruct (patch_old_configs_backfills cfg) as (H1 & H2 & H3 & H4 & H5 & H6 & _).
  unfold tested_fields. repeat constructor; apply hasattr_true; eauto.
Qed.

(** Property X1.
    [patch_old_configs] leaves a configuration as it is exactly when the six
    attributes it tests are there; so patching a second time changes
    nothing. *)
Theorem patch_old_configs_idempotent cfg :
  (patch_old_configs cfg = cfg ↔ Forall (λ f, hasattr cfg f = true) tested_fields) ∧
  patch_old_configs (patch_old_configs cfg) = patch_old_configs cfg.
Proof.
  split; [split|].
  - intros H. rewrite <- H. apply patch_old_configs_tested.
  - apply patch_old_configs_complete.
  - apply patch_old_configs_complete, patch_old_configs_tested.
Qed.

(** Property X2.
    [patch_old_configs] removes no attribute, and changes the value of none
    but [action_noise]; it overwrites [action_noise] only when
    [bottleneck_temperature] is missing. *)
Theorem patch_old_configs_preserves cfg :
  dom cfg ⊆ dom (patch_old_configs cfg) ∧
  (∀ name, name ≠ "action_noise" → is_Some (cfg !! name) →
           patch_old_configs cfg !! name = cfg !! name) ∧
  (is_Some (cfg !! "bottleneck_temperature") →
   patch_old_configs cfg !! "action_noise" = cfg !! "action_noise").
Proof.
  assert (Hkeep : ∀ name, name ≠ "action_noise" → is_Some (cfg !! name) →
            patch_old_configs cfg !! name = cfg !! name).
  { intros name Hne [v Hv]. rewrite Hv, patch_old_configs_rules.
    repeat (apply backfill_keeps; [|by auto]). done. }
  assert (Hnoise : is_Some (patch_old_configs cfg !! "action_noise") ∨
                   patch_old_configs cfg !! "action_noise" = cfg !! "action_noise").
  { destruct (patch_old_configs_backfills cfg) as (_ & _ & _ & _ & _ & _ & ->).
    destruct (hasattr cfg "bottleneck_temperature"); eauto. }
  split_and!.
  - intros name [v Hv]%elem_of_dom. apply elem_of_dom.
    destruct (decide (name = "action_noise")) as [->|Hne].
    + destruct Hnoise as [?| ->]; eauto.
    + rewrite Hkeep; eauto.
  - done.
  - intros Hb%hasattr_true.
    destruct (patch_old_configs_backfills cfg) as (_ & _ & _ & _ & _ & _ & ->).
    by rewrite Hb.
Qed.
End PatchMore.

(** ** Building the keyword arguments and the model *)

Lemma getattr_done (cfg : Namespace) f v w : cfg !! f = Some v → getattr cfg f w = (Done v, w).
Proof. unfold getattr. by intros ->. Qed.

Lemma getattr_raised (cfg : Namespace) f w :
  cfg !! f = None → getattr cfg f w = (Raised "AttributeError", w).
Proof. unfold getattr. by intros ->. Qed.

(** Reading one attribute at the head of a sequence. *)
Ltac read_attr cfg f :=
  let v := fresh "v" in
  let H := fresh "H" in
  destruct (cfg !! f) as [v|] eqn:H;
  [ rewrite (bind_done _ _ _ _ _ (getattr_done cfg f v _ H))
  | rewrite (bind_raised _ _ _ _ _ (getattr_raised cfg f _ H)) ].

Ltac missing :=
  let Hall := fresh "Hall" in
  right; split; [|done]; rewrite !Forall_cons; intros Hall; destruct_and!;
  match goal with
  | H : ?x = None, H' : is_Some ?x |- _ => rewrite H in H'; by destruct H'
  end.

(** Reading an attribute that the defaults have. *)
Ltac take cfg f Hdom :=
  let v := fresh "v" in
  let H := fresh "H" in
  destruct (Hdom f) as [v H]; [apply (bool_decide_unpack _); by vm_compute|];
  rewrite (bind_done _ _ _ _ _ (getattr_done cfg f v _ H)).

Section Building.
Implicit Types (cfg : Namespace) (w : world).

(** Property X4.
    [make_env_kwargs] returns exactly when the nine attributes it reads are
    there: it then returns nine keyword arguments, the values of the
    attributes under their own names, [env_lsize] under [lsize].  Otherwise
    it raises [AttributeError].  Either way the world is left as it is. *)
Theorem make_env_kwargs_returns cfg w :
  (Forall (λ f, is_Some (cfg !! f)) env_fields ∧
   ∃ kw, make_env_kwargs cfg w = (Done kw, w) ∧
         size kw = 9%nat ∧
         kw !! "lsize" = cfg !! "env_lsize" ∧
         ∀ f, f ∈ env_fields → f ≠ "env_lsize" → kw !! f = cfg !! f) ∨
  (¬ Forall (λ f, is_Some (cfg !! f)) env_fields ∧
   make_env_kwargs cfg w = (Raised "AttributeError", w)).
Proof.
  unfold make_env_kwargs, env_fields.
  read_attr cfg "obs_type"; [|missing].
  read_attr cfg "action_noise"; [|missing].
  read_attr cfg "reward_structure"; [|missing].
  read_attr cfg "discrete_action"; [|missing].
  read_attr cfg "pixel_space"; [|missing].
  read_attr cfg "env_lsize"; [|missing].
  read_attr cfg "single_step"; [|missing].
  read_attr cfg "action_scale"; [|missing].
  read_attr cfg "max_step_scale"; [|missing].
  left. split; [repeat constructor; by eauto|].
  eexists. split; [reflexivity|]. split_and!.
  - by vm_compute.
  - by vm_compute.
  - intros f Hf Hne.
    repeat (apply elem_of_cons in Hf as [->|Hf]; [by first [done | vm_compute; congruence]|]).
    by apply elem_of_nil in Hf.
Qed.

Lemma merge_is_Some (base : Namespace) (d : dict) k :
  is_Some (base !! k) → is_Some (merge base d !! k).
Proof.
  revert base. induction d as [|[k0 v0] d IH]; intros base Hk; [done|].
  apply (IH (<[k0 := v0]> base)).
  destruct (decide (k0 = k)) as [->|Hne].
  - by rewrite lookup_insert_eq.
  - by rewrite lookup_insert_ne.
Qed.

Lemma make_env_kwargs_complete cfg w :
  (∀ f, is_Some (_cfg !! f) → is_Some (cfg !! f)) →
  ∃ kw, make_env_kwargs cfg w = (Done kw, w).
Proof.
  intros Hdom. unfold make_env_kwargs.
  take cfg "obs_type" Hdom. take cfg "action_noise" Hdom.
  take cfg "reward_structure" Hdom. take cfg "discrete_action" Hdom.
  take cfg "pixel_space" Hdom. take cfg "env_lsize" Hdom.
  take cfg "single_step" Hdom. take cfg "action_scale" Hdom.
  take cfg "max_step_scale" Hdom.
  eexists. reflexivity.
Qed.

Lemma make_policy_kwargs_complete cfg w :
  (∀ f, is_Some (_cfg !! f) → is_Some (cfg !! f)) →
  ∃ pk, make_policy_kwargs cfg w = (Done pk, w).
Proof.
  intros Hdom. unfold make_policy_kwargs.
  take cfg "pixel_space" Hdom. take cfg "fe_out_size" Hdom.
  take cfg "fe_out_ratio" Hdom. take cfg "bottleneck" Hdom.
  take cfg "pre_arch" Hdom. take cfg "post_arch" Hdom.
  take cfg "bottleneck_temperature" Hdom. take cfg "policy_activation" Hdom.
  take cfg "policy_net_arch" Hdom.
  eexists. reflexivity.
Qed.


Lemma subprocess_step ext v kw {B} (k : M B) w :
  (lift (gt_one v) ≫= λ many : bool,
     (if many
      then lift (range_of v) ≫= λ _, construct (env_init ext kw)
      else construct (env_init ext kw)) ≫= λ _, k) w =
  if usable_count v then (construct (env_init ext kw) ≫= λ _, k) w
  else (Raised "TypeError", w).
Proof.
  destruct v as [[]|z|r|?|?|?]; try done.
  - unfold mbind, M_bind, lift, gt_one. by destruct (bool_decide (1 < z)%Z).
  - unfold mbind, M_bind, lift, gt_one, usable_count. by destruct (float_gt_one r).
Qed.

Lemma make_model_complete ext cfg w kw pk v :
  (∀ f, is_Some (_cfg !! f) → is_Some (cfg !! f)) →
  make_env_kwargs cfg w = (Done kw, w) →
  make_policy_kwargs cfg w = (Done pk, w) →
  cfg !! "n_proc_alg" = Some v →
  make_model ext cfg w =
    (if usable_count v then
       match env_init ext kw with
       | Some e => Raised e
       | None =>
           match alg_init ext cfg with
           | Some e => Raised e
           | None => Done (Model cfg kw pk)
           end
       end
     else Raised "TypeError", w).
Proof.
  intros Hdom Hkw Hpk Hv. unfold make_model.
  rewrite (bind_done _ _ _ _ _ Hkw).
  take cfg "pixel_space" Hdom.
  rewrite (bind_done _ _ _ _ _ (getattr_done cfg "n_proc_alg" v w Hv)).
  rewrite subprocess_step. destruct (usable_count v); [|done].
  destruct (env_init ext kw) as [e|]; [by rewrite (bind_raised _ _ w e w)|].
  rewrite (bind_done _ _ w () w) by done.
  rewrite (bind_done _ _ _ _ _ Hpk).
  take cfg "alg" Hdom. take cfg "pixel_space" Hdom. take cfg "n_steps" Hdom.
  take cfg "batch_size" Hdom. take cfg "learning_rate" Hdom. take cfg "device" Hdom.
  destruct (alg_init ext cfg) as [e|]; [by rewrite (bind_raised _ _ w e w)|].
  by rewrite (bind_done _ _ w () w).
Qed.

(** Property X5.
    A configuration that [run_experiments] resolves -- the defaults of [_cfg]
    overridden by one override-set -- has every attribute that
    [make_env_kwargs], [make_policy_kwargs] and [make_model] read: both
    keyword builders return, and [make_model] never raises
    [AttributeError].  It raises [TypeError] when the override gave
    [n_proc_alg] a value that does not compare with 1 (a string, a list, a
    class) or a float above 1, which [range] refuses; otherwise it fails only
    with the exception of a library constructor, that of the environment
    first. *)
Theorem merged_config_builds ext (config : dict) w :
  ∃ kw pk v,
    make_env_kwargs (merge _cfg config) w = (Done kw, w) ∧
    make_policy_kwargs (merge _cfg config) w = (Done pk, w) ∧
    merge _cfg config !! "n_proc_alg" = Some v ∧
    make_model ext (merge _cfg config) w =
      (if usable_count v then
         match env_init ext kw with
         | Some e => Raised e
         | None =>
             match alg_init ext (merge _cfg config) with
             | Some e => Raised e
             | None => Done (Model (merge _cfg config) kw pk)
             end
         end
       else Raised "TypeError", w).
Proof.
  assert (Hdom : ∀ f, is_Some (_cfg !! f) → is_Some (merge _cfg config !! f))
    by (intros f; apply merge_is_Some).
  destruct (make_env_kwargs_complete _ w Hdom) as [kw Hkw].
  destruct (make_policy_kwargs_complete _ w Hdom) as [pk Hpk].
  destruct (Hdom "n_proc_alg") as [v Hv]; [apply (bool_decide_unpack _); by vm_compute|].
  exists kw, pk, v. split_and!; [done..|]. by apply make_model_complete.
Qed.
End Building.

(** ** Old configurations that can be evaluated *)

Section Extractable.
Implicit Types (cfg : Namespace) (w : world).

Lemma make_env_kwargs_status cfg w :
  (Forall (λ f, is_Some (cfg !! f)) env_fields →
   ∃ kw, make_env_kwargs cfg w = (Done kw, w)) ∧
  (¬ Forall (λ f, is_Some (cfg !! f)) env_fields →
   make_env_kwargs cfg w = (Raised "AttributeError", w)).
Proof.
  unfold make_env_kwargs, env_fields.
  repeat match goal with
  | |- context [getattr cfg ?f] =>
      read_attr cfg f;
      [| split; [|done]; let Hall := fresh in
         intros Hall; exfalso; rewrite !Forall_cons in Hall; destruct_and!;
         match goal with
         | H : ?x = None, H' : is_Some ?x |- _ => rewrite H in H'; by destruct H'
         end ]
  end.
  split; [by eauto|]. intros Hn. destruct Hn. repeat constructor; by eauto.
Qed.

(** Property X3.
    Which stored configurations the extraction can build an environment
    from: after [patch_old_configs], [make_env_kwargs] returns exactly when
    the configuration has the five environment attributes that are not
    backfilled, and has [action_noise] or lacks [bottleneck_temperature];
    otherwise it raises [AttributeError]. *)
Theorem patched_config_extractable cfg w :
  let ready :=
    Forall (λ f, is_Some (cfg !! f))
      ["pixel_space"; "env_lsize"; "single_step"; "action_scale"; "max_step_scale"] ∧
    (is_Some (cfg !! "action_noise") ∨ cfg !! "bottleneck_temperature" = None) in
  (ready → ∃ kw, make_env_kwargs (patch_old_configs cfg) w = (Done kw, w)) ∧
  (¬ ready → make_env_kwargs (patch_old_configs cfg) w = (Raised "AttributeError", w)).
Proof.
  intros ready.
  assert (Hother : ∀ f, bool_decide (f ∉ patched_fields) = true →
            patch_old_configs cfg !! f = cfg !! f).
  { intros f Hf. apply patch_old_configs_other. by apply bool_decide_eq_true in Hf. }
  destruct (patch_old_configs_backfills cfg) as (H1 & _ & _ & H4 & _ & H6 & H7).
  assert (Hiff : Forall (λ f, is_Some (patch_old_configs cfg !! f)) env_fields ↔ ready).
  { unfold ready, env_fields. rewrite !Forall_cons, !Forall_nil.
    rewrite H1, H4, H6, H7, !Hother by (by vm_compute).
    destruct (hasattr cfg "bottleneck_temperature") eqn:Hbt.
    - apply hasattr_true in Hbt as [x Hx]. rewrite Hx. split.
      + intros (_ & ? & _ & _ & ? & ? & ? & ? & ? & _). split_and!; by eauto.
      + intros ((? & ? & ? & ? & ? & _) & [?|?]); [|done]. split_and!; by eauto.
    - apply hasattr_false in Hbt. rewrite Hbt. split.
      + intros (_ & _ & _ & _ & ? & ? & ? & ? & ? & _). split_and!; by eauto.
      + intros ((? & ? & ? & ? & ? & _) & _). split_and!; by eauto. }
  destruct (make_env_kwargs_status (patch_old_configs cfg) w) as [Hdone Hraise].
  split; intros Hr; [apply Hdone|apply Hraise]; by rewrite Hiff.
Qed.
End Extractable.

(** ** Runs that complete, and runs that cannot start *)

(** The log grew by the events collected so far. *)
Ltac grown :=
  eexists; split;
  [ unfold after; cbn [history fs]; rewrite <- ?app_assoc; cbn [app];
    first [ reflexivity | symmetry; apply app_nil_r ]
  | done ].

Section Completes.
Context (ext : External).

(** Property X6.
    A run that finds a regular file where its directory should be raises
    [NotADirectoryError] from [shutil.rmtree], and changes nothing. *)
Theorem do_run_on_regular_file base cfg idx w d :
  node_at (fs w) (log_dir base idx) = Some (File d) →
  do_run ext base cfg idx w = (Raised "NotADirectoryError", w).
Proof.
  intros Hfile. unfold do_run. fold (log_dir base idx).
  rewrite (bind_done _ _ w false w).
  2:{ apply exists_absent. rewrite dir_entry, Hfile. done. }
  rewrite (bind_done _ _ w true w) by (apply exists_present; by rewrite Hfile).
  apply bind_raised. unfold rmtree. by rewrite Hfile.
Qed.

(** A fresh run of a complete configuration returns. *)
Lemma fresh_run_returns base cfg idx w :
  let dir := log_dir base idx in
  (∀ f, is_Some (_cfg !! f) → is_Some (cfg !! f)) →
  (∀ v, cfg !! "n_proc_alg" = Some v → usable_count v = true) →
  node_at (fs w) dir = None →
  is_Some (mkdirs (fs w) dir) →
  (∀ kw, env_init ext kw = None) →
  alg_init ext cfg = None →
  (∀ n, is_dir n dir = true → node_at n (dir // "completed") = None →
        (learn ext cfg dir n).2 = None ∧
        is_dir (learn ext cfg dir n).1 dir = true ∧
        node_at (learn ext cfg dir n).1 (dir // "completed") = None) →
  ∃ w', do_run ext base cfg idx w = (Done (), w') ∧
        node_at (fs w') (marker base idx) = Some (File (Text "")).
Proof.
  intros dir Hdom Hcount Habsent [n1 Hmk] Henv Halg Hlearn.
  pose proof (mkdirs_creates _ _ _ Hmk Habsent) as Hd1.
  destruct (write_in_dir n1 dir ∅ "config.txt" (Text (namespace_str cfg)) Hd1)
    as (n2 & Hw2 & Hd2); [by intros es'; rewrite lookup_empty|].
  destruct (write_in_dir n2 dir _ "config.pkl" (Pickle cfg) Hd2)
    as (n3 & Hw3 & Hd3).
  { intros es'. rewrite lookup_insert_ne by discriminate. by rewrite lookup_empty. }
  assert (Hm3 : node_at n3 (dir // "completed") = None).
  { eapply entry_absent_2; [done|].
    rewrite !lookup_insert_ne by discriminate. apply lookup_empty. }
  assert (Hdir3 : is_dir n3 dir = true) by (unfold is_dir; by rewrite Hd3).
  destruct (Hlearn n3 Hdir3 Hm3) as (Hret & Hdir4 & Hm4).
  destruct (learn ext cfg dir n3) as [n4 o] eqn:Hl. cbn [fst snd] in *. subst o.
  unfold is_dir in Hdir4. destruct (node_at n4 dir) as [[|es4]|] eqn:Hd4; try done.
  destruct (write_in_dir n4 dir es4 "completed" (Text "") Hd4) as (n5 & Hw5 & Hd5).
  { intros es'. by rewrite (entry_absent _ _ _ _ Hd4 Hm4). }
  set (w1 := after w (EvMkdirs dir) n1).
  set (w2 := after w1 (EvWrite (dir // "config.txt") (Text (namespace_str cfg))) n2).
  set (w3 := after w2 (EvWrite (dir // "config.pkl") (Pickle cfg)) n3).
  set (w4 := after w3 (EvTrain cfg dir None) n4).
  set (w5 := after w4 (EvWrite (dir // "completed") (Text "")) n5).
  destruct (make_env_kwargs_complete cfg w3 Hdom) as [kw Hkw].
  destruct (make_policy_kwargs_complete cfg w3 Hdom) as [pk Hpk].
  destruct (Hdom "n_proc_alg") as [v Hv]; [apply (bool_decide_unpack _); by vm_compute|].
  pose proof (make_model_complete ext cfg w3 kw pk v Hdom Hkw Hpk Hv) as Hmodel.
  rewrite (Hcount v Hv), Henv, Halg in Hmodel.
  exists w5. split.
  - unfold do_run. fold (log_dir base idx). fold dir.
    rewrite (bind_done _ _ w false w)
      by (apply exists_absent; by apply node_at_below_absent).
    rewrite (bind_done _ _ w false w) by (by apply exists_absent).
    rewrite (bind_done _ _ w () w) by done.
    rewrite (bind_done _ _ w () w1) by (unfold SummaryWriter; by rewrite Hmk).
    rewrite (bind_done _ _ w1 () w2) by (unfold open_write; cbn [fs w1 after]; by rewrite Hw2).
    rewrite (bind_done _ _ w2 () w3) by (unfold open_write; cbn [fs w2 after]; by rewrite Hw3).
    rewrite (bind_done _ _ _ _ _ Hkw).
    take cfg "pixel_space" Hdom.
    rewrite (bind_done _ _ w3 () w3) by (by rewrite Henv).
    take cfg "eval_episodes" Hdom. take cfg "eval_freq" Hdom.
    take cfg "entropy_samples" Hdom.
    rewrite (bind_done _ _ _ _ _ Hmodel).
    take cfg "total_timesteps" Hdom.
    rewrite (bind_done _ _ w3 () w4).
    2:{ unfold model_learn. cbn [model_cfg fs w3 after]. by rewrite Hl. }
    unfold open_write. cbn [fs w4 after]. by rewrite Hw5.
  - cbn [fs w5 after]. by eapply node_at_write.
Qed.

(** Property X7.
    A fresh run completes: when the job directory is absent and can be
    created, the configuration is one resolved from the defaults with a
    count of processes that [make_model] accepts, the constructors of the
    libraries return, and the trainer returns leaving the directory in place
    without a marker, [do_run] returns and leaves the empty marker. *)
Theorem do_run_completes base (config : dict) idx w :
  let cfg := merge _cfg config in
  let dir := log_dir base idx in
  (∀ v, cfg !! "n_proc_alg" = Some v → usable_count v = true) →
  node_at (fs w) dir = None →
  is_Some (mkdirs (fs w) dir) →
  (∀ kw, env_init ext kw = None) →
  alg_init ext cfg = None →
  (∀ n, is_dir n dir = true → node_at n (dir // "completed") = None →
        (learn ext cfg dir n).2 = None ∧
        is_dir (learn ext cfg dir n).1 dir = true ∧
        node_at (learn ext cfg dir n).1 (dir // "completed") = None) →
  ∃ w', do_run ext base cfg idx w = (Done (), w') ∧
        node_at (fs w') (marker base idx) = Some (File (Text "")).
Proof.
  intros cfg dir Hcount Habsent Hmk Henv Halg Hlearn.
  apply fresh_run_returns; [|done..].
  intros f. apply merge_is_Some.
Qed.

(** What a run that starts without its directory does, read off its
    result. *)
Lemma fresh_run_events base cfg idx w r w' :
  let dir := log_dir base idx in
  node_at (fs w) dir = None →
  do_run ext base cfg idx w = (r, w') →
  ∃ evs, history w' = history w ++ evs ∧
    (r = Done () →
     evs.*1 = [EvMkdirs dir;
               EvWrite (dir // "config.txt") (Text (namespace_str cfg));
               EvWrite (dir // "config.pkl") (Pickle cfg);
               EvTrain cfg dir None;
               EvWrite (dir // "completed") (Text "")] ∧
     node_at (fs w') (dir // "completed") = Some (File (Text ""))).
Proof.
  intros dir Habsent Hrun. unfold do_run in Hrun.
  fold (log_dir base idx) in Hrun. fold dir in Hrun.
  rewrite (bind_done _ _ w false w) in Hrun
    by (apply exists_absent; by apply node_at_below_absent).
  rewrite (bind_done _ _ w false w) in Hrun by (by apply exists_absent).
  rewrite (bind_done _ _ w () w) in Hrun by done.
  apply bind_inv in Hrun as [(? & ? & Hm & Hrun)|(? & Hm & ->)];
    apply SummaryWriter_inv in Hm as [(n1 & Hmk & ? & ->)|(-> & ? & ?)];
    simplify_eq; [|grown].
  apply bind_inv in Hrun as [(? & ? & Hm & Hrun)|(? & Hm & ->)];
    apply open_write_inv in Hm as [(n2 & Htxt & ? & ->)|(-> & ? & ?)];
    simplify_eq; [|grown].
  apply bind_inv in Hrun as [(? & ? & Hm & Hrun)|(? & Hm & ->)];
    apply open_write_inv in Hm as [(n3 & Hpkl & ? & ->)|(-> & ? & ?)];
    simplify_eq; [|grown].
  do 6 (pure_step Hrun; [|grown]).
  apply bind_inv in Hrun as [(m & ? & Hm & Hrun)|(? & Hm & ->)];
    [ pose proof (make_model_cfg _ _ _ _ _ Hm) | ];
    (apply pure_inv in Hm; [|apply _..]); subst; [|grown].
  pure_step Hrun; [|grown].
  apply bind_inv in Hrun as [(? & ? & Hm & Hrun)|(? & Hm & ->)];
    apply model_learn_inv in Hm as [-> Hr];
    destruct (learn ext (model_cfg m) dir _) as [n4 [e|]] eqn:Hl;
    cbn [fst snd] in *; simplify_eq; [|grown].
  apply open_write_inv in Hrun as [(n5 & Hdone & -> & ->)|(-> & ? & ->)]; [|grown].
  eexists. split.
  - unfold after. cbn [history fs]. rewrite <- !app_assoc. cbn [app]. reflexivity.
  - intros _. split; [reflexivity|]. cbn [fs after]. by eapply node_at_write.
Qed.

(** Claim C3.  When the job directory exists without the marker, [do_run]
    first deletes the directory tree, and goes on exactly as it does from the
    tree without that directory: the result and the final tree do not depend
    on what the directory held.  The deletion is the first thing it does;
    a run that returns has then created the directory anew, written both
    forms of the configuration it was given, trained that configuration in
    the directory and written the marker, in this order and nothing else;
    and the run does return whenever the configuration is complete, the
    constructors of the libraries return and the trainer returns leaving the
    directory in place without a marker. *)
Theorem do_run_clears_stale_directory base cfg idx w :
  let dir := log_dir base idx in
  let cleared := after w (EvRmtree dir) (remove (fs w) dir) in
  is_dir (fs w) dir = true →
  path_exists (fs w) (marker base idx) = false →
  path_exists (fs cleared) dir = false ∧
  do_run ext base cfg idx w = do_run ext base cfg idx cleared ∧
  (∀ w2,
    is_dir (fs w2) dir = true →
    path_exists (fs w2) (marker base idx) = false →
    remove (fs w2) dir = remove (fs w) dir →
    (do_run ext base cfg idx w2).1 = (do_run ext base cfg idx w).1 ∧
    fs (do_run ext base cfg idx w2).2 = fs (do_run ext base cfg idx w).2) ∧
  (∀ r w', do_run ext base cfg idx w = (r, w') →
    ∃ evs, history w' = history w ++ (EvRmtree dir, remove (fs w) dir) :: evs ∧
      (r = Done () →
       evs.*1 = [EvMkdirs dir;
                 EvWrite (dir // "config.txt") (Text (namespace_str cfg));
                 EvWrite (dir // "config.pkl") (Pickle cfg);
                 EvTrain cfg dir None;
                 EvWrite (dir // "completed") (Text "")] ∧
       node_at (fs w') (marker base idx) = Some (File (Text "")))) ∧
  ((∀ f, is_Some (_cfg !! f) → is_Some (cfg !! f)) →
   (∀ v, cfg !! "n_proc_alg" = Some v → usable_count v = true) →
   (∀ kw, env_init ext kw = None) →
   alg_init ext cfg = None →
   (∀ n, is_dir n dir = true → node_at n (dir // "completed") = None →
         (learn ext cfg dir n).2 = None ∧
         is_dir (learn ext cfg dir n).1 dir = true ∧
         node_at (learn ext cfg dir n).1 (dir // "completed") = None) →
   ∃ w', do_run ext base cfg idx w = (Done (), w')).
Proof.
  intros dir cleared.
  assert (Hgone : node_at (fs cleared) dir = None).
  { pose proof (node_at_remove_below (fs w) dir [] (child_ne_nil _ _)) as H.
    by rewrite app_nil_r in H. }
  assert (Hstep : ∀ w0, is_dir (fs w0) dir = true →
    path_exists (fs w0) (marker base idx) = false →
    do_run ext base cfg idx w0 =
    do_run ext base cfg idx (after w0 (EvRmtree dir) (remove (fs w0) dir))).
  { intros w0 Hdir Hmark.
    assert (Hgone0 : node_at (remove (fs w0) dir) dir = None).
    { pose proof (node_at_remove_below (fs w0) dir [] (child_ne_nil _ _)) as H.
      by rewrite app_nil_r in H. }
    unfold do_run. fold (log_dir base idx). fold dir.
    unfold is_dir in Hdir. destruct (node_at (fs w0) dir) as [[|es]|] eqn:Hl; try done.
    apply path_exists_false in Hmark.
    rewrite (bind_done _ _ w0 false w0) by (by apply exists_absent).
    rewrite (bind_done _ _ w0 true w0) by (apply exists_present; by rewrite Hl).
    rewrite (bind_done _ _ w0 () (after w0 (EvRmtree dir) (remove (fs w0) dir)))
      by (unfold rmtree; by rewrite Hl).
    set (w1 := after w0 (EvRmtree dir) (remove (fs w0) dir)).
    rewrite (bind_done _ _ w1 false w1)
      by (apply exists_absent; by apply node_at_below_absent).
    rewrite (bind_done _ _ w1 false w1) by (by apply exists_absent).
    reflexivity. }
  intros Hdir Hmark. split_and!.
  - by apply path_exists_false.
  - by apply Hstep.
  - intros w2 Hdir2 Hmark2 Heq.
    rewrite (Hstep w Hdir Hmark), (Hstep w2 Hdir2 Hmark2).
    apply (tree_only (m:=do_run ext base cfg idx)). simpl. done.
  - intros r w' Hrun. rewrite (Hstep w Hdir Hmark) in Hrun. fold cleared in Hrun.
    destruct (fresh_run_events base cfg idx cleared r w' Hgone Hrun) as (evs & Hh & Hr).
    exists evs. split; [|done].
    rewrite Hh. unfold cleared, after. cbn [history]. by rewrite <- app_assoc.
  - intros Hdom Hcount Henv Halg Hlearn.
    rewrite (Hstep w Hdir Hmark). fold cleared.
    destruct (fresh_run_returns base cfg idx cleared Hdom Hcount Hgone) as (w' & Hrun & _);
      [|done..|by exists w'].
    unfold cleared, after. cbn [fs].
    apply mkdirs_after_remove; [apply child_ne_nil|done].
Qed.
End Completes.

(** ** A run stays in its directory *)

Section Apart.
Implicit Types (n c : node) (p q : Path) (d : data).

Lemma apart_cons a p q : apart (a :: p) (a :: q) → apart p q.
Proof. intros [H1 H2]. split; intros H; [apply H1|apply H2]; by apply prefix_cons. Qed.

Lemma apart_nil_l q : ¬ apart [] q.
Proof. intros [H _]. apply H, prefix_nil. Qed.

Lemma apart_nil_r p : ¬ apart p [].
Proof. intros [_ H]. apply H, prefix_nil. Qed.

Lemma apart_child p q a : apart p q → apart (p // a) q.
Proof.
  intros [H1 H2]. unfold child. split.
  - intros [k Hk]. apply H1. exists ([a] ++ k). by rewrite Hk, <- app_assoc.
  - intros [H|H]%prefix_snoc_inv; [|done]. apply H1. rewrite H. by apply prefix_app_r.
Qed.

Lemma remove_apart n p q : apart p q → node_at (remove n p) q = node_at n q.
Proof.
  revert n q. induction p as [|a p IH]; intros n q Hap.
  - by destruct (apart_nil_l q).
  - destruct n as [?|es]; [by destruct p|].
    destruct q as [|b q]; [by destruct (apart_nil_r (a :: p))|].
    destruct (decide (a = b)) as [->|Hne].
    + apply apart_cons in Hap. destruct p as [|a' p]; [by destruct (apart_nil_l q)|].
      change (alter (λ c, remove c (a' :: p)) b es !! b ≫= (λ c, node_at c q) =
              es !! b ≫= λ c, node_at c q).
      rewrite lookup_alter_eq. destruct (es !! b) as [c|]; [|done]. simpl. by apply IH.
    + destruct p as [|a' p].
      * simpl. by rewrite lookup_delete_ne.
      * change (alter (λ c, remove c (a' :: p)) a es !! b ≫= (λ c, node_at c q) =
                es !! b ≫= λ c, node_at c q).
        by rewrite lookup_alter_ne.
Qed.

Lemma mkdirs_apart n n' p q :
  mkdirs n p = Some n' → apart p q → node_at n' q = node_at n q.
Proof.
  revert n n' q. induction p as [|a p IH]; intros n n' q Hmk Hap.
  - by destruct (apart_nil_l q).
  - destruct n as [?|es]; [done|]. simpl in Hmk.
    destruct (mkdirs (default (Dir ∅) (es !! a)) p) as [c'|] eqn:Hc; simplify_eq/=.
    destruct q as [|b q]; [by destruct (apart_nil_r (a :: p))|]. simpl.
    destruct (decide (a = b)) as [->|Hne]; [|by rewrite lookup_insert_ne].
    apply apart_cons in Hap. rewrite lookup_insert_eq. simpl.
    rewrite (IH _ _ _ Hc Hap).
    destruct (es !! b) as [c|]; [done|]. simpl.
    apply node_at_empty_dir. intros ->. by destruct (apart_nil_r p).
Qed.

Lemma write_apart n n' p d q :
  write n p d = inr n' → apart p q → node_at n' q = node_at n q.
Proof.
  revert n n' q. induction p as [|a p IH]; intros n n' q Hw Hap.
  - by destruct (apart_nil_l q).
  - destruct n as [?|es]; [done|].
    destruct q as [|b q]; [by destruct (apart_nil_r (a :: p))|].
    destruct p as [|a' p].
    + simpl in Hw.
      assert (n' = Dir (<[a := File d]> es)) as ->
        by (by destruct (es !! a) as [[]|]; simplify_eq).
      simpl. destruct (decide (a = b)) as [->|Hne]; [|by rewrite lookup_insert_ne].
      apply apart_cons in Hap. by destruct (apart_nil_l q).
    + simpl in Hw. destruct (es !! a) as [c|] eqn:Ha; [|done].
      destruct c as [|es']; [done|].
      change (match write (Dir es') (a' :: p) d with
              | inr c' => inr (Dir (<[a := c']> es))
              | inl e => inl e end = inr n') in Hw.
      destruct (write (Dir es') (a' :: p) d) as [|c'] eqn:Hw'; simplify_eq.
      simpl. destruct (decide (a = b)) as [->|Hne]; [|by rewrite lookup_insert_ne].
      apply apart_cons in Hap. rewrite lookup_insert_eq, Ha. simpl.
      by apply (IH _ _ _ Hw').
Qed.
End Apart.

Section Stays.
Context (ext : External) (q : Path).

#[global] Instance leaves_pure {A} (m : M A) : Pure m → Leaves q m | 10.
Proof. intros Hm w. by rewrite (Hm w). Qed.
#[global] Instance leaves_bind {A B} (m : M A) (k : A → M B) :
  Leaves q m → (∀ a, Leaves q (k a)) → Leaves q (m ≫= k) | 5.
Proof.
  intros Hm Hk w. unfold mbind, M_bind. specialize (Hm w).
  destruct (m w) as [[a|e] w1]; [|done]. cbn [snd] in Hm. by rewrite (Hk a w1).
Qed.
#[global] Instance leaves_if {A} (b : bool) (m1 m2 : M A) :
  Leaves q m1 → Leaves q m2 → Leaves q (if b then m1 else m2) | 5.
Proof. by destruct b. Qed.

Lemma leaves_rmtree p : apart p q → Leaves q (rmtree p).
Proof.
  intros Hp w. unfold rmtree, effect, after.
  destruct (node_at (fs w) p) as [[]|]; [done| |done]. by apply remove_apart.
Qed.

Lemma leaves_SummaryWriter p : apart p q → Leaves q (SummaryWriter p).
Proof.
  intros Hp w. unfold SummaryWriter, effect, after.
  destruct (mkdirs (fs w) p) eqn:Hmk; [|done]. by eapply mkdirs_apart.
Qed.

Lemma leaves_open_write p d : apart p q → Leaves q (open_write p d).
Proof.
  intros Hp w. unfold open_write, effect, after.
  destruct (write (fs w) p d) eqn:Hw; [done|]. by eapply write_apart.
Qed.

Lemma leaves_model_learn m dir :
  learn_local ext → apart dir q → Leaves q (model_learn ext m dir).
Proof.
  intros Hl Hp w. unfold model_learn, effect, after.
  specialize (Hl (model_cfg m) dir (fs w) q Hp).
  by destruct (learn ext (model_cfg m) dir (fs w)) as [n [e|]].
Qed.

(** Property X8.
    A run stays in its directory: whatever lies neither in the job
    directory nor above it is after [do_run] what it was before -- present
    with the same content, or absent -- whether the run returns or raises,
    the trainer writing nowhere but in the directory it logs into. *)
Theorem do_run_stays_in_its_directory base cfg idx w :
  learn_local ext →
  apart (log_dir base idx) q →
  node_at (fs (do_run ext base cfg idx w).2) q = node_at (fs w) q.
Proof.
  intros Hl Hp. revert w. change (Leaves q (do_run ext base cfg idx)).
  unfold do_run. fold (log_dir base idx).
  pose proof (leaves_rmtree _ Hp).
  pose proof (leaves_SummaryWriter _ Hp).
  pose proof (λ a d, leaves_open_write _ d (apart_child _ _ a Hp)) as Hwrite.
  pose proof (λ m, leaves_model_learn m _ Hl Hp) as Hlearn.
  repeat first [ apply leaves_bind; [|intros ?] | apply leaves_if
               | by apply Hlearn | by apply Hwrite | apply _ ].
Qed.
End Stays.

(** ** Building and dispatching the jobs *)

Section Jobs.
Context (ext : External).
Implicit Types (cfg : Namespace) (w : world) (jobs : list job).

Lemma tokens_rendered cfg props w :
  Forall (λ p, is_Some (cfg !! p)) props →
  map_m (λ prop, v ← getattr cfg prop; mret (str v)) props w =
  (Done (rendered cfg props), w).
Proof.
  induction 1 as [|p props [v Hv] _ IH]; [done|].
  cbn [map_m]. unfold rendered. cbn [fmap list_fmap].
  rewrite (bind_done _ _ w (str v) w)
    by (by rewrite (bind_done _ _ _ _ _ (getattr_done cfg p v w Hv))).
  rewrite (bind_done _ _ _ _ _ IH). by rewrite Hv.
Qed.

Lemma tokens_missing cfg props w :
  ¬ Forall (λ p, is_Some (cfg !! p)) props →
  map_m (λ prop, v ← getattr cfg prop; mret (str v)) props w =
  (Raised "AttributeError", w).
Proof.
  induction props as [|p props IH]; intros Hn; [by destruct Hn|].
  cbn [map_m]. destruct (cfg !! p) as [v|] eqn:Hp.
  - rewrite (bind_done _ _ w (str v) w)
      by (by rewrite (bind_done _ _ _ _ _ (getattr_done cfg p v w Hp))).
    apply bind_raised, IH. intros H. apply Hn. constructor; [by rewrite Hp|done].
  - apply bind_raised. by rewrite (bind_raised _ _ _ _ _ (getattr_raised cfg p w Hp)).
Qed.

Lemma length_range T : length (range T) = Z.to_nat T.
Proof. unfold range. by rewrite length_fmap, length_seq. Qed.

Lemma lookup_range T i z : range T !! i = Some z → z = Z.of_nat i ∧ (0 ≤ z < T)%Z.
Proof.
  unfold range. rewrite list_lookup_fmap.
  destruct (seq 0 (Z.to_nat T) !! i) as [k|] eqn:Hk; [|done].
  apply lookup_seq in Hk as [-> Hlt]. simpl. intros [= <-]. lia.
Qed.

(** Property X10.
    [run_trials] raises [AttributeError] when the configuration lacks one
    of the naming attributes, and builds nothing then.  Otherwise it returns
    [num_trials] jobs (none for a count of zero or less), all on the
    configuration it was given and in one directory, that of the base joined
    with the [_]-joined [str] of the naming attributes; the i-th job is trial
    [i].  Nothing is run or written while the jobs are built. *)
Theorem run_trials_jobs base cfg props T w :
  (Forall (λ p, is_Some (cfg !! p)) props ∧
   ∃ jobs,
     run_trials base cfg props T w = (Done jobs, w) ∧
     length jobs = Z.to_nat T ∧
     ∀ i j, jobs !! i = Some j →
       j = (joinpath base (join "_" (rendered cfg props)), cfg, Z.of_nat i)) ∨
  (¬ Forall (λ p, is_Some (cfg !! p)) props ∧
   run_trials base cfg props T w = (Raised "AttributeError", w)).
Proof.
  destruct (decide (Forall (λ p, is_Some (cfg !! p)) props)) as [Hall|Hn]; [left|right].
  - split; [done|]. eexists. split_and!.
    + unfold run_trials. by rewrite (bind_done _ _ _ _ _ (tokens_rendered cfg props w Hall)).
    + by rewrite length_fmap, length_range.
    + intros i j. rewrite list_lookup_fmap.
      destruct (range T !! i) as [z|] eqn:Hz; [|done].
      apply lookup_range in Hz as [-> _]. by intros [= <-].
  - split; [done|]. unfold run_trials. by apply bind_raised, tokens_missing.
Qed.

(** The inner loop of [run_experiments] over the override-sets of a module. *)
Lemma fold_configs out_path T (configs : list dict) (acc : M (list job)) jobs w :
  acc w = (Done jobs, w) →
  Forall (λ config, NoDup (keys config)) configs →
  foldl (λ acc config,
           jobs ← acc;
           let cfg := merge _cfg config in
           more ← run_trials out_path cfg (keys config) T;
           mret (jobs ++ more))
        acc configs w =
  (Done (jobs ++ (config ← configs;
                  trials (joinpath out_path (join "_" (renderings config)))
                         (merge _cfg config) T)), w).
Proof.
  intros Hacc Hnd. revert acc jobs Hacc.
  induction Hnd as [|config configs Hc _ IH]; intros acc jobs Hacc.
  - simpl. by rewrite app_nil_r.
  - cbn [foldl].
    rewrite (IH _ (jobs ++ trials (joinpath out_path (join "_" (renderings config)))
                                  (merge _cfg config) T)).
    + cbn [mbind list_bind]. by rewrite <- app_assoc.
    + rewrite (bind_done _ _ _ _ _ Hacc). cbv zeta.
      by rewrite (bind_done _ _ _ _ _ (run_trials_merged _ config _cfg T w Hc)).
Qed.

Lemma build_jobs_prefix pre (configss : list (list dict)) rest T out jobs w :
  Forall2 (yields ext) pre configss →
  build_jobs ext (pre ++ rest) T out jobs w =
  build_jobs ext rest T out (jobs ++ concat (zip_with (jobs_of out T) pre configss)) w.
Proof.
  intros Hpre. revert jobs.
  induction Hpre as [|path configs pre configss [Hgen Hnd] _ IH]; intros jobs.
  - simpl. by rewrite app_nil_r.
  - cbn [app build_jobs].
    rewrite (bind_done _ _ w configs w)
      by (unfold lift; fold (module_name path); by rewrite Hgen).
    rewrite (bind_done _ _ _ _ _ (fold_configs _ T configs (mret jobs) jobs w eq_refl Hnd)).
    rewrite IH. cbn [zip_with concat]. unfold jobs_of at 2, config_name.
    by rewrite <- app_assoc.
Qed.

Lemma length_jobs_of out T path (configs : list dict) :
  length (jobs_of out T path configs) = (length configs * Z.to_nat T)%nat.
Proof.
  unfold jobs_of. induction configs as [|config configs IH]; [done|].
  cbn [mbind list_bind length]. rewrite length_app, IH.
  unfold trials. by rewrite length_fmap, length_range.
Qed.

Lemma length_all_jobs out T paths (configss : list (list dict)) :
  length paths = length configss →
  length (concat (zip_with (jobs_of out T) paths configss)) =
  (length (concat configss) * Z.to_nat T)%nat.
Proof.
  revert configss. induction paths as [|path paths IH]; intros [|configs configss] Hlen;
    simplify_eq/=; [done|].
  rewrite !length_app, length_jobs_of, IH by done. lia.
Qed.

(** Property X11.
    When every module yields its override-sets, the jobs [run_experiments]
    dispatches are those of the modules in the order given, of the
    override-sets of a module in the order generated, [num_trials] trials
    each: as many jobs as override-sets times trials.  Building them runs
    and writes nothing. *)
Theorem run_experiments_jobs paths (configss : list (list dict)) T n_jobs out w :
  Forall2 (yields ext) paths configss →
  build_jobs ext paths T out [] w =
    (Done (concat (zip_with (jobs_of out T) paths configss)), w) ∧
  length (concat (zip_with (jobs_of out T) paths configss)) =
    (length (concat configss) * Z.to_nat T)%nat ∧
  run_experiments ext paths T n_jobs out w =
    execute ext (concat (zip_with (jobs_of out T) paths configss)) n_jobs w.
Proof.
  intros Hall.
  assert (build_jobs ext paths T out [] w =
    (Done (concat (zip_with (jobs_of out T) paths configss)), w)) as Hbuild.
  { pose proof (build_jobs_prefix paths configss [] T out [] w Hall) as H.
    by rewrite app_nil_r in H. }
  split_and!; [done| |].
  - apply length_all_jobs. by eapply Forall2_length.
  - unfold run_experiments. by rewrite (bind_done _ _ _ _ _ Hbuild).
Qed.

(** Property X12.
    When a module fails to import or to generate its override-sets,
    [run_experiments] raises that exception before any job has run, also the
    jobs of the modules listed before it: the world is left as it is. *)
Theorem run_experiments_import_failure pre (configss : list (list dict)) bad post
    e T n_jobs out w :
  Forall2 (yields ext) pre configss →
  generate_configs ext (module_name bad) = Raised e →
  run_experiments ext (pre ++ bad :: post) T n_jobs out w = (Raised e, w).
Proof.
  intros Hpre Hbad. unfold run_experiments. apply bind_raised.
  rewrite (build_jobs_prefix _ _ _ _ _ _ _ Hpre). cbn [build_jobs].
  apply bind_raised. unfold lift. fold (module_name bad). by rewrite Hbad.
Qed.

Lemma for_each_app {A} (f : A → M unit) (l1 l2 : list A) w w1 :
  for_each f l1 w = (Done (), w1) →
  for_each f (l1 ++ l2) w = for_each f l2 w1.
Proof.
  revert w. induction l1 as [|x l1 IH]; intros w Hrun.
  - simpl in Hrun. unfold mret, M_ret in Hrun. by simplify_eq.
  - cbn [app for_each] in *.
    apply bind_inv in Hrun as [([] & w0 & Hx & Hrun)|(? & _ & ?)]; [|done].
    rewrite (bind_done _ _ _ _ _ Hx). by apply IH.
Qed.

(** Property X13.
    On one worker the jobs run one after the other, and the first job that
    raises ends the batch: its exception is the one of [run_experiments]'s
    dispatch, and no later job is started. *)
Theorem execute_stops_at_first_failure (pre : list job) j post w w1 e w2 :
  for_each (call ext) pre w = (Done (), w1) →
  call ext j w1 = (Raised e, w2) →
  execute ext (pre ++ j :: post) 1 w = (Raised e, w2).
Proof.
  intros Hpre Hj. unfold execute.
  rewrite (bool_decide_eq_true_2 (1 = 1)%Z) by done. rewrite orb_true_r.
  rewrite (for_each_app _ _ _ _ _ Hpre). cbn [for_each].
  by apply bind_raised.
Qed.
End Jobs.

(** ** From the path of a configuration module to its names *)

Section PathNames.
Implicit Types (c a : ascii) (s t dir name : string).

Lemma split_on_sep_two c s t : ∃ x y l, split_on c (s +:+ String c t) = x :: y :: l.
Proof.
  induction s as [|a s (x & y & l & IH)]; simpl.
  - rewrite decide_True by done.
    destruct (split_on c t) as [|y l] eqn:E; [by apply split_on_nonempty in E|]. eauto.
  - rewrite IH. case_decide; eauto.
Qed.

Lemma last_split_on_sep c s t d :
  List.last (split_on c (s +:+ String c t)) d = List.last (split_on c t) d.
Proof.
  induction s as [|a s IH]; simpl.
  - rewrite decide_True by done.
    by destruct (split_on c t) as [|y l] eqn:E; [apply split_on_nonempty in E|].
  - rewrite <- IH. destruct (split_on_sep_two c s t) as (x & y & l & ->).
    by case_decide.
Qed.

Lemma substring_prefix s t : String.substring 0 (String.length s) (s +:+ t) = s.
Proof.
  induction s as [|a s IH]; simpl; [by destruct t|]. by rewrite IH.
Qed.

Lemma length_append s t :
  String.length (s +:+ t) = (String.length s + String.length t)%nat.
Proof. induction s as [|a s IH]; simpl; [done|]. by rewrite IH. Qed.

Lemma drop_last_suffix s t : drop_last (String.length t) (s +:+ t) = s.
Proof.
  unfold drop_last. rewrite length_append.
  replace (String.length s + String.length t - String.length t)%nat
    with (String.length s) by lia.
  apply substring_prefix.
Qed.

Lemma append_assoc s t u : (s +:+ t) +:+ u = s +:+ (t +:+ u).
Proof.
  induction s as [|a s IH]; [reflexivity|].
  change (String a ((s +:+ t) +:+ u) = String a (s +:+ t +:+ u)). by f_equal.
Qed.

Lemma append_cons a s t : String a s +:+ t = String a (s +:+ t).
Proof. reflexivity. Qed.

Lemma rstrip_app c s t : t ≠ "" → rstrip c t = t → rstrip c (s +:+ t) = s +:+ t.
Proof.
  intros Hne Ht. induction s as [|a s IH]; [exact Ht|].
  rewrite append_cons. cbn [rstrip]. rewrite IH.
  destruct (s +:+ t) eqn:E; [|done].
  destruct s; [by destruct Hne|discriminate].
Qed.

Lemma replace_app a b s t : replace a b (s +:+ t) = replace a b s +:+ replace a b t.
Proof.
  induction s as [|x s IH]; [reflexivity|].
  rewrite append_cons. cbn [replace]. by rewrite IH.
Qed.

Lemma replace_no_char a b s : has_char a s = false → replace a b s = s.
Proof.
  induction s as [|x s IH]; simpl; [done|].
  intros [Hx Hs]%orb_false_iff. apply bool_decide_eq_false in Hx.
  rewrite decide_False by done. by rewrite IH.
Qed.

(** Property X14.
    The names [run_experiments] derives from the path [dir/name.py] of a
    configuration module: the output directory is named [name], the module
    imported is [dir] with its slashes turned into dots, then [.name].  The
    last three characters are dropped whatever they are; and a path that ends
    in a slash gives the empty name, so that its jobs are logged into the
    output directory itself. *)
Theorem config_path_names dir name :
  has_char "/" name = false →
  config_name (dir +:+ "/" +:+ name +:+ ".py") = name ∧
  module_name (dir +:+ "/" +:+ name +:+ ".py") = replace "/" "." dir +:+ "." +:+ name ∧
  config_name (name +:+ ".py") = name ∧
  module_name (name +:+ ".py") = name ∧
  config_name (dir +:+ "/" +:+ name) = drop_last 3 name ∧
  config_name (dir +:+ "/") = "" ∧
  ∀ out, joinpath out (config_name (dir +:+ "/")) = out.
Proof.
  intros Hname.
  assert (Hpy : has_char "/" (name +:+ ".py") = false)
    by (by rewrite has_char_app, Hname).
  assert (Hlast : ∀ t, has_char "/" t = false →
            config_name (dir +:+ "/" +:+ t) = drop_last 3 t).
  { intros t Ht. unfold config_name.
    change (dir +:+ "/" +:+ t) with (dir +:+ String "/" t).
    by rewrite last_split_on_sep, split_on_no_char. }
  assert (Hslash : config_name (dir +:+ "/") = "").
  { unfold config_name. change (dir +:+ "/") with (dir +:+ String "/" "").
    by rewrite last_split_on_sep. }
  split_and!.
  - rewrite Hlast by done. apply (drop_last_suffix name ".py").
  - unfold module_name.
    assert (dir +:+ "/" +:+ name +:+ ".py" = (dir +:+ String "/" name) +:+ ".py") as ->
      by (by rewrite append_assoc).
    rewrite rstrip_app by done.
    rewrite replace_app. change (replace "/" "." ".py") with ".py".
    rewrite (drop_last_suffix _ ".py"), replace_app.
    cbn [replace]. rewrite decide_True by done. by rewrite (replace_no_char _ _ name).
  - unfold config_name. rewrite split_on_no_char by done.
    apply (drop_last_suffix name ".py").
  - unfold module_name. rewrite rstrip_app by done.
    rewrite replace_app. change (replace "/" "." ".py") with ".py".
    rewrite (drop_last_suffix _ ".py"). by apply replace_no_char.
  - by apply Hlast.
  - done.
  - intros out. rewrite Hslash. unfold joinpath, parts. simpl. apply app_nil_r.
Qed.
End PathNames.

(** ** More on [expand_paths] *)

Section ScannerMore.
Implicit Types (n c : node) (p q root : Path) (es : gmap string node).

Lemma node_at_app_Some n p q c :
  node_at n (p ++ q) = Some c ↔ ∃ c', node_at n p = Some c' ∧ node_at c' q = Some c.
Proof.
  rewrite node_at_app. destruct (node_at n p) as [c'|]; simpl.
  - split; [by eauto|]. by intros (? & ? & ?); simplify_eq.
  - split; [done|]. by intros (? & ? & ?).
Qed.

Lemma expand_paths_spec tree s p :
  p ∈ expand_paths tree s ↔
  ∃ q c, p = of_string s ++ q ∧ node_at tree p = Some c ∧ is_artifact c.
Proof.
  unfold expand_paths. destruct (node_at tree (of_string s)) as [n|] eqn:Hroot.
  - rewrite expand_node_spec. split.
    + intros (q & c & -> & Hq & Hc). exists q, c. split_and!; [done| |done].
      apply node_at_app_Some. eauto.
    + intros (q & c & -> & Hq & Hc). exists q, c. split_and!; [done| |done].
      apply node_at_app_Some in Hq as (c' & ? & ?). by simplify_eq.
  - rewrite elem_of_nil. split; [done|].
    intros (q & c & -> & Hq & _). apply node_at_app_Some in Hq as (c' & ? & _).
    by simplify_eq.
Qed.

(** Property X15.
    A target that lies at or below another target adds nothing new: every
    artifact found from it is found from the other one as well, and so is
    listed -- and evaluated by [aggregate_results] -- once for each. *)
Theorem expand_paths_nested_targets tree s1 s2 :
  of_string s1 `prefix_of` of_string s2 →
  expand_paths tree s2 ⊆ expand_paths tree s1 ∧
  (expand_paths tree s2 ≠ [] → ¬ NoDup (p ← [s1; s2]; expand_paths tree p)).
Proof.
  intros [k Hk].
  assert (Hsub : expand_paths tree s2 ⊆ expand_paths tree s1).
  { intros p (q & c & -> & Hq & Hc)%expand_paths_spec. apply expand_paths_spec.
    exists (k ++ q), c. rewrite Hk, <- app_assoc in *. done. }
  split; [done|]. intros Hne Hnd. cbn [mbind list_bind] in Hnd.
  rewrite app_nil_r in Hnd. apply NoDup_app in Hnd as (_ & Hdis & _).
  destruct (expand_paths tree s2) as [|p l] eqn:E; [done|].
  apply (Hdis p); [apply Hsub|]; left.
Qed.

Lemma map_fold_app_child {A} (g : string → node → list A) es name c :
  es !! name = Some c →
  ∃ l1 l3, map_fold (λ name c acc, g name c ++ acc) [] es = l1 ++ g name c ++ l3.
Proof.
  revert name c.
  apply (map_fold_weak_ind (λ r m, ∀ name c, m !! name = Some c →
                                   ∃ l1 l3, r = l1 ++ g name c ++ l3)).
  - intros name c. by rewrite lookup_empty.
  - intros i x m r Hi IH name c Hc. destruct (decide (i = name)) as [->|Hne].
    + rewrite lookup_insert_eq in Hc. simplify_eq. by exists [], r.
    + rewrite lookup_insert_ne in Hc by done.
      destruct (IH name c Hc) as (l1 & l3 & ->).
      exists (g i x ++ l1), l3. by rewrite <- app_assoc.
Qed.

Lemma before_middle {A} (x y : A) l1 l l3 : before x y l → before x y (l1 ++ l ++ l3).
Proof.
  intros (k1 & k2 & k3 & ->). exists (l1 ++ k1), k2, (k3 ++ l3).
  rewrite <- !app_assoc. f_equal. f_equal. simpl. f_equal.
  rewrite <- !app_assoc. done.
Qed.

Lemma expand_node_before n root p q :
  q ≠ [] → p ∈ expand_node root n → p ++ q ∈ expand_node root n →
  before p (p ++ q) (expand_node root n).
Proof.
  intros Hq. revert root p.
  induction n as [d|es IH] using node_ind'; intros root p Hp Hpq.
  { simpl in Hp. by apply elem_of_nil in Hp. }
  cbn [expand_node] in *.
  set (children := map_fold (λ name c acc, expand_node (root // name) c ++ acc) [] es) in *.
  assert (Hlong : ∀ x y, x ∈ children → x ++ y ≠ root).
  { intros x y (name & c & _ & (k & ->)%expand_node_below)%elem_of_map_fold_app Heq.
    apply (f_equal length) in Heq. unfold child in Heq.
    rewrite !length_app in Heq. simpl in Heq. lia. }
  assert (Hdeep : p ++ q ∈ children).
  { apply elem_of_app in Hpq as [Hhd|?]; [|done].
    case_bool_decide; [|by apply elem_of_nil in Hhd].
    apply list_elem_of_singleton in Hhd.
    apply elem_of_app in Hp as [Hp|Hp].
    - apply list_elem_of_singleton in Hp. subst p.
      apply (f_equal length) in Hhd. rewrite length_app in Hhd.
      destruct q; [done|simpl in Hhd; lia].
    - by destruct (Hlong p q Hp). }
  apply elem_of_app in Hp as [Hp|Hp].
  - case_bool_decide; [|by apply elem_of_nil in Hp].
    apply list_elem_of_singleton in Hp. subst p.
    apply list_elem_of_split in Hdeep as (l2 & l3 & ->).
    by exists [], l2, l3.
  - apply elem_of_map_fold_app in Hp as (name & c & Hc & Hp).
    apply elem_of_map_fold_app in Hdeep as (name' & c' & Hc' & Hpq').
    destruct (expand_node_below _ _ _ Hp) as (x & Hx).
    destruct (expand_node_below _ _ _ Hpq') as (y & Hy).
    assert (name' = name) as ->.
    { rewrite Hx in Hy. unfold child in Hy. rewrite <- !app_assoc in Hy.
      apply app_inv_head in Hy. by simplify_eq/=. }
    simplify_eq.
    destruct (map_fold_app_child (λ name c, expand_node (root // name) c) es name c Hc)
      as (l1 & l3 & Heq).
    fold children in Heq. rewrite Heq.
    pose proof (IH name c Hc (root // name) _ Hp Hpq') as Hb.
    apply (before_middle _ _ ((if bool_decide (size (({["best.pt"; "config.pkl"]} : gset string) ∩ dom es) = 2%nat)
                               then [root] else []) ++ l1) _ l3) in Hb.
    by rewrite <- (app_assoc _ l1) in Hb.
Qed.

(** Property X16.
    An artifact directory is listed before the artifacts nested in it. *)
Theorem expand_paths_parents_first tree s p q :
  q ≠ [] →
  p ∈ expand_paths tree s → p ++ q ∈ expand_paths tree s →
  before p (p ++ q) (expand_paths tree s).
Proof.
  unfold expand_paths. destruct (node_at tree (of_string s)) as [n|].
  - apply expand_node_before.
  - by intros _ ?%elem_of_nil.
Qed.
End ScannerMore.

(** ** More on the extraction and the aggregation *)

Section ExtractionMore.
Context (ext : External).
Implicit Types (w : world) (cfg : Namespace).



Lemma contents_columns sid m d cfg name :
  is_Some (contents sid m d cfg !! name) ↔
  is_Some (cfg !! name) ∨ is_Some (entropies m !! name) ∨ name ∈ metric_columns.
Proof.
  unfold contents, metric_columns.
  rewrite lookup_union_is_Some, !lookup_insert_is_Some', lookup_union_is_Some,
          !lookup_insert_is_Some', lookup_empty, !elem_of_cons, elem_of_nil.
  rewrite is_Some_alt. naive_solver.
Qed.

(** Property X18.
    The row an extraction returns has the fields of the stored
    configuration, patched, with their values: a field of the configuration
    takes the place of a computed column of the same name.  Its columns are
    those fields, the entropy statistics and the six computed columns; the
    variant is recorded unless a field is named [discretize]. *)
Theorem collect_metrics_row path out d w row w' :
  collect_metrics ext path out d w = (Done row, w') →
  ∃ cfg m,
    node_at (fs w) (path // "config.pkl") = Some (File (Pickle cfg)) ∧
    (∀ name v, patch_old_configs cfg !! name = Some v → row !! name = Some v) ∧
    (∀ name, is_Some (row !! name) ↔
             is_Some (patch_old_configs cfg !! name) ∨
             is_Some (entropies m !! name) ∨ name ∈ metric_columns) ∧
    (patch_old_configs cfg !! "discretize" = None →
     row !! "discretize" = Some (VBool d)).
Proof.
  intros Hrun. apply (collect_metrics_inv ext path out d) in Hrun as (_ & Hex & _).
  destruct Hex as (cfg & state & m & Hpkl & _ & _ & ->).
  exists cfg, m. split_and!; [done| | |].
  - intros name v. apply contents_cfg.
  - intros name. apply contents_columns.
  - apply contents_discretize.
Qed.
End ExtractionMore.

Section AggregationMore.
Context (ext : External).
Implicit Types (w : world) (n c : node) (p q : Path).

Lemma write_keeps_file n n' p d q x :
  write n p d = inr n' → q ≠ p →
  node_at n q = Some (File x) → node_at n' q = Some (File x).
Proof.
  revert n n' q. induction p as [|a p IH]; intros n n' q Hw Hne Hq.
  - by destruct n.
  - destruct n as [?|es]; [done|].
    destruct q as [|b q]; [done|].
    destruct p as [|a' p].
    + simpl in Hw, Hq. destruct (decide (a = b)) as [->|Hab].
      * destruct (es !! b) as [[y|es']|] eqn:Hb; simpl in Hq; simplify_eq.
        destruct q; [done|]. done.
      * assert (n' = Dir (<[a := File d]> es)) as ->
          by (by destruct (es !! a) as [[]|]; simplify_eq).
        simpl. by rewrite lookup_insert_ne.
    + simpl in Hw. destruct (es !! a) as [c|] eqn:Ha; [|done].
      destruct c as [|es']; [done|].
      change (match write (Dir es') (a' :: p) d with
              | inr c' => inr (Dir (<[a := c']> es))
              | inl e => inl e end = inr n') in Hw.
      destruct (write (Dir es') (a' :: p) d) as [|c'] eqn:Hw'; simplify_eq.
      simpl in Hq. simpl. destruct (decide (a = b)) as [->|Hab].
      * rewrite lookup_insert_eq. rewrite Ha in Hq. cbn [mbind option_bind] in *.
        eapply IH; [done| |done]. by intros ->.
      * by rewrite lookup_insert_ne.
Qed.

(** Property X19.
    With no artifact below the targets, [aggregate_results] raises
    [ValueError] -- from [joblib] for a width of zero, from [pd.concat]
    otherwise -- and leaves the world as it is. *)
Theorem aggregate_results_no_artifacts path_strs out n_jobs w :
  (p ← path_strs; expand_paths (fs w) p) = [] →
  aggregate_results ext path_strs out n_jobs w = (Raised "ValueError", w).
Proof.
  intros Hnone. unfold aggregate_results. rewrite Hnone.
  cbn [mbind list_bind app]. unfold Parallel.
  case_bool_decide; [done|]. cbn [map_m].
  by rewrite (bind_done _ _ w [] w).
Qed.

(** Property X20.
    [aggregate_results] looks at the output directory only when it writes
    the table: when that directory is missing, the run never returns, and
    when every extraction returned it has evaluated them all before it
    raises [OSError]. *)
Theorem aggregate_results_needs_out_dir path_strs out n_jobs w r w' :
  is_dir (fs w) out = false →
  aggregate_results ext path_strs out n_jobs w = (r, w') →
  r ≠ Done () ∧ fs w' = fs w ∧
  ∀ rows w1,
    Parallel n_jobs (d ← [true; false];
                     p ← (p ← path_strs; expand_paths (fs w) p);
                     [collect_metrics ext p out d]) w = (Done rows, w1) →
    rows ≠ [] → r = Raised "OSError" ∧ w' = w1.
Proof.
  intros Hdir Hrun. unfold aggregate_results in Hrun.
  set (jobs := d ← [true; false]; p ← (p ← path_strs; expand_paths (fs w) p);
               [collect_metrics ext p out d]) in *.
  assert (Htree : ∀ rows w1, Parallel n_jobs jobs w = (rows, w1) → fs w1 = fs w).
  { intros rows w1. unfold Parallel, jobs. rewrite tasks_pairs.
    case_bool_decide; [intros H0; unfold raise in H0; by simplify_eq|].
    apply map_m_collect_tree. }
  assert (Hcsv : ∀ df w1, fs w1 = fs w →
            to_csv df (out // "data.csv") out w1 = (Raised "OSError", w1)).
  { intros df w1 Hfs. unfold to_csv. by rewrite Hfs, Hdir. }
  apply bind_inv in Hrun as [(rows & w1 & Hrows & Hrun)|(e & Hrows & ->)].
  - pose proof (Htree _ _ Hrows) as Hfs.
    apply bind_inv in Hrun as [(df & w2 & Hdf & Hrun)|(e & Hdf & ->)].
    + assert (df = rows ∧ w2 = w1) as [-> ->].
      { unfold pd_concat in Hdf. destruct rows; [done|].
        unfold mret, M_ret in Hdf. by simplify_eq. }
      rewrite Hcsv in Hrun by done. simplify_eq. split_and!; [done..|].
      intros rows' w1' Hrows' _. rewrite Hrows in Hrows'. by simplify_eq.
    + unfold pd_concat in Hdf. destruct rows; [|done].
      unfold raise in Hdf. simplify_eq. split_and!; [done..|].
      intros rows' w1' Hrows' ?. rewrite Hrows in Hrows'. by simplify_eq.
  - pose proof (Htree _ _ Hrows) as Hfs. split_and!; [done..|].
    intros rows' w1' Hrows' _. rewrite Hrows in Hrows'. by simplify_eq.
Qed.

(** Property X21.
    [aggregate_results] changes no file but the table: every other regular
    file holds afterwards what it held before, whether the run returns or
    raises. *)
Theorem aggregate_results_keeps_files path_strs out n_jobs w r w' q x :
  aggregate_results ext path_strs out n_jobs w = (r, w') →
  q ≠ out // "data.csv" →
  node_at (fs w) q = Some (File x) → node_at (fs w') q = Some (File x).
Proof.
  intros Hrun Hq Hx. unfold aggregate_results in Hrun.
  rewrite tasks_pairs in Hrun. unfold Parallel in Hrun.
  case_bool_decide.
  { unfold mbind, M_bind, raise in Hrun. by simplify_eq. }
  apply bind_inv in Hrun as [(rows & w1 & Hrows & Hrun)|(? & Hrows & ?)];
    apply map_m_collect_tree in Hrows; [|by rewrite Hrows].
  apply bind_inv in Hrun as [(df & w2 & Hdf & Hrun)|(? & Hdf & ?)].
  - assert (w2 = w1) as ->.
    { unfold pd_concat in Hdf. destruct rows; [done|].
      unfold mret, M_ret in Hdf. by simplify_eq. }
    apply to_csv_inv in Hrun as [(_ & n & Hw & ->)|(-> & _)]; [|by rewrite Hrows].
    cbn [fs after]. eapply write_keeps_file; [done..|]. by rewrite Hrows.
  - unfold pd_concat in Hdf. destruct rows; [|done].
    unfold raise in Hdf. simplify_eq. by rewrite Hrows.
Qed.
End AggregationMore.

(** ** From a run to its extraction *)

Section RoundTrip.
Context (ext : External).

(** Property X9.
    The configuration a run records is the one its extraction reads: after
    a run that was not skipped and returned, [config.pkl] holds the pickle of
    the configuration the run was given (the trainer leaving that file
    alone), and any row extracted from the run directory carries the fields
    of that configuration, patched. *)
Theorem do_run_records_config base cfg idx w w' :
  path_exists (fs w) (marker base idx) = false →
  learn_leaves ext (log_dir base idx // "config.pkl") →
  do_run ext base cfg idx w = (Done (), w') →
  node_at (fs w') (log_dir base idx // "config.pkl") = Some (File (Pickle cfg)) ∧
  ∀ out d w2 row w3,
    fs w2 = fs w' →
    collect_metrics ext (log_dir base idx) out d w2 = (Done row, w3) →
    ∀ name v, patch_old_configs cfg !! name = Some v → row !! name = Some v.
Proof.
  intros Hfresh Hleave Hrun.
  assert (Hpkl : node_at (fs w') (log_dir base idx // "config.pkl") =
                 Some (File (Pickle cfg))).
  { remember (Done ()) as r eqn:Heq in Hrun.
    assert (Hr : status r = None) by (by subst). clear Heq.
    unfold do_run in Hrun. fold (log_dir base idx) in Hrun.
    fold (marker base idx) in Hrun. set (dir := log_dir base idx) in *.
    rewrite (bind_done _ _ w false w) in Hrun by (unfold exists_; by rewrite Hfresh).
    do 4 (apply bind_inv in Hrun as [(? & ? & _ & Hrun)|(? & _ & ?)]; [|by subst]).
    apply bind_inv in Hrun as [(? & ? & Hm & Hrun)|(? & _ & ?)]; [|by subst].
    apply open_write_inv in Hm as [(n3 & Hw3 & _ & ->)|(_ & ? & ?)]; [|done].
    do 6 (pure_step Hrun; [|done]).
    apply bind_inv in Hrun as [(m & ? & Hm & Hrun)|(? & _ & ?)]; [|by subst].
    pose proof (make_model_cfg _ _ _ _ _ Hm) as Hcfg.
    (apply pure_inv in Hm; [|apply _..]); subst.
    pure_step Hrun; [|done].
    apply bind_inv in Hrun as [(? & ? & Hm & Hrun)|(? & _ & ?)]; [|by subst].
    apply model_learn_inv in Hm as [-> _].
    apply open_write_inv in Hrun as [(n5 & Hw5 & _ & ->)|(_ & ? & ?)]; [|by subst].
    subst dir. cbn [fs after] in *. unfold child in *.
    rewrite (write_snoc_inv _ _ _ _ _ Hw5 "config.pkl" []) by discriminate.
    apply (Hleave (model_cfg m) (log_dir base idx) n3). by eapply node_at_write. }
  split; [done|].
  intros out d w2 row w3 Hfs Hrow name v.
  apply (collect_metrics_inv ext _ out d) in Hrow as (_ & Hex & _).
  destruct Hex as (cfg' & state & m & Hpkl' & _ & _ & ->).
  rewrite Hfs, Hpkl in Hpkl'. simplify_eq. apply contents_cfg.
Qed.
End RoundTrip.

(** ** More on the summarizer *)

Section SummarizerMore.
Import DiscreteAction.
Context (pd : Pandas).

(** Property X22.
    The summarizer reads the tree and never changes it; it prints exactly
    once when it returns, and nothing at all when it raises. *)
Theorem main_prints_once args path w r w' :
  main pd args path w = (r, w') →
  fs w' = fs w ∧
  (r = Done () → ∃ s, history w' = history w ++ [(EvPrint s, fs w)]) ∧
  (r ≠ Done () → w' = w).
Proof.
  unfold main. intros Hrun.
  assert (Hprint : ∀ s, emit (EvPrint s) w = (r, w') →
    fs w' = fs w ∧
    (r = Done () → ∃ s, history w' = history w ++ [(EvPrint s, fs w)]) ∧
    (r ≠ Done () → w' = w)).
  { intros s Hs. unfold emit, effect, after in Hs. simplify_eq.
    split_and!; [done| |done]. intros _. by exists s. }
  assert (Pure (read_csv (path // "data.csv"))).
  { unfold read_csv. apply pure_bind; [apply _|]. intros []; apply _. }
  do 3 (pure_step Hrun; [|done]).
  apply bind_inv in Hrun as [(op & ? & Hm & Hrun)|(? & Hm & ->)].
  2:{ (apply pure_inv in Hm; [|apply _..]). by subst. }
  (apply pure_inv in Hm; [|apply _..]). subst.
  do 2 (pure_step Hrun; [|done]).
  destruct (truthy _); by eapply Hprint.
Qed.

(** Property X23.
    Without a table to read the summarizer fails with the exception of the
    read, whatever the flags are: [FileNotFoundError] when [data.csv] is
    missing.  With a table, a missing flag attribute is an
    [AttributeError]; the standard-error flag is not read at all when the
    standard deviation is requested. *)
Theorem main_fails_early args path w :
  (node_at (fs w) (path // "data.csv") = None →
   main pd args path w = (Raised "FileNotFoundError", w)) ∧
  (∀ rows groups,
     node_at (fs w) (path // "data.csv") = Some (File (Table rows)) →
     groupby pd rows ["discretize"; "action_scale"] = Done groups →
     (args !! "stddev" = None → main pd args path w = (Raised "AttributeError", w)) ∧
     (∀ v, args !! "stddev" = Some v → truthy v = false → args !! "stderr" = None →
           main pd args path w = (Raised "AttributeError", w)) ∧
     (∀ v table, args !! "stddev" = Some v → truthy v = true →
           reduce pd "std" groups ["steps"; "fractional"; "linf"] = Done table →
           args !! "latex" = None →
           main pd args path w = (Raised "AttributeError", w))).
Proof.
  split.
  - intros H. unfold main. apply bind_raised. unfold read_csv.
    apply bind_raised. unfold open_read. by rewrite H.
  - intros rows groups Hcsv Hgroups.
    assert (Hread : read_csv (path // "data.csv") w = (Done rows, w)).
    { unfold read_csv. rewrite (bind_done _ _ w (Table rows) w); [done|].
      unfold open_read. by rewrite Hcsv. }
    assert (Hgrp : lift (groupby pd rows ["discretize"; "action_scale"]) w = (Done groups, w)).
    { unfold lift. by rewrite Hgroups. }
    unfold main. rewrite (bind_done _ _ _ _ _ Hread), (bind_done _ _ _ _ _ Hgrp).
    split_and!.
    + intros H. apply bind_raised. by apply getattr_raised.
    + intros v Hv Hf Hse. rewrite (bind_done _ _ _ _ _ (getattr_done _ _ _ w Hv)).
      rewrite Hf. apply bind_raised, bind_raised. by apply getattr_raised.
    + intros v table Hv Ht Hred Hl.
      rewrite (bind_done _ _ _ _ _ (getattr_done _ _ _ w Hv)). rewrite Ht.
      rewrite (bind_done _ _ w "std" w) by done.
      rewrite (bind_done _ _ w table w) by (unfold lift; by rewrite Hred).
      apply bind_raised. by apply getattr_raised.
Qed.
End SummarizerMore.

(** ** The borders of the lexicon map *)

Section Borders.
Implicit Types (m : ndarray) (i j : Z) (a b : nat).

Lemma axis_inside (n a : nat) : (a < n)%nat → axis n (Z.of_nat a) = Some a.
Proof.
  intros H. unfold axis. rewrite bool_decide_eq_true_2 by lia.
  by rewrite Nat2Z.id.
Qed.

Lemma axis_outside (n : nat) i : (Z.of_nat n ≤ i)%Z → axis n i = None.
Proof.
  intros H. unfold axis.
  rewrite bool_decide_eq_false_2 by lia. by rewrite bool_decide_eq_false_2 by lia.
Qed.

Lemma getitem_inside m a b :
  (a < shape0 m)%nat → (b < shape1 m)%nat →
  getitem m (Z.of_nat a) (Z.of_nat b) = Done (item m a b).
Proof. intros Ha Hb. unfold getitem. by rewrite !axis_inside. Qed.

Lemma getitem_raises m i j e : getitem m i j = Raised e → e = "IndexError".
Proof.
  unfold getitem. destruct (axis (shape0 m) i), (axis (shape1 m) j); congruence.
Qed.

Lemma half_even a : ((2 * Z.of_nat a) `div` 2 = Z.of_nat a)%Z.
Proof. Z.div_mod_to_equations. lia. Qed.
Lemma half_odd a : ((2 * Z.of_nat a + 1) `div` 2 = Z.of_nat a)%Z.
Proof. Z.div_mod_to_equations. lia. Qed.
Lemma half_odd_pred a : ((2 * Z.of_nat a + 1 - 1) `div` 2 = Z.of_nat a)%Z.
Proof. Z.div_mod_to_equations. lia. Qed.
Lemma half_odd_succ a : ((2 * Z.of_nat a + 1 + 1) `div` 2 = Z.of_nat (a + 1))%Z.
Proof. Z.div_mod_to_equations. lia. Qed.
Lemma rem_even a : ((2 * Z.of_nat a) `mod` 2 = 0)%Z.
Proof. Z.div_mod_to_equations. lia. Qed.
Lemma rem_odd a : ((2 * Z.of_nat a + 1) `mod` 2 = 1)%Z.
Proof. Z.div_mod_to_equations. lia. Qed.

(** Property X24.
    On the doubled grid that [get_lexicon_map] draws, [is_border] is false
    at the place of a cell, whatever the array; between two cells of a
    column, or of a row, it tells whether their values differ; and at a
    crossing it tells whether the cell above-left differs from the one
    below it or from the one to its right. *)
Theorem is_border_grid m a b :
  (∀ i j, (i `mod` 2 = 0)%Z → (j `mod` 2 = 0)%Z → is_border m i j = Done false) ∧
  ((a + 1 < shape0 m)%nat → (b < shape1 m)%nat →
   is_border m (2 * Z.of_nat a + 1) (2 * Z.of_nat b) =
     Done (negb (item m a b =? item m (a + 1) b)%Z)) ∧
  ((a < shape0 m)%nat → (b + 1 < shape1 m)%nat →
   is_border m (2 * Z.of_nat a) (2 * Z.of_nat b + 1) =
     Done (negb (item m a b =? item m a (b + 1))%Z)) ∧
  ((a + 1 < shape0 m)%nat → (b + 1 < shape1 m)%nat →
   is_border m (2 * Z.of_nat a + 1) (2 * Z.of_nat b + 1) =
     Done (negb (item m a b =? item m (a + 1) b)%Z ||
           negb (item m a b =? item m a (b + 1))%Z)).
Proof.
  split_and!.
  - intros i j Hi Hj. unfold is_border, and_then. by rewrite Hi, Hj.
  - intros Ha Hb. unfold is_border, and_then.
    rewrite rem_odd, rem_even, half_odd_pred, half_odd_succ, half_even. cbn [Z.eqb].
    rewrite !getitem_inside by lia. cbn [ne]. by destruct (negb _).
  - intros Ha Hb. unfold is_border, and_then.
    rewrite rem_odd, rem_even, half_odd_pred, half_odd_succ, half_even. cbn [Z.eqb].
    rewrite !getitem_inside by lia. cbn [ne]. by destruct (negb _).
  - intros Ha Hb. unfold is_border, and_then.
    rewrite !rem_odd, !half_odd_pred, !half_odd_succ, !half_odd. cbn [Z.eqb].
    rewrite !getitem_inside by lia. cbn [ne].
    by destruct (negb _), (negb _).
Qed.

(** Property X25.
    Off the grid: at an odd row index whose lower neighbour lies past the
    last row, [is_border] raises [IndexError]; at row [-1] the index wraps
    around, and the last row is compared with the first. *)
Theorem is_border_off_grid m i j b :
  ((i `mod` 2 = 1)%Z → (Z.of_nat (shape0 m) ≤ (i + 1) `div` 2)%Z →
   is_border m i j = Raised "IndexError") ∧
  ((0 < shape0 m)%nat → (b < shape1 m)%nat →
   is_border m (-1) (2 * Z.of_nat b) =
     Done (negb (item m (shape0 m - 1) b =? item m 0 b)%Z)).
Proof.
  split.
  - intros Hodd Hpast. unfold is_border, and_then. rewrite Hodd. cbn [Z.eqb].
    assert (getitem m ((i + 1) `div` 2) (j `div` 2) = Raised "IndexError") as ->.
    { unfold getitem. by rewrite axis_outside. }
    destruct (getitem m ((i - 1) `div` 2) (j `div` 2)) as [x|e] eqn:Hl; [done|].
    by rewrite (getitem_raises _ _ _ _ Hl).
  - intros Ha Hb. unfold is_border, and_then.
    rewrite rem_even, half_even.
    change ((-1) `mod` 2)%Z with 1%Z. change ((-1 - 1) `div` 2)%Z with (-1)%Z.
    change ((-1 + 1) `div` 2)%Z with (Z.of_nat 0). cbn [Z.eqb].
    rewrite (getitem_inside m 0 b) by lia.
    assert (getitem m (-1) (Z.of_nat b) = Done (item m (shape0 m - 1) b)) as ->.
    { unfold getitem. rewrite axis_inside by done. unfold axis.
      rewrite bool_decide_eq_false_2 by lia. rewrite bool_decide_eq_true_2 by lia.
      by replace (Z.to_nat (-1 + Z.of_nat (shape0 m))) with (shape0 m - 1)%nat by lia. }
    cbn [ne]. by destruct (negb _).
Qed.
End Borders.

(** ** The entry point *)

Section Entry.
Context (ext : External) (optimality_test : M unit).

(** Property X26.
    What [main] does at its edges: a command other than [test], [run] and
    [optimal] raises [ValueError] and nothing is done; [test] without
    targets raises [ValueError] as well, no artifact being found; [run]
    without targets returns having done nothing, unless the width is zero,
    which [joblib] refuses. *)
Theorem main_edge_cases args w :
  (command args ∉ ["test"; "run"; "optimal"] →
   Cli.main ext optimality_test args w = (Raised "ValueError", w)) ∧
  (command args = "test" → targets args = [] →
   Cli.main ext optimality_test args w = (Raised "ValueError", w)) ∧
  (command args = "run" → targets args = [] →
   Cli.main ext optimality_test args w =
     (if bool_decide (j args = 0%Z) then Raised "ValueError" else Done (), w)).
Proof.
  unfold Cli.main. split_and!.
  - intros Hc. rewrite !not_elem_of_cons in Hc. destruct Hc as (? & ? & ? & _).
    by rewrite !bool_decide_eq_false_2 by done.
  - intros -> ->. rewrite bool_decide_eq_true_2 by done.
    unfold aggregate_results. cbn [mbind list_bind app]. unfold Parallel.
    case_bool_decide; [done|]. cbn [map_m].
    by rewrite (bind_done _ _ w [] w).
  - intros -> ->. rewrite bool_decide_eq_false_2 by done.
    rewrite bool_decide_eq_true_2 by done.
    unfold run_experiments. cbn [build_jobs].
    rewrite (bind_done _ _ w [] w) by done.
    unfold execute, Parallel. cbn [length fmap list_fmap].
    rewrite (bool_decide_eq_false_2 (0%nat = 1%nat)) by done. cbn [orb].
    repeat case_bool_decide; try done; lia.
Qed.
End Entry.

(** ** Further examples *)

Lemma write_child_dir n n' dir a d :
  write n (dir // a) d = inr n' → is_dir n' dir = true.
Proof.
  unfold child, is_dir. revert n n'. induction dir as [|b dir IH]; intros n n' Hw.
  - destruct n as [?|es]; [done|]. simpl in Hw.
    by destruct (es !! a) as [[]|]; simplify_eq.
  - destruct n as [?|es]; [done|].
    assert (write (Dir es) ((b :: dir) ++ [a]) d =
            match es !! b with
            | Some c => match write c (dir ++ [a]) d with
                        | inr c' => inr (Dir (<[b := c']> es))
                        | inl e => inl e end
            | None => inl "FileNotFoundError" end) as Heq by (by destruct dir).
    rewrite Heq in Hw. destruct (es !! b) as [c|]; [|done].
    destruct (write c (dir ++ [a]) d) as [|c'] eqn:Hc; simplify_eq.
    simpl. rewrite lookup_insert_eq. simpl. by eapply IH.
Qed.

Lemma trainer_ext0_returns cfg dir n :
  is_dir n dir = true → node_at n (dir // "completed") = None →
  (learn ext0 cfg dir n).2 = None ∧
  is_dir (learn ext0 cfg dir n).1 dir = true ∧
  node_at (learn ext0 cfg dir n).1 (dir // "completed") = None.
Proof.
  intros Hdir Hm. split_and!; [done| |by apply never_marks_ext0].
  cbn [learn ext0 fst].
  destruct (write n (dir // "best.pt") (Blob "state")) as [|n'] eqn:Hw; [done|].
  by eapply write_child_dir.
Qed.

Lemma learn_local_ext0 : learn_local ext0.
Proof.
  intros cfg dir n q Hap. cbn [learn ext0 fst].
  destruct (write n (dir // "best.pt") (Blob "state")) as [|n'] eqn:Hw; [done|].
  eapply write_apart; [done|]. by apply apart_child.
Qed.

Lemma learn_leaves_ext0 dir : learn_leaves ext0 (dir // "config.pkl").
Proof.
  intros cfg dir' n x Hx. cbn [learn ext0 fst].
  destruct (write n (dir' // "best.pt") (Blob "state")) as [|n'] eqn:Hw; [done|].
  eapply write_keeps_file; [done| |done].
  unfold child. intros [_ ?]%app_inj_tail. discriminate.
Qed.

(** A run blocked by a regular file. *)
Lemma blocked_run_example :
  node_at (fs (start blocked_tree)) (log_dir ["log"] 0) = Some (File (Text "")) ∧
  do_run ext0 ["log"] _cfg 0 (start blocked_tree) =
    (Raised "NotADirectoryError", start blocked_tree).
Proof.
  assert (node_at (fs (start blocked_tree)) (log_dir ["log"] 0) = Some (File (Text "")))
    as H by (by vm_compute).
  split; [exact H|]. exact (do_run_on_regular_file ext0 ["log"] _cfg 0 _ _ H).
Defined.

(** A fresh run with one override completes. *)
Lemma completed_run_example :
  node_at (fs (start empty_tree)) (log_dir ["log"] 0) = None ∧
  is_Some (mkdirs (fs (start empty_tree)) (log_dir ["log"] 0)) ∧
  ∃ w', do_run ext0 ["log"] (merge _cfg [("learning_rate", VFloat "0.001")]) 0
          (start empty_tree) = (Done (), w') ∧
        node_at (fs w') (marker ["log"] 0) = Some (File (Text "")).
Proof.
  assert (node_at (fs (start empty_tree)) (log_dir ["log"] 0) = None) as H1
    by (by vm_compute).
  assert (is_Some (mkdirs (fs (start empty_tree)) (log_dir ["log"] 0))) as H2
    by (apply (bool_decide_unpack _); by vm_compute).
  split; [exact H1|]. split; [exact H2|].
  apply (do_run_completes ext0 ["log"] [("learning_rate", VFloat "0.001")] 0
           (start empty_tree)); [|exact H1|exact H2|..].
  - intros v Hv. vm_compute in Hv. injection Hv as <-. reflexivity.
  - reflexivity.
  - reflexivity.
  - intros n. apply trainer_ext0_returns.
Defined.

(** The jobs of one module with two override-sets, two trials each. *)
Lemma two_rates_example :
  Forall2 (yields ext0) ["configs/lr.py"] [rates] ∧
  build_jobs ext0 ["configs/lr.py"] 2 ["log"] [] (start empty_tree) =
    (Done (concat (zip_with (jobs_of ["log"] 2) ["configs/lr.py"] [rates])),
     start empty_tree) ∧
  length (concat (zip_with (jobs_of ["log"] 2) ["configs/lr.py"] [rates])) = 4%nat.
Proof.
  assert (Forall2 (yields ext0) ["configs/lr.py"] [rates]) as H.
  { constructor; [|constructor]. split; [by vm_compute|].
    unfold rates. rewrite !Forall_cons.
    split_and!; [apply NoDup_singleton..|constructor]. }
  split; [exact H|].
  destruct (run_experiments_jobs ext0 ["configs/lr.py"] [rates] 2 1 ["log"]
              (start empty_tree) H) as (H1 & H2 & _).
  split; [exact H1|]. rewrite H2. reflexivity.
Defined.

(** A module that cannot be imported stops everything. *)
Lemma broken_module_example :
  Forall2 (yields ext_broken) ["configs/lr.py"] [rates] ∧
  generate_configs ext_broken (module_name "configs/broken.py") =
    Raised "ModuleNotFoundError" ∧
  run_experiments ext_broken (["configs/lr.py"] ++ "configs/broken.py" :: []) 1 1
    ["log"] (start empty_tree) = (Raised "ModuleNotFoundError", start empty_tree).
Proof.
  assert (Forall2 (yields ext_broken) ["configs/lr.py"] [rates]) as H.
  { constructor; [|constructor]. split; [by vm_compute|].
    unfold rates. rewrite !Forall_cons.
    split_and!; [apply NoDup_singleton..|constructor]. }
  assert (generate_configs ext_broken (module_name "configs/broken.py") =
          Raised "ModuleNotFoundError") as Hbad by (by vm_compute).
  split; [exact H|]. split; [exact Hbad|].
  exact (run_experiments_import_failure ext_broken _ _ _ [] _ 1 1 ["log"]
           (start empty_tree) H Hbad).
Defined.

(** A blocked job ends the batch. *)
Lemma failing_batch_example :
  for_each (call ext0) [] (start blocked_tree) = (Done (), start blocked_tree) ∧
  call ext0 (["log"], _cfg, 0%Z) (start blocked_tree) =
    (Raised "NotADirectoryError", start blocked_tree) ∧
  execute ext0 ([] ++ (["log"], _cfg, 0%Z) :: [(["log"], _cfg, 1%Z)]) 1
    (start blocked_tree) = (Raised "NotADirectoryError", start blocked_tree).
Proof.
  assert (call ext0 (["log"], _cfg, 0%Z) (start blocked_tree) =
          (Raised "NotADirectoryError", start blocked_tree)) as H.
  { unfold call. cbn [fst snd]. fold (log_dir ["log"] 0).
    unfold do_run. fold (log_dir ["log"] 0).
    rewrite (bind_done _ _ _ false (start blocked_tree)) by (by vm_compute).
    rewrite (bind_done _ _ _ true (start blocked_tree)) by (by vm_compute).
    apply bind_raised. by vm_compute. }
  split; [reflexivity|]. split; [exact H|].
  exact (execute_stops_at_first_failure ext0 [] _ _ _ _ _ _ eq_refl H).
Defined.

(** [configs/lr.py] is the module [configs.lr], logged under [lr]. *)
Lemma config_path_example :
  has_char "/" "lr" = false ∧
  config_name ("configs" +:+ "/" +:+ "lr" +:+ ".py") = "lr" ∧
  module_name ("configs" +:+ "/" +:+ "lr" +:+ ".py") = "configs.lr".
Proof.
  split; [reflexivity|].
  destruct (config_path_names "configs" "lr" eq_refl) as (H1 & H2 & _).
  split; [exact H1|exact H2].
Defined.

(** [log/a] given besides [log] is scanned twice. *)
Lemma nested_targets_example :
  of_string "log" `prefix_of` of_string "log/a" ∧
  expand_paths artifact_tree "log/a" ⊆ expand_paths artifact_tree "log".
Proof.
  assert (of_string "log" `prefix_of` of_string "log/a") as H by (by exists ["a"]).
  split; [exact H|]. exact (proj1 (expand_paths_nested_targets artifact_tree _ _ H)).
Defined.

(** [a] is listed before [a/sub]. *)
Lemma parents_first_example :
  ["sub"] ≠ [] ∧
  ["a"] ∈ expand_paths nested_tree "a" ∧
  ["a"] ++ ["sub"] ∈ expand_paths nested_tree "a" ∧
  before ["a"] (["a"] ++ ["sub"]) (expand_paths nested_tree "a").
Proof.
  assert (["a"] ∈ expand_paths nested_tree "a") as H1
    by (apply (bool_decide_unpack _); by vm_compute).
  assert (["a"] ++ ["sub"] ∈ expand_paths nested_tree "a") as H2
    by (apply (bool_decide_unpack _); by vm_compute).
  split; [discriminate|]. split; [exact H1|]. split; [exact H2|].
  apply expand_paths_parents_first; [discriminate|exact H1|exact H2].
Defined.

(** The row of an artifact carries its configuration. *)
Lemma extracted_row_example :
  ∃ row w',
    collect_metrics ext0 ["log"; "a"] [] true (start artifact_tree) = (Done row, w') ∧
    ∃ cfg,
      node_at artifact_tree (["log"; "a"] // "config.pkl") = Some (File (Pickle cfg)) ∧
      ∀ name v, patch_old_configs cfg !! name = Some v → row !! name = Some v.
Proof.
  assert (status (collect_metrics ext0 ["log"; "a"] [] true (start artifact_tree)).1 = None)
    as Hst by (by vm_compute).
  destruct (collect_metrics ext0 ["log"; "a"] [] true (start artifact_tree))
    as [[row|e] w'] eqn:Hrun; [|discriminate Hst].
  exists row, w'. split; [reflexivity|].
  destruct (collect_metrics_row ext0 _ _ _ _ _ _ Hrun) as (cfg & m & H1 & H2 & _).
  exists cfg. split; [exact H1|exact H2].
Defined.

(** Nothing to aggregate. *)
Lemma no_artifacts_example :
  (p ← ["missing"]; expand_paths (fs (start empty_tree)) p) = [] ∧
  aggregate_results ext0 ["missing"] [] 1 (start empty_tree) =
    (Raised "ValueError", start empty_tree).
Proof.
  assert ((p ← ["missing"]; expand_paths (fs (start empty_tree)) p) = []) as H
    by (by vm_compute).
  split; [exact H|]. exact (aggregate_results_no_artifacts ext0 _ _ 1 _ H).
Defined.

(** Aggregating into a directory that does not exist. *)
Lemma missing_out_dir_example :
  is_dir (fs (start artifact_tree)) ["nowhere"] = false ∧
  (aggregate_results ext0 ["log"] ["nowhere"] 1 (start artifact_tree)).1 ≠ Done () ∧
  fs (aggregate_results ext0 ["log"] ["nowhere"] 1 (start artifact_tree)).2 =
    artifact_tree.
Proof.
  assert (is_dir (fs (start artifact_tree)) ["nowhere"] = false) as H by (by vm_compute).
  split; [exact H|].
  destruct (aggregate_results_needs_out_dir ext0 ["log"] ["nowhere"] 1
              (start artifact_tree) _ _ H (surjective_pairing _)) as (H1 & H2 & _).
  split; [exact H1|exact H2].
Defined.

(** The model state of an artifact survives the aggregation. *)
Lemma kept_file_example :
  ["log"; "a"; "best.pt"] ≠ [] // "data.csv" ∧
  node_at (fs (start artifact_tree)) ["log"; "a"; "best.pt"] = Some (File (Blob "state")) ∧
  node_at (fs (aggregate_results ext0 ["log"] [] 1 (start artifact_tree)).2)
          ["log"; "a"; "best.pt"] = Some (File (Blob "state")).
Proof.
  assert (node_at (fs (start artifact_tree)) ["log"; "a"; "best.pt"] =
          Some (File (Blob "state"))) as H by (by vm_compute).
  split; [discriminate|]. split; [exact H|].
  apply (aggregate_results_keeps_files ext0 ["log"] [] 1 (start artifact_tree) _ _ _ _
           (surjective_pairing _)); [discriminate|exact H].
Defined.

(** The configuration of a fresh run is the one read back. *)
Lemma recorded_config_example :
  path_exists (fs (start empty_tree)) (marker ["log"] 0) = false ∧
  learn_leaves ext0 (log_dir ["log"] 0 // "config.pkl") ∧
  node_at (fs (do_run ext0 ["log"] _cfg 0 (start empty_tree)).2)
          (log_dir ["log"] 0 // "config.pkl") = Some (File (Pickle _cfg)).
Proof.
  assert (path_exists (fs (start empty_tree)) (marker ["log"] 0) = false) as H
    by (by vm_compute).
  split; [exact H|]. split; [apply learn_leaves_ext0|].
  assert ((do_run ext0 ["log"] _cfg 0 (start empty_tree)).1 = Done ()) as Hr
    by (by vm_compute).
  refine (proj1 (do_run_records_config ext0 ["log"] _cfg 0 (start empty_tree) _ H
                   (learn_leaves_ext0 _) _)).
  rewrite <- Hr. apply surjective_pairing.
Defined.

(** The summarizer prints one table. *)
Lemma printed_once_example :
  DiscreteAction.main pd0 args_both [] (start table_tree) =
    ((DiscreteAction.main pd0 args_both [] (start table_tree)).1,
     (DiscreteAction.main pd0 args_both [] (start table_tree)).2) ∧
  fs (DiscreteAction.main pd0 args_both [] (start table_tree)).2 = table_tree.
Proof.
  split; [apply surjective_pairing|].
  exact (proj1 (main_prints_once pd0 args_both [] (start table_tree) _ _
                  (surjective_pairing _))).
Defined.

(** A run of [log/run-0] leaves [other] absent. *)
Lemma untouched_sibling_example :
  learn_local ext0 ∧
  apart (log_dir ["log"] 0) ["other"] ∧
  node_at (fs (do_run ext0 ["log"] _cfg 0 (start empty_tree)).2) ["other"] = None.
Proof.
  assert (apart (log_dir ["log"] 0) ["other"]) as H.
  { split; intros [k Hk]; discriminate. }
  split; [exact learn_local_ext0|]. split; [exact H|].
  exact (do_run_stays_in_its_directory ext0 ["other"] ["log"] _cfg 0 (start empty_tree)
           learn_local_ext0 H).
Defined.

(** A stale directory is cleared first, and the job is run anew. *)
Lemma stale_run_example :
  is_dir (fs (start stale_tree)) (log_dir ["log"] 0) = true ∧
  path_exists (fs (start stale_tree)) (marker ["log"] 0) = false ∧
  do_run ext0 ["log"] _cfg 0 (start stale_tree) =
  do_run ext0 ["log"] _cfg 0
    (after (start stale_tree) (EvRmtree (log_dir ["log"] 0))
           (remove stale_tree (log_dir ["log"] 0))) ∧
  ∃ w', do_run ext0 ["log"] _cfg 0 (start stale_tree) = (Done (), w').
Proof.
  assert (is_dir (fs (start stale_tree)) (log_dir ["log"] 0) = true) as H1
    by (by vm_compute).
  assert (path_exists (fs (start stale_tree)) (marker ["log"] 0) = false) as H2
    by (by vm_compute).
  destruct (do_run_clears_stale_directory ext0 ["log"] _cfg 0 (start stale_tree) H1 H2)
    as (_ & Hsame & _ & _ & Hreturns).
  split; [exact H1|]. split; [exact H2|]. split; [exact Hsame|].
  clear H1 H2 Hsame. apply Hreturns; clear Hreturns.
  - by intros f.
  - intros v Hv. vm_compute in Hv. injection Hv as <-. reflexivity.
  - reflexivity.
  - reflexivity.
  - intros n. apply trainer_ext0_returns.
Defined.
